(** * discord-notify: the session/thread bridge of [extensions/discord-notify/index.ts]

    A shallow embedding of the extension's closure state, of its listeners
    ([messageCreate], [messageReactionAdd]) and host event handlers
    ([agent_start], [agent_end], [tool_result], the session handlers), of
    the bot lifecycle ([startBot], [stopBot]), of the thread resolver
    ([getOrCreateThread]), of two commands and of the helpers outside the
    closure ([truncateText], [extractLastAssistantText], [readWavAsFloat32],
    the media type of a downloaded image, the snippets of
    [generateThreadName]), followed by the properties the design document
    states about them and by further properties of the code.

    Conventions of the embedding
    - A JavaScript string is the list of its UTF-16 code units, so that
      [.length] is [length] and [.slice] cuts where the code cuts.  The empty
      list is the only falsy string.
    - The closure variables of the extension and the parts of the outside
      world that the code reaches synchronously (the environment variable,
      the JSON files, the file system, the host's [sendUserMessage] and
      [getSessionName], the clock) are fields of one record [State].
    - Every [await] of a promise of the platform is a suspension point: an
      [async] function is a tree ([Res]) whose inner nodes carry the request
      that was issued, the state at that moment and the continuation that
      receives the settlement of the promise together with the state found
      at resumption.  Awaiting an [async] function of the extension adds no
      suspension point of its own: other events cannot be dispatched during
      a microtask turn.
    - An exception is kept as its message; for a [TypeError] raised by
      reading through [null] the message is shortened to "TypeError".
    - A handler is run on its own in two ways: by [run], where nothing
      changes while the handler waits, and by [run_clocked], where the clock
      goes on at every settlement.  What depends on a time read after an
      [await] is stated of the second.  Under any interleaving with other
      handlers, a handler is one of the tasks of the event loop ([exec]).
    - A gateway connection is no field of the state: it is opened by a
      login that resolves and closed by [destroy], and is read off the
      requests of a run ([connections]).
    - [console] output and the calls of [ctx.ui] are not modelled.  File
      writes ([fs.writeFileSync]) are taken to succeed; what is stated about
      exceptions is stated of code that writes no file outside a [try].
      [ThreadMap] is modelled by its own properties (session files are
      paths, never names of [Object.prototype] members). *)

From Stdlib Require Import String Ascii DecimalString.
From Stdlib Require Import ZArith NArith QArith List Lia.
From Stdlib.Strings Require Import Byte.
From stdpp Require Import base option list gmap.

Local Open Scope Z_scope.

(* ------------------------------------------------------------------ *)
(** ** JavaScript strings *)

Module Js.

(** A string is its sequence of UTF-16 code units. *)
Definition str : Type := list N.

(** An ASCII literal. *)
Definition lit (s : String.string) : str :=
  List.map N_of_ascii (String.list_ascii_of_string s).
Arguments lit s%_string.

(** [ToBoolean] on strings. *)
Definition truthy (s : str) : bool :=
  match s with [] => false | _ :: _ => true end.

Definition len (s : str) : Z := Z.of_nat (length s).

(** [s.slice(b, e)]: negative positions count from the end, everything is
    clamped to [0 .. s.length]. *)
Definition clamp (n : Z) (i : Z) : Z :=
  if i <? 0 then Z.max (n + i) 0 else Z.min i n.

Definition slice (s : str) (b e : Z) : str :=
  let from := clamp (len s) b in
  let to := clamp (len s) e in
  take (Z.to_nat (to - from)) (drop (Z.to_nat from) s).

Fixpoint startsWith (s p : str) : bool :=
  match p, s with
  | [], _ => true
  | _ :: _, [] => false
  | c :: p', d :: s' => (c =? d)%N && startsWith s' p'
  end.

(** [s.includes(p)] *)
Fixpoint includes (s p : str) : bool :=
  startsWith s p ||
  match s with
  | [] => false
  | _ :: s' => includes s' p
  end.

Definition eqb (a b : str) : bool := bool_decide (a = b).

(** [arr.join(sep)] *)
Fixpoint join (sep : str) (l : list str) : str :=
  match l with
  | [] => []
  | [x] => x
  | x :: r => x ++ sep ++ join sep r
  end.

(** Decimal rendering of an integral number, as in a template literal. *)
Definition ofZ (z : Z) : str :=
  lit (DecimalString.NilZero.string_of_int (Z.to_int z)).

(** Code points outside ASCII that occur in the source's literals. *)
Definition emdash : str := [8212%N].                         (* U+2014 *)
Definition muted_speaker : str := [55357%N; 56583%N].         (* U+1F507 *)
Definition wastebasket : str := [55357%N; 56785%N; 65039%N].  (* U+1F5D1 U+FE0F *)
Definition microphone : str := [55356%N; 57241%N; 65039%N].   (* U+1F399 U+FE0F *)
Definition framed_picture : str := [55357%N; 56764%N; 65039%N]. (* U+1F5BC U+FE0F *)
Definition check_mark : str := [9989%N].                      (* U+2705 *)
Definition cross_mark : str := [10060%N].                     (* U+274C *)
Definition robot : str := [55358%N; 56598%N].                 (* U+1F916 *)
Definition loud_speaker : str := [55357%N; 56586%N].          (* U+1F50A *)
Definition dquote : str := [34%N].
Definition backtick : str := [96%N].
Definition open_book : str := [55357%N; 56534%N].             (* U+1F4D6 *)
Definition pencil : str := [9999%N; 65039%N].                 (* U+270F U+FE0F *)

End Js.

Abbreviation jsstring := Js.str.

(* ------------------------------------------------------------------ *)
(** ** Helpers of the source *)

(** [truncateText(text, maxLen)] *)
Definition truncateText (text : jsstring) (maxLen : Z) : jsstring :=
  if Js.len text <=? maxLen then text
  else Js.slice text 0 (maxLen - 3) ++ Js.lit "...".


(** One message of [event.messages]: [content] is a string, an array of
    typed items, or something else. *)
Record ContentItem := { item_type : jsstring; item_text : jsstring }.

Inductive MessageContent :=
| CString (s : jsstring)
| CArray (items : list ContentItem)
| COther.

Record AgentMessage := { role : jsstring; content : MessageContent }.

(** [extractLastAssistantText(messages)]: the loop runs from the last
    message down to the first. *)
Fixpoint lastAssistantText_from (rev_messages : list AgentMessage) : option jsstring :=
  match rev_messages with
  | [] => None
  | msg :: older =>
      if Js.eqb (role msg) (Js.lit "assistant") then
        match content msg with
        | CString s => Some s
        | CArray items =>
            let textParts :=
              Js.join [10%N]
                (List.map item_text
                   (List.filter (fun c => Js.eqb (item_type c) (Js.lit "text")) items)) in
            if Js.truthy textParts then Some textParts
            else lastAssistantText_from older
        | COther => lastAssistantText_from older
        end
      else lastAssistantText_from older
  end.

Definition extractLastAssistantText (messages : list AgentMessage) : option jsstring :=
  lastAssistantText_from (rev messages).

(* ------------------------------------------------------------------ *)
(** ** Data of the platform and of the host *)

Inductive ChannelType :=
| GuildText | GuildForum | PublicThread | PrivateThread | AnnouncementThread
| OtherChannel.

Record Channel := {
  ch_id : jsstring;
  ch_type : ChannelType;
  ch_archived : bool
}.

(** [channel.isThread()] *)
Definition isThread (c : Channel) : bool :=
  match ch_type c with
  | PublicThread | PrivateThread | AnnouncementThread => true
  | _ => false
  end.

Record Attachment := {
  contentType : option jsstring;
  url : jsstring
}.

Record Message := {
  msg_id : jsstring;
  author_bot : bool;
  msg_channel : Channel;
  msg_content : jsstring;
  flag_IsVoiceMessage : bool;
  attachments : list Attachment
}.

(** A [messageReactionAdd] event: the reaction and the user who added it. *)
Record Reaction := {
  partial : bool;
  emoji_name : option jsstring;
  reaction_message : jsstring;
  reaction_channel : Channel
}.

Record User := { user_bot : bool }.

Record Embed := {
  title : jsstring;
  description : option jsstring;
  color : Z;
  fields : list (jsstring * jsstring);
  footer : option jsstring
}.

(** What is posted to a channel. *)
Inductive Payload :=
| PContent (text : jsstring)
| PEmbeds (embeds : list Embed)
| PFiles (text fileName data : jsstring).

Record ImageData := { base64 : jsstring; mediaType : jsstring }.

(** Content of a user turn handed to the host. *)
Inductive Part :=
| TextPart (text : jsstring)
| ImagePart (mimeType data : jsstring).

Inductive UserContent :=
| UText (text : jsstring)
| UParts (parts : list Part).

Inductive DeliverAs := Immediate | FollowUp.

(** One call of [pi.sendUserMessage].  [origin] is the id of the platform
    message whose handler made the call; the code does not pass it on, it is
    kept here to compare the order of the calls with the order of arrival. *)
Record Delivery := {
  origin : jsstring;
  turn : UserContent;
  deliverAs : DeliverAs
}.

Record DiscordConfig := {
  channelId : jsstring;
  enabled : bool;
  minDurationMs : Z;
  includePreview : bool
}.

(** The part of [ExtensionContext] the code reads. *)
Record Ctx := {
  cwd : jsstring;
  getSessionFile : option jsstring
}.

Inductive Client := GatewayClient.

(** Closure variables of the extension, then the outside world as far as
    synchronous code reaches it. *)
Record State := {
  config : option DiscordConfig;
  threads : gmap jsstring jsstring;
  mutedThreads : gset jsstring;
  agentStartTime : Z;
  client : option Client;
  botUserId : option jsstring;
  isForum : bool;
  isAgentBusy : bool;
  lastKnownSessionName : option jsstring;
  threadAutoNamed : bool;
  watchedThreads : gmap jsstring jsstring;
  currentSessionFile : option jsstring;
  (* process.env.DISCORD_BOT_TOKEN *)
  env_DISCORD_BOT_TOKEN : option jsstring;
  (* pi.getSessionName() *)
  pi_sessionName : option jsstring;
  (* Date.now() *)
  clock : Z;
  (* discord-threads.json and discord-muted.json *)
  file_threads : gmap jsstring jsstring;
  file_muted : gset jsstring;
  (* the other files, as fs.existsSync and fs.readFileSync see them *)
  fs_files : gmap jsstring jsstring;
  (* the calls of pi.sendUserMessage, oldest first *)
  delivered : list Delivery
}.

Definition set_threads (v : gmap jsstring jsstring) (s : State) : State :=
  {| config := config s; threads := v; mutedThreads := mutedThreads s;
     agentStartTime := agentStartTime s; client := client s;
     botUserId := botUserId s; isForum := isForum s;
     isAgentBusy := isAgentBusy s;
     lastKnownSessionName := lastKnownSessionName s;
     threadAutoNamed := threadAutoNamed s;
     watchedThreads := watchedThreads s;
     currentSessionFile := currentSessionFile s;
     env_DISCORD_BOT_TOKEN := env_DISCORD_BOT_TOKEN s;
     pi_sessionName := pi_sessionName s; clock := clock s;
     file_threads := file_threads s; file_muted := file_muted s;
     fs_files := fs_files s; delivered := delivered s |}.

Definition set_mutedThreads (v : gset jsstring) (s : State) : State :=
  {| config := config s; threads := threads s; mutedThreads := v;
     agentStartTime := agentStartTime s; client := client s;
     botUserId := botUserId s; isForum := isForum s;
     isAgentBusy := isAgentBusy s;
     lastKnownSessionName := lastKnownSessionName s;
     threadAutoNamed := threadAutoNamed s;
     watchedThreads := watchedThreads s;
     currentSessionFile := currentSessionFile s;
     env_DISCORD_BOT_TOKEN := env_DISCORD_BOT_TOKEN s;
     pi_sessionName := pi_sessionName s; clock := clock s;
     file_threads := file_threads s; file_muted := file_muted s;
     fs_files := fs_files s; delivered := delivered s |}.

Definition set_agentStartTime (v : Z) (s : State) : State :=
  {| config := config s; threads := threads s;
     mutedThreads := mutedThreads s; agentStartTime := v; client := client s;
     botUserId := botUserId s; isForum := isForum s;
     isAgentBusy := isAgentBusy s;
     lastKnownSessionName := lastKnownSessionName s;
     threadAutoNamed := threadAutoNamed s;
     watchedThreads := watchedThreads s;
     currentSessionFile := currentSessionFile s;
     env_DISCORD_BOT_TOKEN := env_DISCORD_BOT_TOKEN s;
     pi_sessionName := pi_sessionName s; clock := clock s;
     file_threads := file_threads s; file_muted := file_muted s;
     fs_files := fs_files s; delivered := delivered s |}.

Definition set_client (v : option Client) (s : State) : State :=
  {| config := config s; threads := threads s;
     mutedThreads := mutedThreads s; agentStartTime := agentStartTime s;
     client := v; botUserId := botUserId s; isForum := isForum s;
     isAgentBusy := isAgentBusy s;
     lastKnownSessionName := lastKnownSessionName s;
     threadAutoNamed := threadAutoNamed s;
     watchedThreads := watchedThreads s;
     currentSessionFile := currentSessionFile s;
     env_DISCORD_BOT_TOKEN := env_DISCORD_BOT_TOKEN s;
     pi_sessionName := pi_sessionName s; clock := clock s;
     file_threads := file_threads s; file_muted := file_muted s;
     fs_files := fs_files s; delivered := delivered s |}.

Definition set_botUserId (v : option jsstring) (s : State) : State :=
  {| config := config s; threads := threads s;
     mutedThreads := mutedThreads s; agentStartTime := agentStartTime s;
     client := client s; botUserId := v; isForum := isForum s;
     isAgentBusy := isAgentBusy s;
     lastKnownSessionName := lastKnownSessionName s;
     threadAutoNamed := threadAutoNamed s;
     watchedThreads := watchedThreads s;
     currentSessionFile := currentSessionFile s;
     env_DISCORD_BOT_TOKEN := env_DISCORD_BOT_TOKEN s;
     pi_sessionName := pi_sessionName s; clock := clock s;
     file_threads := file_threads s; file_muted := file_muted s;
     fs_files := fs_files s; delivered := delivered s |}.

Definition set_isForum (v : bool) (s : State) : State :=
  {| config := config s; threads := threads s;
     mutedThreads := mutedThreads s; agentStartTime := agentStartTime s;
     client := client s; botUserId := botUserId s; isForum := v;
     isAgentBusy := isAgentBusy s;
     lastKnownSessionName := lastKnownSessionName s;
     threadAutoNamed := threadAutoNamed s;
     watchedThreads := watchedThreads s;
     currentSessionFile := currentSessionFile s;
     env_DISCORD_BOT_TOKEN := env_DISCORD_BOT_TOKEN s;
     pi_sessionName := pi_sessionName s; clock := clock s;
     file_threads := file_threads s; file_muted := file_muted s;
     fs_files := fs_files s; delivered := delivered s |}.

Definition set_isAgentBusy (v : bool) (s : State) : State :=
  {| config := config s; threads := threads s;
     mutedThreads := mutedThreads s; agentStartTime := agentStartTime s;
     client := client s; botUserId := botUserId s; isForum := isForum s;
     isAgentBusy := v; lastKnownSessionName := lastKnownSessionName s;
     threadAutoNamed := threadAutoNamed s;
     watchedThreads := watchedThreads s;
     currentSessionFile := currentSessionFile s;
     env_DISCORD_BOT_TOKEN := env_DISCORD_BOT_TOKEN s;
     pi_sessionName := pi_sessionName s; clock := clock s;
     file_threads := file_threads s; file_muted := file_muted s;
     fs_files := fs_files s; delivered := delivered s |}.

Definition set_lastKnownSessionName (v : option jsstring) (s : State) : State :=
  {| config := config s; threads := threads s;
     mutedThreads := mutedThreads s; agentStartTime := agentStartTime s;
     client := client s; botUserId := botUserId s; isForum := isForum s;
     isAgentBusy := isAgentBusy s; lastKnownSessionName := v;
     threadAutoNamed := threadAutoNamed s;
     watchedThreads := watchedThreads s;
     currentSessionFile := currentSessionFile s;
     env_DISCORD_BOT_TOKEN := env_DISCORD_BOT_TOKEN s;
     pi_sessionName := pi_sessionName s; clock := clock s;
     file_threads := file_threads s; file_muted := file_muted s;
     fs_files := fs_files s; delivered := delivered s |}.

Definition set_threadAutoNamed (v : bool) (s : State) : State :=
  {| config := config s; threads := threads s;
     mutedThreads := mutedThreads s; agentStartTime := agentStartTime s;
     client := client s; botUserId := botUserId s; isForum := isForum s;
     isAgentBusy := isAgentBusy s;
     lastKnownSessionName := lastKnownSessionName s; threadAutoNamed := v;
     watchedThreads := watchedThreads s;
     currentSessionFile := currentSessionFile s;
     env_DISCORD_BOT_TOKEN := env_DISCORD_BOT_TOKEN s;
     pi_sessionName := pi_sessionName s; clock := clock s;
     file_threads := file_threads s; file_muted := file_muted s;
     fs_files := fs_files s; delivered := delivered s |}.

Definition set_watchedThreads (v : gmap jsstring jsstring) (s : State) : State :=
  {| config := config s; threads := threads s;
     mutedThreads := mutedThreads s; agentStartTime := agentStartTime s;
     client := client s; botUserId := botUserId s; isForum := isForum s;
     isAgentBusy := isAgentBusy s;
     lastKnownSessionName := lastKnownSessionName s;
     threadAutoNamed := threadAutoNamed s; watchedThreads := v;
     currentSessionFile := currentSessionFile s;
     env_DISCORD_BOT_TOKEN := env_DISCORD_BOT_TOKEN s;
     pi_sessionName := pi_sessionName s; clock := clock s;
     file_threads := file_threads s; file_muted := file_muted s;
     fs_files := fs_files s; delivered := delivered s |}.

Definition set_file_threads (v : gmap jsstring jsstring) (s : State) : State :=
  {| config := config s; threads := threads s;
     mutedThreads := mutedThreads s; agentStartTime := agentStartTime s;
     client := client s; botUserId := botUserId s; isForum := isForum s;
     isAgentBusy := isAgentBusy s;
     lastKnownSessionName := lastKnownSessionName s;
     threadAutoNamed := threadAutoNamed s;
     watchedThreads := watchedThreads s;
     currentSessionFile := currentSessionFile s;
     env_DISCORD_BOT_TOKEN := env_DISCORD_BOT_TOKEN s;
     pi_sessionName := pi_sessionName s; clock := clock s; file_threads := v;
     file_muted := file_muted s; fs_files := fs_files s;
     delivered := delivered s |}.

Definition set_file_muted (v : gset jsstring) (s : State) : State :=
  {| config := config s; threads := threads s;
     mutedThreads := mutedThreads s; agentStartTime := agentStartTime s;
     client := client s; botUserId := botUserId s; isForum := isForum s;
     isAgentBusy := isAgentBusy s;
     lastKnownSessionName := lastKnownSessionName s;
     threadAutoNamed := threadAutoNamed s;
     watchedThreads := watchedThreads s;
     currentSessionFile := currentSessionFile s;
     env_DISCORD_BOT_TOKEN := env_DISCORD_BOT_TOKEN s;
     pi_sessionName := pi_sessionName s; clock := clock s;
     file_threads := file_threads s; file_muted := v; fs_files := fs_files s;
     delivered := delivered s |}.

Definition set_delivered (v : list Delivery) (s : State) : State :=
  {| config := config s; threads := threads s;
     mutedThreads := mutedThreads s; agentStartTime := agentStartTime s;
     client := client s; botUserId := botUserId s; isForum := isForum s;
     isAgentBusy := isAgentBusy s;
     lastKnownSessionName := lastKnownSessionName s;
     threadAutoNamed := threadAutoNamed s;
     watchedThreads := watchedThreads s;
     currentSessionFile := currentSessionFile s;
     env_DISCORD_BOT_TOKEN := env_DISCORD_BOT_TOKEN s;
     pi_sessionName := pi_sessionName s; clock := clock s;
     file_threads := file_threads s; file_muted := file_muted s;
     fs_files := fs_files s; delivered := v |}.

(* ------------------------------------------------------------------ *)
(** ** Asynchronous computations *)

(** The operations the code awaits.  Three of them stand for the body of a
    function of the source that is input/output from end to end:
    [ReqTranscribe] for the download / ffmpeg / WAV decoding / speech model
    chain inside [transcribeVoiceMessage] (its value is
    [result?.text?.trim()]), [ReqDownloadImage] for the fetch and base64
    encoding inside [downloadImageAsBase64], [ReqGenerateThreadName] for
    [generateThreadName]. *)
Inductive Request :=
| ReqReact (message emoji : jsstring)
| ReqReply (message content : jsstring)
| ReqTranscribe (url : jsstring)
| ReqDownloadImage (url : jsstring)
| ReqReactionFetch (message : jsstring)
| ReqSend (channel : jsstring) (p : Payload)
| ReqSleep (ms : Z)
| ReqDeleteThread (thread reason : jsstring)
| ReqLogin (token : jsstring)
| ReqFetchChannel (id : jsstring)
| ReqSetArchived (thread : jsstring) (archived : bool)
| ReqCreateForumThread (channel name : jsstring) (message : Payload)
| ReqCreateTextThread (channel name : jsstring) (autoArchiveDuration : Z)
| ReqSetName (thread name : jsstring)
| ReqDestroy
| ReqGenerateThreadName (ctx : Ctx).

(** The type of the value a request resolves to. *)
Definition resp_ty (r : Request) : Type :=
  match r with
  | ReqTranscribe _ => option jsstring
  | ReqDownloadImage _ => option ImageData
  | ReqLogin _ => option jsstring          (* client.user?.id *)
  | ReqFetchChannel _ => option Channel
  | ReqCreateForumThread _ _ _ => Channel
  | ReqCreateTextThread _ _ _ => Channel
  | ReqGenerateThreadName _ => option jsstring
  | _ => unit
  end.

(** A promise settles: it resolves to a value or rejects with an error
    (kept as its message). *)
Inductive Outcome (A : Type) :=
| Resolved (a : A)
| Rejected (err : jsstring).
Arguments Resolved {A} a.
Arguments Rejected {A} err.

(** The run of an [async] function up to its end or its next [await]. *)
Inductive Res (A : Type) : Type :=
| Done (a : A) (s : State)
| Throw (err : jsstring) (s : State)
| Susp (r : Request) (s : State) (k : Outcome (resp_ty r) -> State -> Res A).
Arguments Done {A} a s.
Arguments Throw {A} err s.
Arguments Susp {A} r s k.

Definition M (A : Type) : Type := State -> Res A.

Definition ret {A} (a : A) : M A := fun s => Done a s.

Definition throw {A} (err : jsstring) : M A := fun s => Throw err s.

Fixpoint res_bind {A B} (r : Res A) (f : A -> M B) : Res B :=
  match r with
  | Done a s => f a s
  | Throw e s => Throw e s
  | Susp q s k => Susp q s (fun x s' => res_bind (k x s') f)
  end.

Definition bind {A B} (m : M A) (f : A -> M B) : M B :=
  fun s => res_bind (m s) f.

(** [try { m } catch (err) { h err }] *)
Fixpoint res_catch {A} (r : Res A) (h : jsstring -> M A) : Res A :=
  match r with
  | Done a s => Done a s
  | Throw e s => h e s
  | Susp q s k => Susp q s (fun x s' => res_catch (k x s') h)
  end.

Definition try_catch {A} (m : M A) (h : jsstring -> M A) : M A :=
  fun s => res_catch (m s) h.

(** [await] of the promise a request returns. *)
Definition await (r : Request) : M (resp_ty r) :=
  fun s => Susp r s (fun x s' =>
    match x with
    | Resolved a => Done a s'
    | Rejected e => Throw e s'
    end).

Definition gets {A} (f : State -> A) : M A := fun s => Done (f s) s.

Definition modify (f : State -> State) : M unit := fun s => Done tt (f s).

Notation "'let*' x ':=' m 'in' k" := (bind m (fun x => k))
  (at level 10, x name, m at level 100, k at level 200, only parsing).

(** [await p.catch(() => {})] for a promise whose value is not used. *)
Definition await_ignoring (r : Request) : M unit :=
  try_catch (let* _ := await r in ret tt) (fun _ => ret tt).

(** Reading through a variable that holds [null] is a [TypeError]. *)
Definition TypeError : jsstring := Js.lit "TypeError".

(** [client.channels.fetch(id)] *)
Definition channels_fetch (id : jsstring) : M (option Channel) :=
  let* c := gets client in
  match c with
  | None => throw TypeError
  | Some _ => await (ReqFetchChannel id)
  end.

(** How a handler that ran to its end ended. *)
Inductive Final (A : Type) :=
| Returned (a : A)
| Thrown (err : jsstring).
Arguments Returned {A} a.
Arguments Thrown {A} err.

(** The result of a run: how it ended, the state it left, and every
    request it awaited together with the state at the moment of the
    request. *)
Record Run (A : Type) := {
  final : Final A;
  last : State;
  trace : list (Request * State)
}.
Arguments final {A} r.
Arguments last {A} r.
Arguments trace {A} r.

(* ------------------------------------------------------------------ *)
(** ** Media types, WAV files and conversation snippets *)

(** The code units of [WhiteSpace] and [LineTerminator], which [trim]
    removes. *)
Definition is_space (c : N) : bool :=
  bool_decide (c ∈ [9; 10; 11; 12; 13; 32; 160; 5760; 8192; 8193; 8194; 8195;
                    8196; 8197; 8198; 8199; 8200; 8201; 8202; 8232; 8233; 8239;
                    8287; 12288; 65279]%N).

Fixpoint trimStart (s : jsstring) : jsstring :=
  match s with
  | [] => []
  | c :: rest => if is_space c then trimStart rest else s
  end.

(** [s.trim()] *)
Definition trim (s : jsstring) : jsstring :=
  rev (trimStart (rev (trimStart s))).

(** [s.split(sep)[0]] for a separator of one code unit. *)
Fixpoint split_head (sep : N) (s : jsstring) : jsstring :=
  match s with
  | [] => []
  | c :: rest => if (c =? sep)%N then [] else c :: split_head sep rest
  end.

Definition semicolon : N := 59%N.

(** The media types the host accepts for an image. *)
Definition SUPPORTED_MEDIA_TYPES : list jsstring :=
  [Js.lit "image/png"; Js.lit "image/jpeg"; Js.lit "image/gif"; Js.lit "image/webp"].

(** The media type [downloadImageAsBase64] computes from the response's
    [content-type] header ([None] when the header is absent). *)
Definition mediaType_of (header : option jsstring) : jsstring :=
  let contentType :=
    match header with
    | Some h => if Js.truthy h then h else Js.lit "image/png"
    | None => Js.lit "image/png"
    end in
  let mediaType := trim (split_head semicolon contentType) in
  if bool_decide (mediaType ∈ SUPPORTED_MEDIA_TYPES) then mediaType
  else Js.lit "image/png".

(** A [Buffer] is the list of its bytes.  [buffer[i]] as a number. *)
Definition byte_at (buffer : list byte) (i : Z) : option Z :=
  if i <? 0 then None
  else option_map (fun b => Z.of_N (Byte.to_N b)) (buffer !! Z.to_nat i).

(** [buffer.readUInt32LE(offset)]; [None] stands for the [RangeError] of a
    read that does not fit into the buffer. *)
Definition readUInt32LE (buffer : list byte) (offset : Z) : option Z :=
  match byte_at buffer offset, byte_at buffer (offset + 1),
        byte_at buffer (offset + 2), byte_at buffer (offset + 3) with
  | Some b0, Some b1, Some b2, Some b3 =>
      Some (b0 + b1 * 2 ^ 8 + b2 * 2 ^ 16 + b3 * 2 ^ 24)
  | _, _, _, _ => None
  end.

(** [buffer.readInt16LE(offset)] *)
Definition readInt16LE (buffer : list byte) (offset : Z) : option Z :=
  match byte_at buffer offset, byte_at buffer (offset + 1) with
  | Some b0, Some b1 =>
      let val := b0 + b1 * 2 ^ 8 in
      Some (if val <? 32768 then val else val - 65536)
  | _, _ => None
  end.

(** [buffer.toString("ascii", start, end)] for [0 <= start <= end]: the
    decoder clears the highest bit of every byte. *)
Definition toString_ascii (buffer : list byte) (start end_ : Z) : jsstring :=
  List.map (fun b => N.land (Byte.to_N b) 127)
    (take (Z.to_nat (end_ - start)) (drop (Z.to_nat start) buffer)).

(** An element of the [Float32Array]: [v / 32768] for a 16-bit [v] is a
    binary fraction with at most 16 significant bits, which single
    precision holds exactly. *)
Definition sample (v : Z) : Q := Qmake v 32768.

(** What [readWavAsFloat32] ends with: the samples, or an exception (kept
    as its message; the allocation of the array is taken to succeed). *)
Inductive WavOutcome :=
| WavSamples (samples : list Q)
| WavThrow (err : jsstring).

Definition RangeError : jsstring := Js.lit "RangeError".

(** The [for] loop that fills [samples], from index [i] on. *)
Fixpoint fill_samples (buffer : list byte) (dataOffset i : Z) (remaining : nat)
    : option (list Q) :=
  match remaining with
  | O => Some []
  | S n =>
      match readInt16LE buffer (dataOffset + i * 2) with
      | Some v =>
          option_map (cons (sample v)) (fill_samples buffer dataOffset (i + 1) n)
      | None => None
      end
  end.

(** The [while] loop of [readWavAsFloat32]; [fuel] bounds the number of
    iterations, [None] means that the bound was reached. *)
Fixpoint scan_chunks (fuel : nat) (buffer : list byte) (dataOffset : Z)
    : option WavOutcome :=
  if dataOffset <? Z.of_nat (length buffer) - 8 then
    match fuel with
    | O => None
    | S fuel' =>
        let chunkId := toString_ascii buffer dataOffset (dataOffset + 4) in
        match readUInt32LE buffer (dataOffset + 4) with
        | None => Some (WavThrow RangeError)
        | Some chunkSize =>
            if Js.eqb chunkId (Js.lit "data") then
              (* new Float32Array(chunkSize / 2) has floor(chunkSize / 2)
                 elements *)
              match fill_samples buffer (dataOffset + 8) 0
                      (Z.to_nat (chunkSize / 2)) with
              | Some samples => Some (WavSamples samples)
              | None => Some (WavThrow RangeError)
              end
            else scan_chunks fuel' buffer (dataOffset + 8 + chunkSize)
        end
    end
  else Some (WavThrow (Js.lit "Could not find data chunk in WAV file")).

(** [readWavAsFloat32(wavPath)] on the content of the file.  Every
    iteration moves [dataOffset] forward by at least 8, so the length of the
    buffer bounds the number of iterations. *)
Definition readWavAsFloat32 (buffer : list byte) : option WavOutcome :=
  scan_chunks (length buffer) buffer 12.

(** An entry of [ctx.sessionManager.getBranch()]: [entry.type] and, for an
    entry of type "message", [entry.message]. *)
Record SessionEntry := { entry_type : jsstring; entry_message : AgentMessage }.

(** The text [generateThreadName] takes from a message. *)
Definition text_of_content (c : MessageContent) : jsstring :=
  match c with
  | CString s => s
  | CArray items =>
      Js.join [10%N]
        (List.map item_text
           (List.filter (fun c => Js.eqb (item_type c) (Js.lit "text")) items))
  | COther => []
  end.

(** The loop of [generateThreadName] that gathers the snippets: the role
    and the truncated text of each snippet, [charBudget] being what is left
    of the budget. *)
Fixpoint gather_snippets (entries : list SessionEntry) (charBudget : Z)
    : list (jsstring * jsstring) :=
  match entries with
  | [] => []
  | entry :: rest =>
      if negb (Js.eqb (entry_type entry) (Js.lit "message"))
      then gather_snippets rest charBudget
      else
        let msg := entry_message entry in
        if negb (Js.eqb (role msg) (Js.lit "user"))
           && negb (Js.eqb (role msg) (Js.lit "assistant"))
        then gather_snippets rest charBudget
        else
          let text := text_of_content (content msg) in
          if negb (Js.truthy text) then gather_snippets rest charBudget
          else
            let snippet := truncateText text (Z.min 400 charBudget) in
            let charBudget := charBudget - Js.len snippet in
            (role msg, snippet)
            :: (if charBudget <=? 0 then [] else gather_snippets rest charBudget)
  end.

(** [snippets]: each entry is [`${msg.role}: ${snippet}`]. *)
Definition snippets_of (entries : list SessionEntry) : list jsstring :=
  List.map (fun p => fst p ++ Js.lit ": " ++ snd p) (gather_snippets entries 2000).

(** The text an assistant message contributes to
    [extractLastAssistantText]: its string content, or the joined text items
    of its array content when that is not empty. *)
Definition assistant_text (msg : AgentMessage) : option jsstring :=
  if Js.eqb (role msg) (Js.lit "assistant") then
    match content msg with
    | CString s => Some s
    | CArray _ =>
        if Js.truthy (text_of_content (content msg))
        then Some (text_of_content (content msg))
        else None
    | COther => None
    end
  else None.

(** The byte with value [z mod 256]. *)
Definition byte_of (z : Z) : byte :=
  match Byte.of_N (Z.to_N (z mod 256)) with
  | Some b => b
  | None => x00
  end.

(** Little-endian layout of a 16-bit sample (two's complement) and of a
    32-bit size. *)
Definition le16 (v : Z) : list byte := [byte_of v; byte_of (v / 2 ^ 8)].

Definition le32 (n : Z) : list byte :=
  [byte_of n; byte_of (n / 2 ^ 8); byte_of (n / 2 ^ 16); byte_of (n / 2 ^ 24)].

(** A chunk as the loop of [readWavAsFloat32] steps over it: four bytes of
    identifier, the size of the payload, the payload, and no padding. *)
Definition riff_chunk (id payload : list byte) : list byte :=
  id ++ le32 (Z.of_nat (length payload)) ++ payload.

Definition chunks (cs : list (list byte * list byte)) : list byte :=
  flat_map (fun c => riff_chunk (fst c) (snd c)) cs.

Definition pcm16 (vs : list Z) : list byte := flat_map le16 vs.

(** The bytes of "data". *)
Definition data_id : list byte := [x64; x61; x74; x61].

(** A chunk the loop steps over: its identifier does not read "data". *)
Definition skipped (c : list byte * list byte) : Prop :=
  length (fst c) = 4%nat /\
  toString_ascii (fst c) 0 4 <> Js.lit "data" /\
  Z.of_nat (length (snd c)) < 2 ^ 32.

(** What the speech model expects of a sample. *)
Definition normalised (x : Q) : Prop := (-1 <= x)%Q /\ (x < 1)%Q.

Definition no_data_chunk : jsstring :=
  Js.lit "Could not find data chunk in WAV file".

Definition total_len (l : list jsstring) : Z :=
  foldr (fun b acc => Js.len b + acc) 0 l.

Definition all_spaces (s : jsstring) : Prop :=
  Forall (fun c => is_space c = true) s.

(* ------------------------------------------------------------------ *)
(** ** The extension *)

Record StartResult := { ok : bool; error : option jsstring }.

(** What the code calls of node's [path] module and of the string library
    beyond what [Js] defines. *)
Record Node := {
  basename : jsstring -> jsstring;
  extname : jsstring -> jsstring;
  isAbsolute : jsstring -> bool;
  resolve : jsstring -> jsstring -> jsstring;
  toLowerCase : jsstring -> jsstring
}.

(** The [tool_result] event as far as the handler reads it: [event.toolName]
    and [event.input?.path]. *)
Record ToolResult := {
  toolName : jsstring;
  input_path : option jsstring
}.

Section Extension.

Variable node : Node.

(** *** Persistence *)

(** [saveThreads(threads)] *)
Definition saveThreads : M unit :=
  modify (fun s => set_file_threads (threads s) s).

(** [saveMuted(mutedThreads)] *)
Definition saveMuted : M unit :=
  modify (fun s => set_file_muted (mutedThreads s) s).

(** *** Voice and images *)

(** [transcribeVoiceMessage(url)]: whatever fails inside is caught, the
    value is [result?.text?.trim() || null]. *)
Definition transcribeVoiceMessage (url : jsstring) : M (option jsstring) :=
  try_catch
    (let* text := await (ReqTranscribe url) in
     match text with
     | Some t => if Js.truthy t then ret (Some t) else ret None
     | None => ret None
     end)
    (fun _ => ret None).

(** [downloadImageAsBase64(url)] *)
Definition downloadImageAsBase64 (url : jsstring) : M (option ImageData) :=
  try_catch (await (ReqDownloadImage url)) (fun _ => ret None).

(** *** Bot lifecycle *)

(** [process.env.DISCORD_BOT_TOKEN || null] *)
Definition bot_token (s : State) : option jsstring :=
  match env_DISCORD_BOT_TOKEN s with
  | Some t => if Js.truthy t then Some t else None
  | None => None
  end.

(** [getBotToken()] *)
Definition getBotToken : M (option jsstring) := gets bot_token.

(** [pi.sendUserMessage(content, options)] *)
Definition sendUserMessage (from : jsstring) (c : UserContent) (d : DeliverAs) : M unit :=
  modify (fun s =>
    set_delivered (delivered s ++ [{| origin := from; turn := c; deliverAs := d |}]) s).

(** The [try { if (isAgentBusy) ... else ... } catch] at the end of both
    delivering branches of the message handler. *)
Definition pipe (from : jsstring) (c : UserContent) : M unit :=
  try_catch
    (let* busy := gets isAgentBusy in
     if busy then sendUserMessage from c FollowUp
     else sendUserMessage from c Immediate)
    (fun _ => ret tt).

(** [a.contentType?.includes("audio")] *)
Definition is_audio (a : Attachment) : bool :=
  match contentType a with
  | Some t => Js.includes t (Js.lit "audio")
  | None => false
  end.

(** [a.contentType?.startsWith("image/")] *)
Definition is_image (a : Attachment) : bool :=
  match contentType a with
  | Some t => Js.startsWith t (Js.lit "image/")
  | None => false
  end.

(** [isVoiceMessage ? message.attachments.find(...) : undefined] *)
Definition voiceAttachment_of (message : Message) : option Attachment :=
  if flag_IsVoiceMessage message
  then List.find is_audio (attachments message)
  else None.

(** [message.attachments.filter(...)] *)
Definition imageAttachments_of (message : Message) : list Attachment :=
  List.filter is_image (attachments message).

(** The [for] loop over [imageAttachments]. *)
Fixpoint download_images (imageAttachments : list Attachment)
    (contentParts : list Part) : M (list Part) :=
  match imageAttachments with
  | [] => ret contentParts
  | attachment :: rest =>
      let* imgData := downloadImageAsBase64 (url attachment) in
      match imgData with
      | Some d =>
          download_images rest
            (contentParts ++ [ImagePart (mediaType d) (base64 d)])
      | None => download_images rest contentParts
      end
  end.

(** The voice step of the message handler: [Some text] when the handler
    goes on with [text], [None] when it returns. *)
Definition voice_step (message : Message) (voiceAttachment : option Attachment)
    (text : jsstring) : M (option jsstring) :=
  match voiceAttachment with
  | Some va =>
      let* _ := await_ignoring (ReqReact (msg_id message) Js.microphone) in
      let* transcription := transcribeVoiceMessage (url va) in
      match transcription with
      | Some t =>
          if Js.truthy t then
            let* _ := await_ignoring
              (ReqReply (msg_id message)
                 (Js.microphone ++ Js.lit " *" ++ Js.dquote ++ t
                    ++ Js.dquote ++ Js.lit "*")) in
            ret (Some t)
          else
            let* _ := await_ignoring
              (ReqReply (msg_id message)
                 (Js.cross_mark ++ Js.lit " Failed to transcribe voice message")) in
            ret None
      | None =>
          let* _ := await_ignoring
            (ReqReply (msg_id message)
               (Js.cross_mark ++ Js.lit " Failed to transcribe voice message")) in
          ret None
      end
  | None => ret (Some text)
  end.

(** The rest of the message handler: the image branch, else the plain
    text branch. *)
Definition forward_step (message : Message) (imageAttachments : list Attachment)
    (text : jsstring) : M unit :=
  match imageAttachments with
  | _ :: _ =>
      let* _ := await_ignoring (ReqReact (msg_id message) Js.framed_picture) in
      let* contentParts :=
        download_images imageAttachments
          (if Js.truthy text then [TextPart text] else []) in
      match contentParts with
      | [] => ret tt
      | _ :: _ =>
          let contentParts :=
            if Js.truthy text then contentParts
            else TextPart (Js.lit "Here's an image from Discord:") :: contentParts in
          pipe (msg_id message) (UParts contentParts)
      end
  | [] =>
      if negb (Js.truthy text) then ret tt
      else pipe (msg_id message) (UText text)
  end.

(** The [messageCreate] listener. *)
Definition messageCreate (message : Message) : M unit :=
  if author_bot message then ret tt else
  if negb (isThread (msg_channel message)) then ret tt else
  let threadId := ch_id (msg_channel message) in
  let* sessionKey := gets (fun s => watchedThreads s !! threadId) in
  match sessionKey with
  | None => ret tt
  | Some sessionKey =>
  if negb (Js.truthy sessionKey) then ret tt else
  let* currentSession := gets currentSessionFile in
  if negb (bool_decide (Some sessionKey = currentSession)) then ret tt else
  let voiceAttachment := voiceAttachment_of message in
  let imageAttachments := imageAttachments_of message in
  let* text := voice_step message voiceAttachment (msg_content message) in
  match text with
  | None => ret tt
  | Some text => forward_step message imageAttachments text
  end
  end.

(** The two emoji branches of the reaction handler. *)
Definition apply_reaction (reaction : Reaction) (threadId sessionKey : jsstring)
    : M unit :=
  let emoji := emoji_name reaction in
  if bool_decide (emoji = Some Js.muted_speaker) then
    let* _ := modify (fun s => set_mutedThreads ({[threadId]} ∪ mutedThreads s) s) in
    let* _ := saveMuted in
    try_catch
      (let* _ := await (ReqSend threadId
         (PContent (Js.muted_speaker ++ Js.lit " Thread muted "
            ++ Js.emdash ++ Js.lit " no more notifications will be sent here."))) in
       await_ignoring (ReqReact (reaction_message reaction) Js.check_mark))
      (fun _ => ret tt)
  else if bool_decide (emoji = Some Js.wastebasket) then
    let* _ := modify (fun s => set_mutedThreads ({[threadId]} ∪ mutedThreads s) s) in
    let* _ := saveMuted in
    let* _ := modify (fun s => set_watchedThreads (delete threadId (watchedThreads s)) s) in
    let* _ :=
      if Js.truthy sessionKey then
        let* _ := modify (fun s => set_threads (delete sessionKey (threads s)) s) in
        saveThreads
      else ret tt in
    try_catch
      (let* _ := await (ReqSend threadId
         (PContent (Js.wastebasket ++ Js.lit " Thread will be deleted in 3 seconds..."))) in
       let* _ := await (ReqSleep 3000) in
       await (ReqDeleteThread threadId
         (Js.lit "Deleted via " ++ Js.wastebasket ++ Js.lit " reaction")))
      (fun _ => ret tt)
  else ret tt.

(** The [messageReactionAdd] listener. *)
Definition messageReactionAdd (reaction : Reaction) (user : User) : M unit :=
  let* fetched :=
    if partial reaction then
      try_catch
        (let* _ := await (ReqReactionFetch (reaction_message reaction)) in ret true)
        (fun _ => ret false)
    else ret true in
  if negb fetched then ret tt else
  if user_bot user then ret tt else
  let channel := reaction_channel reaction in
  if negb (isThread channel) then ret tt else
  let threadId := ch_id channel in
  let* sessionKey := gets (fun s => watchedThreads s !! threadId) in
  match sessionKey with
  | None => ret tt
  | Some sessionKey =>
      if negb (Js.truthy sessionKey) then ret tt
      else apply_reaction reaction threadId sessionKey
  end.

(** Rebuilding the index: [watchedThreads.set(threadId, sessionKey)] for
    every entry of [threads].  (When two sessions are bound to one thread
    the code keeps the entry that [Object.entries] lists last, the fold
    the one that comes last in the order of the keys: which of the two
    sessions the index then names is left open, and nothing below depends
    on it.) *)
Definition rebuild_watched (th w : gmap jsstring jsstring) : gmap jsstring jsstring :=
  map_fold (fun sessionKey threadId acc => <[threadId := sessionKey]> acc) w th.

(** [startBot()] *)
Definition startBot : M StartResult :=
  let* botToken := getBotToken in
  match botToken with
  | None =>
      ret {| ok := false;
             error := Some (Js.lit "DISCORD_BOT_TOKEN environment variable not set") |}
  | Some botToken =>
  let* running := gets client in
  match running with
  | Some _ => ret {| ok := true; error := None |}
  | None =>
      try_catch
        (let* _ := modify (set_client (Some GatewayClient)) in
         let* userId := (await (ReqLogin botToken) : M (option jsstring)) in
         let* c := gets client in
         match c with
         | None => throw (A := StartResult) TypeError
         | Some _ =>
         let* _ := modify (set_botUserId userId) in
         let* c := gets client in
         let* cfg := gets config in
         match c, cfg with
         | Some _, Some cfg =>
             let* channel :=
               (await (ReqFetchChannel (channelId cfg)) : M (option Channel)) in
             let* _ := modify (set_isForum
               (match channel with
                | Some ch =>
                    match ch_type ch with GuildForum => true | _ => false end
                | None => false
                end)) in
             let* _ := modify (fun s =>
               set_watchedThreads (rebuild_watched (threads s) (watchedThreads s)) s) in
             ret {| ok := true; error := None |}
         | _, _ => throw (A := StartResult) TypeError
         end
         end)
        (fun err =>
           let* _ := modify (set_client None) in
           ret {| ok := false; error := Some err |})
  end
  end.

(** [stopBot()] *)
Definition stopBot : M unit :=
  let* c := gets client in
  match c with
  | Some _ =>
      let* _ := await_ignoring ReqDestroy in
      let* _ := modify (set_client None) in
      modify (set_botUserId None)
  | None => ret tt
  end.

(** *** Thread management *)

(** [getSessionKey(ctx)] *)
Definition getSessionKey (ctx : Ctx) : option jsstring := getSessionFile ctx.

Definition dash : jsstring := Js.lit " " ++ Js.emdash ++ Js.lit " ".

(** [makeThreadName(ctx)] *)
Definition makeThreadName (ctx : Ctx) : M jsstring :=
  let project := basename node (cwd ctx) in
  let* sessionName := gets pi_sessionName in
  match sessionName with
  | Some n =>
      if Js.truthy n then ret (truncateText (project ++ dash ++ n) 100)
      else ret (truncateText (project ++ dash ++ Js.lit "new session") 100)
  | None => ret (truncateText (project ++ dash ++ Js.lit "new session") 100)
  end.

(** [threads[key]] for a key that may be [null]; a falsy key or value
    counts as no binding wherever the code tests it. *)
Definition binding_of (s : State) (key : option jsstring) : option jsstring :=
  match key with
  | Some k =>
      if Js.truthy k then
        match threads s !! k with
        | Some t => if Js.truthy t then Some t else None
        | None => None
        end
      else None
  | None => None
  end.

(** [renameCurrentThread(name)] *)
Definition renameCurrentThread (name : jsstring) : M bool :=
  let* c := gets client in
  let* threadId := gets (fun s => binding_of s (currentSessionFile s)) in
  match c, threadId with
  | Some _, Some threadId =>
      try_catch
        (let* thread := channels_fetch threadId in
         match thread with
         | Some th =>
             if isThread th then
               let* _ := await (ReqSetName (ch_id th) (truncateText name 100)) in
               ret true
             else ret false
         | None => ret false
         end)
        (fun _ => ret false)
  | _, _ => ret false
  end.

(** [generateThreadName(ctx)] *)
Definition generateThreadName (ctx : Ctx) : M (option jsstring) :=
  await (ReqGenerateThreadName ctx).

(** The "try existing thread" block of [getOrCreateThread]: [Some thread]
    when the function returns from inside it. *)
Definition try_existing (sessionKey : option jsstring) (existingThreadId : jsstring)
    : M (option Channel) :=
  try_catch
    (let* thread := channels_fetch existingThreadId in
     match thread with
     | Some th =>
         if isThread th then
           let* _ :=
             if ch_archived th
             then await (ReqSetArchived (ch_id th) false)
             else ret tt in
           ret (Some th)
         else ret None
     | None => ret None
     end)
    (fun _ =>
       match sessionKey with
       | Some sk =>
           if Js.truthy sk then
             let* _ := modify (fun s => set_threads (delete sk (threads s)) s) in
             let* _ := modify (fun s =>
               set_watchedThreads (delete existingThreadId (watchedThreads s)) s) in
             let* _ := saveThreads in
             ret None
           else ret None
       | None => ret None
       end).

(** The "create new thread" block of [getOrCreateThread]. *)
Definition create_thread (sessionKey : option jsstring) (threadName : jsstring)
    (firstEmbed : option Embed) : M (option Channel) :=
  try_catch
    (let* c := gets client in
     let* cfg := gets config in
     match c, cfg with
     | Some _, Some cfg =>
         let* channel := (await (ReqFetchChannel (channelId cfg)) : M (option Channel)) in
         match channel with
         | None => ret None
         | Some channel =>
             let* thread :=
               match ch_type channel with
               | GuildForum =>
                   let* forumThread :=
                     (await (ReqCreateForumThread (ch_id channel) threadName
                        (match firstEmbed with
                         | Some e => PEmbeds [e]
                         | None =>
                             PContent (Js.robot ++ Js.lit " pi session started"
                                         ++ dash ++ threadName)
                         end)) : M Channel) in
                   ret (Some forumThread)
               | GuildText =>
                   let* thread :=
                     (await (ReqCreateTextThread (ch_id channel) threadName 1440)
                        : M Channel) in
                   let* _ :=
                     match firstEmbed with
                     | Some e => await (ReqSend (ch_id thread) (PEmbeds [e]))
                     | None => ret tt
                     end in
                   ret (Some thread)
               | _ => ret None
               end in
             match thread with
             | None => ret None
             | Some thread =>
                 let* _ :=
                   match sessionKey with
                   | Some sk =>
                       if Js.truthy sk then
                         let* _ := modify (fun s =>
                           set_threads (<[sk := ch_id thread]> (threads s)) s) in
                         let* _ := modify (fun s =>
                           set_watchedThreads
                             (<[ch_id thread := sk]> (watchedThreads s)) s) in
                         saveThreads
                       else ret tt
                   | None => ret tt
                   end in
                 ret (Some thread)
             end
         end
     | _, _ => throw TypeError
     end)
    (fun _ => ret None).

(** [getOrCreateThread(ctx, firstEmbed)] *)
Definition getOrCreateThread (ctx : Ctx) (firstEmbed : option Embed)
    : M (option Channel) :=
  let* c := gets client in
  let* cfg := gets config in
  match c, cfg with
  | Some _, Some _ =>
      let sessionKey := getSessionKey ctx in
      let* existingThreadId := gets (fun s => binding_of s sessionKey) in
      let* muted :=
        gets (fun s =>
          match existingThreadId with
          | Some t => bool_decide (t ∈ mutedThreads s)
          | None => false
          end) in
      if muted then ret None else
      let* found :=
        match existingThreadId with
        | Some t => try_existing sessionKey t
        | None => ret None
        end in
      match found with
      | Some thread => ret (Some thread)
      | None =>
          let* threadName := makeThreadName ctx in
          create_thread sessionKey threadName firstEmbed
      end
  | _, _ => ret None
  end.

(** [notify(embed, ctx)] *)
Definition notify (embed : Embed) (ctx : Ctx) : M bool :=
  let* c := gets client in
  let* cfg := gets config in
  match c, cfg with
  | Some _, Some _ =>
      let sessionKey := getSessionKey ctx in
      let* existingThreadId := gets (fun s => binding_of s sessionKey) in
      let* thread :=
        getOrCreateThread ctx
          (match existingThreadId with Some _ => None | None => Some embed end) in
      match thread with
      | None => ret false
      | Some thread =>
          match existingThreadId with
          | Some _ =>
              try_catch
                (let* _ := await (ReqSend (ch_id thread) (PEmbeds [embed])) in
                 ret true)
                (fun _ => ret false)
          | None => ret true
          end
      end
  | _, _ => ret false
  end.

(** *** Events of the host *)

(** [pi.on("agent_start", ...)] *)
Definition agent_start : M unit :=
  let* _ := modify (fun s => set_agentStartTime (clock s) s) in
  modify (set_isAgentBusy true).

(** [config?.enabled] *)
Definition config_enabled (s : State) : bool :=
  match config s with
  | Some cfg => enabled cfg
  | None => false
  end.

(** The renaming block at the head of the [agent_end] handler. *)
Definition auto_rename (ctx : Ctx) : M unit :=
  let* applies := gets (fun s =>
    config_enabled s && bool_decide (is_Some (client s))
    && bool_decide (is_Some (binding_of s (currentSessionFile s)))) in
  if applies then
    let* currentName := gets pi_sessionName in
    let* lastKnown := gets lastKnownSessionName in
    let* autoNamed := gets threadAutoNamed in
    let named := match currentName with Some n => Js.truthy n | None => false end in
    if named && negb (bool_decide (currentName = lastKnown)) then
      let* _ := modify (set_lastKnownSessionName currentName) in
      let* _ := modify (set_threadAutoNamed true) in
      let* newThreadName := makeThreadName ctx in
      let* _ := renameCurrentThread newThreadName in
      ret tt
    else if negb autoNamed && negb named then
      let* _ := modify (set_threadAutoNamed true) in
      let* generated := generateThreadName ctx in
      match generated with
      | Some g =>
          if Js.truthy g then
            let project := basename node (cwd ctx) in
            let fullName := truncateText (project ++ dash ++ g) 100 in
            let* _ := renameCurrentThread fullName in
            ret tt
          else ret tt
      | None => ret tt
      end
    else ret tt
  else ret tt.

(** [Math.round(duration / 1000)] for an integral [duration]. *)
Definition round_seconds (duration : Z) : Z := (duration + 500) / 1000.

Definition durationStr (duration : Z) : jsstring :=
  let durationSec := round_seconds duration in
  if 60 <=? durationSec
  then Js.ofZ (durationSec / 60) ++ Js.lit "m " ++ Js.ofZ (Z.rem durationSec 60)
         ++ Js.lit "s"
  else Js.ofZ durationSec ++ Js.lit "s".

(** The embed built for long turns. *)
Definition waiting_embed (ctx : Ctx) (duration : Z) : Embed :=
  {| title := Js.robot ++ Js.lit " pi is waiting for your input";
     description := None;
     color := 8141549;
     fields :=
       [ (Js.lit "Project", Js.backtick ++ basename node (cwd ctx) ++ Js.backtick);
         (Js.lit "Duration", durationStr duration) ];
     footer := Some (cwd ctx) |}.

(** The two posts at the end of the [agent_end] handler: the last answer
    as plain text, then the embed for longer turns. *)
Definition post_turn (ctx : Ctx) (thread : Channel)
    (lastMessage : option jsstring) (duration : Z) : M unit :=
  let* _ :=
    match lastMessage with
    | Some m =>
        if Js.truthy m then
          await_ignoring (ReqSend (ch_id thread) (PContent (truncateText m 1900)))
        else ret tt
    | None => ret tt
    end in
  let* cfg := gets config in
  match cfg with
  | None => throw TypeError
  | Some cfg =>
      if minDurationMs cfg <=? duration then
        await_ignoring (ReqSend (ch_id thread) (PEmbeds [waiting_embed ctx duration]))
      else ret tt
  end.

(** [event.messages ? extractLastAssistantText(event.messages) : null] *)
Definition lastMessage_of (messages : option (list AgentMessage))
    : option jsstring :=
  match messages with
  | Some ms => extractLastAssistantText ms
  | None => None
  end.

(** [pi.on("agent_end", ...)]; [messages] is [event.messages]. *)
Definition agent_end (messages : option (list AgentMessage)) (ctx : Ctx) : M unit :=
  let* _ := modify (set_isAgentBusy false) in
  let* _ := auto_rename ctx in
  let* active := gets (fun s => config_enabled s && bool_decide (is_Some (client s))) in
  if negb active then ret tt else
  let* duration := gets (fun s => clock s - agentStartTime s) in
  let lastMessage := lastMessage_of messages in
  let* thread := getOrCreateThread ctx None in
  match thread with
  | None => ret tt
  | Some thread => post_turn ctx thread lastMessage duration
  end.

(** [IMAGE_EXTENSIONS] *)
Definition IMAGE_EXTENSIONS : list jsstring :=
  [Js.lit ".png"; Js.lit ".jpg"; Js.lit ".jpeg"; Js.lit ".gif"; Js.lit ".webp"].

(** [isImagePath(filePath)] *)
Definition isImagePath (filePath : jsstring) : bool :=
  bool_decide (toLowerCase node (extname node filePath) ∈ IMAGE_EXTENSIONS).

(** The path of the file a read or write tool was called with, if any. *)
Definition tool_image_path (event : ToolResult) : option jsstring :=
  let has_path :=
    match input_path event with
    | Some p => Js.truthy p
    | None => false
    end in
  if (Js.eqb (toolName event) (Js.lit "Read") || Js.eqb (toolName event) (Js.lit "read"))
     && has_path
  then input_path event
  else if (Js.eqb (toolName event) (Js.lit "Write")
           || Js.eqb (toolName event) (Js.lit "write"))
          && has_path
  then input_path event
  else None.

Definition label_of (event : ToolResult) : jsstring :=
  if Js.eqb (toLowerCase node (toolName event)) (Js.lit "read")
  then Js.open_book ++ Js.lit " Reading"
  else Js.pencil ++ Js.lit " Wrote".

(** [pi.on("tool_result", ...)] *)
Definition tool_result (event : ToolResult) (ctx : Ctx) : M unit :=
  let* active := gets (fun s => config_enabled s && bool_decide (is_Some (client s))) in
  if negb active then ret tt else
  match tool_image_path event with
  | None => ret tt
  | Some imagePath =>
  if negb (isImagePath imagePath) then ret tt else
  let absPath :=
    if isAbsolute node imagePath then imagePath
    else resolve node (cwd ctx) imagePath in
  let* exists_ := gets (fun s => bool_decide (is_Some (fs_files s !! absPath))) in
  if negb exists_ then ret tt else
  try_catch
    (let* thread := getOrCreateThread ctx None in
     match thread with
     | None => ret tt
     | Some thread =>
         let* fileBuffer := gets (fun s => fs_files s !! absPath) in
         match fileBuffer with
         | None => throw (Js.lit "ENOENT")
         | Some fileBuffer =>
             let fileName := basename node absPath in
             await (ReqSend (ch_id thread)
               (PFiles (label_of event ++ Js.lit " " ++ Js.backtick ++ fileName
                          ++ Js.backtick)
                  fileName fileBuffer))
         end
     end)
    (fun _ => ret tt)
  end.

(** The [/discord-unmute] command, without its messages to the host's UI. *)
Definition discord_unmute : M unit :=
  let* threadId := gets (fun s => binding_of s (currentSessionFile s)) in
  match threadId with
  | None => ret tt
  | Some threadId =>
      let* isMuted := gets (fun s => bool_decide (threadId ∈ mutedThreads s)) in
      if negb isMuted then ret tt else
      let* _ := modify (fun s => set_mutedThreads (mutedThreads s ∖ {[threadId]}) s) in
      let* _ := saveMuted in
      let* c := gets client in
      match c with
      | Some _ =>
          try_catch
            (let* thread := channels_fetch threadId in
             match thread with
             | Some th =>
                 if isThread th then
                   await (ReqSend (ch_id th)
                     (PContent (Js.loud_speaker ++ Js.lit " Thread unmuted "
                        ++ Js.emdash ++ Js.lit " notifications resumed.")))
                 else ret tt
             | None => ret tt
             end)
            (fun _ => ret tt)
      | None => ret tt
      end
  end.

(** *** Sessions *)

Definition set_currentSessionFile (v : option jsstring) (s : State) : State :=
  {| config := config s; threads := threads s;
     mutedThreads := mutedThreads s; agentStartTime := agentStartTime s;
     client := client s; botUserId := botUserId s; isForum := isForum s;
     isAgentBusy := isAgentBusy s;
     lastKnownSessionName := lastKnownSessionName s;
     threadAutoNamed := threadAutoNamed s;
     watchedThreads := watchedThreads s;
     currentSessionFile := v;
     env_DISCORD_BOT_TOKEN := env_DISCORD_BOT_TOKEN s;
     pi_sessionName := pi_sessionName s; clock := clock s;
     file_threads := file_threads s; file_muted := file_muted s;
     fs_files := fs_files s; delivered := delivered s |}.

(** The three assignments at the head of the [session_start] and
    [session_switch] handlers. *)
Definition adopt_session (ctx : Ctx) : M unit :=
  let* _ := modify (set_currentSessionFile (getSessionKey ctx)) in
  let* name := gets pi_sessionName in
  let* _ := modify (set_lastKnownSessionName name) in
  modify (set_threadAutoNamed
            (match name with Some n => Js.truthy n | None => false end)).

(** [pi.on("session_switch", ...)] *)
Definition session_switch (ctx : Ctx) : M unit := adopt_session ctx.

(** [pi.on("session_start", ...)], without its calls of [ctx.ui]. *)
Definition session_start (ctx : Ctx) : M unit :=
  let* _ := adopt_session ctx in
  let* enabled := gets config_enabled in
  if enabled then
    let* _ := startBot in
    ret tt
  else ret tt.

(** [pi.on("session_shutdown", ...)] *)
Definition session_shutdown : M unit := stopBot.

(* ---------------------------------------------------------------- *)
(** ** Running a handler on its own *)

(** The platform and the host as seen by one handler that runs without
    any other handler in between: the settlement of the [n]-th awaited
    request. *)
Definition Oracle : Type := nat -> forall r : Request, Outcome (resp_ty r).

Fixpoint run_from {A} (env : Oracle) (n : nat) (r : Res A) : Run A :=
  match r with
  | Done a s => {| final := Returned a; last := s; trace := [] |}
  | Throw e s => {| final := Thrown e; last := s; trace := [] |}
  | Susp q s k =>
      let rest := run_from env (S n) (k (env n q) s) in
      {| final := final rest; last := last rest; trace := (q, s) :: trace rest |}
  end.

Definition run {A} (env : Oracle) (m : M A) (s : State) : Run A :=
  run_from env 0 (m s).

Definition requests {A} (r : Run A) : list Request := List.map fst (trace r).

(** [thread.send] and [channel.send]. *)
Definition is_send (r : Request) : bool :=
  match r with
  | ReqSend _ _ => true
  | _ => false
  end.

(* ---------------------------------------------------------------- *)
(** ** The event loop *)

(** The events the extension listens to: the two of the platform
    ([client.on]) and the six of the host ([pi.on]).  The commands
    ([pi.registerCommand]) are run by the user and are no events of the
    loop; those that are modelled are given on their own. *)
Inductive Event :=
| EvMessageCreate (message : Message)
| EvMessageReactionAdd (reaction : Reaction) (user : User)
| EvAgentStart
| EvAgentEnd (messages : option (list AgentMessage)) (ctx : Ctx)
| EvToolResult (event : ToolResult) (ctx : Ctx)
| EvSessionStart (ctx : Ctx)
| EvSessionSwitch (ctx : Ctx)
| EvSessionShutdown.

Definition handler (e : Event) : M unit :=
  match e with
  | EvMessageCreate m => messageCreate m
  | EvMessageReactionAdd r u => messageReactionAdd r u
  | EvAgentStart => agent_start
  | EvAgentEnd ms ctx => agent_end ms ctx
  | EvToolResult ev ctx => tool_result ev ctx
  | EvSessionStart ctx => session_start ctx
  | EvSessionSwitch ctx => session_switch ctx
  | EvSessionShutdown => session_shutdown
  end.

(** A suspended handler: the request it waits for and what it does next. *)
Record Task := {
  t_req : Request;
  t_k : Outcome (resp_ty t_req) -> State -> Res unit
}.

Record Loop := { st : State; pool : list Task }.

(** A handler ran until it ended or suspended. *)
Definition absorb (r : Res unit) (p : list Task) : Loop :=
  match r with
  | Done _ s => {| st := s; pool := p |}
  | Throw _ s => {| st := s; pool := p |}
  | Susp q s k => {| st := s; pool := p ++ [{| t_req := q; t_k := k |}] |}
  end.

(** One turn of the loop: the next event is dispatched to its handler, or
    the promise awaited by the [i]-th suspended handler settles. *)
Inductive Sched :=
| Dispatch (e : Event)
| Settle (i : nat) (answer : forall r : Request, Outcome (resp_ty r)).

Definition exec_step (l : Loop) (a : Sched) : Loop :=
  match a with
  | Dispatch e => absorb (handler e (st l)) (pool l)
  | Settle i answer =>
      match pool l !! i with
      | Some t => absorb (t_k t (answer (t_req t)) (st l)) (delete i (pool l))
      | None => l
      end
  end.

Definition exec (sched : list Sched) (l : Loop) : Loop :=
  fold_left exec_step sched l.

(** The ids of the platform messages of a schedule, in order of arrival. *)
Definition arrivals (sched : list Sched) : list jsstring :=
  omap (fun a =>
    match a with
    | Dispatch (EvMessageCreate m) => Some (msg_id m)
    | _ => None
    end) sched.

(** A message with neither a voice attachment nor an image attachment. *)
Definition plain_text (m : Message) : bool :=
  match voiceAttachment_of m with
  | Some _ => false
  | None =>
      match imageAttachments_of m with
      | [] => true
      | _ :: _ => false
      end
  end.

Definition plain_schedule (sched : list Sched) : bool :=
  forallb (fun a =>
    match a with
    | Dispatch (EvMessageCreate m) => plain_text m
    | _ => true
    end) sched.

(** The handler's four guards: a human wrote into a watched thread of the
    current session. *)
Definition accepted (s : State) (m : Message) : bool :=
  negb (author_bot m) && isThread (msg_channel m) &&
  match watchedThreads s !! ch_id (msg_channel m) with
  | Some sessionKey =>
      Js.truthy sessionKey && bool_decide (Some sessionKey = currentSessionFile s)
  | None => false
  end.

Definition mode_of (busy : bool) : DeliverAs :=
  if busy then FollowUp else Immediate.

(* ---------------------------------------------------------------- *)
(** ** Properties that hold of every stretch between two awaits *)

(** [segs E R Q P s0 r]: in [r], started in [s0], every stretch of code
    that runs without interruption takes the state it starts in to a state
    related to it by [R], every request that is awaited satisfies [Q], a
    value that is returned satisfies [P], and an exception escapes only if
    [E] holds -- whatever the awaited promises settle to and whatever the
    state is when the handler resumes. *)
Inductive segs (E : Prop) (R : State -> State -> Prop) (Q : Request -> Prop)
    {A} (P : A -> Prop) : State -> Res A -> Prop :=
| segs_done s0 a s : R s0 s -> P a -> segs E R Q P s0 (Done a s)
| segs_throw s0 e s : E -> R s0 s -> segs E R Q P s0 (Throw e s)
| segs_susp s0 q s k :
    R s0 s -> Q q -> (forall x s', segs E R Q P s' (k x s')) ->
    segs E R Q P s0 (Susp q s k).

Definition SegsE (E : Prop) (R : State -> State -> Prop) (Q : Request -> Prop)
    {A} (P : A -> Prop) (m : M A) : Prop :=
  forall s, segs E R Q P s (m s).

(** The same when exceptions may escape. *)
Abbreviation Segs := (SegsE True).

Definition any_request (r : Request) : Prop := True.

Definition any_change (s s' : State) : Prop := True.

Definition any_value {A} (a : A) : Prop := True.

(** The platform's ceilings as the code applies them: 100 for the name of
    a thread, 1900 for the text of a plain message posted to a thread.  (The
    line that accompanies an uploaded file and the echo of a transcription
    are replies of another kind, which the code does not truncate.) *)
Definition within_limits (r : Request) : Prop :=
  match r with
  | ReqCreateForumThread _ name (PContent c) => Js.len name <= 100 /\ Js.len c <= 1900
  | ReqCreateForumThread _ name _ => Js.len name <= 100
  | ReqCreateTextThread _ name _ => Js.len name <= 100
  | ReqSetName _ name => Js.len name <= 100
  | ReqSend _ (PContent c) => Js.len c <= 1900
  | _ => True
  end.

(** What the design asks of a truncation to [maxLen]. *)
Definition truncated_to (maxLen : Z) (text result : jsstring) : Prop :=
  Js.len result <= maxLen /\
  (Js.len text <= maxLen -> result = text) /\
  (maxLen < Js.len text ->
     exists p, p `prefix_of` text /\ result = p ++ Js.lit "...").

(** The calls of [sendUserMessage] so far are untouched. *)
Definition same_delivered (s s' : State) : Prop := delivered s' = delivered s.

(** Every call of [sendUserMessage] made in the stretch asks for the mode
    that fits the busy flag. *)
Definition busy_mode (s s' : State) : Prop :=
  isAgentBusy s' = isAgentBusy s /\
  exists ds, delivered s' = delivered s ++ ds /\
    Forall (fun d => deliverAs d = mode_of (isAgentBusy s)) ds.

(** The order of the calls of [sendUserMessage] follows the order of
    arrival: the calls made while [sched] runs come from messages of
    [sched], in the order in which those arrived. *)
Definition in_arrival_order (sched : list Sched) (l : Loop) : Prop :=
  exists ds,
    delivered (st (exec sched l)) = delivered (st l) ++ ds /\
    List.map origin ds `sublist_of` arrivals sched.

(** No suspended handler of the pool will call [sendUserMessage]. *)
Definition quiet_pool (p : list Task) : Prop :=
  Forall (fun t =>
    forall x s, segs True same_delivered any_request any_value s (t_k t x s)) p.

(** The turn a plain-text message leads to. *)
Definition text_turn (s : State) (m : Message) : list Delivery :=
  if accepted s m && Js.truthy (msg_content m)
  then [ {| origin := msg_id m; turn := UText (msg_content m);
            deliverAs := mode_of (isAgentBusy s) |} ]
  else [].

(** Nothing of the state changes. *)
Definition same_state (s s' : State) : Prop := s' = s.

(** The bindings, the muted set, the configuration and the connection are
    what they were. *)
Definition same_bindings (s s' : State) : Prop :=
  threads s' = threads s /\ mutedThreads s' = mutedThreads s /\
  config s' = config s /\ client s' = client s.

Definition no_send (r : Request) : Prop := is_send r = false.

(** The requests of the renaming block of the [agent_end] handler: asking
    the model for a name, fetching the thread, setting its name. *)
Definition renames_only (r : Request) : Prop :=
  match r with
  | ReqGenerateThreadName _ => True
  | ReqFetchChannel _ => True
  | ReqSetName _ _ => True
  | _ => False
  end.

(* ---------------------------------------------------------------- *)
(** ** A concrete session, for the examples *)

(** The segments of a POSIX path: what stands between its slashes, the
    empty ones left out. *)
Fixpoint split_slash (cur p : jsstring) : list jsstring :=
  match p with
  | [] => [cur]
  | c :: rest =>
      if (c =? 47)%N then cur :: split_slash [] rest
      else split_slash (cur ++ [c]) rest
  end.

Definition segments (p : jsstring) : list jsstring :=
  List.filter (fun seg => negb (Js.eqb seg [])) (split_slash [] p).

(** [path.posix.basename]: the last segment, trailing slashes ignored. *)
Definition posix_basename (p : jsstring) : jsstring :=
  default [] (list.last (segments p)).

Fixpoint from_last_dot (acc : option jsstring) (p : jsstring) : jsstring :=
  match p with
  | [] => match acc with Some e => e | None => [] end
  | c :: rest =>
      if (c =? 46)%N then from_last_dot (Some [c]) rest
      else from_last_dot (option_map (fun e => e ++ [c]) acc) rest
  end.

(** [path.posix.extname]: from the last dot of the base name on; a dot
    that opens the base name does not count, and [..] has no extension. *)
Definition posix_extname (p : jsstring) : jsstring :=
  match posix_basename p with
  | [] => []
  | c :: rest =>
      if Js.eqb (c :: rest) (Js.lit "..") then []
      else from_last_dot None rest
  end.

(** The segments once [.] and [..] are resolved. *)
Fixpoint normalize_segments (stack segs : list jsstring) : list jsstring :=
  match segs with
  | [] => stack
  | seg :: rest =>
      if Js.eqb seg (Js.lit ".") then normalize_segments stack rest
      else if Js.eqb seg (Js.lit "..")
      then normalize_segments (removelast stack) rest
      else normalize_segments (stack ++ [seg]) rest
  end.

(** [path.posix.resolve(dir, p)] for an absolute [dir]. *)
Definition posix_resolve (dir p : jsstring) : jsstring :=
  let full := if Js.startsWith p (Js.lit "/") then p else dir ++ Js.lit "/" ++ p in
  Js.lit "/" ++ Js.join (Js.lit "/") (normalize_segments [] (segments full)).

(** Lower case for the letters A-Z; the other code units are left as they
    are. *)
Definition ascii_lower (s : jsstring) : jsstring :=
  List.map (fun c => if ((65 <=? c) && (c <=? 90))%N then (c + 32)%N else c) s.

(** An instance of the library for the examples: POSIX paths, working
    directories that are absolute, names whose capital letters are ASCII. *)
Definition posix : Node :=
  {| basename := posix_basename;
     extname := posix_extname;
     isAbsolute := fun p => Js.startsWith p (Js.lit "/");
     resolve := posix_resolve;
     toLowerCase := ascii_lower |}.

(** The agent read the screenshot of the project. *)
Definition read_shot : ToolResult :=
  {| toolName := Js.lit "read"; input_path := Some (Js.lit "shot.png") |}.

Definition S1 : jsstring := Js.lit "/home/u/.pi/agent/sessions/s1.jsonl".
Definition T1 : jsstring := Js.lit "1001".
Definition T2 : jsstring := Js.lit "1002".

Definition ctx1 : Ctx :=
  {| cwd := Js.lit "/home/u/proj"; getSessionFile := Some S1 |}.

Definition config1 : DiscordConfig :=
  {| channelId := Js.lit "C1"; enabled := true; minDurationMs := 15000;
     includePreview := true |}.

Definition thread1 : Channel :=
  {| ch_id := T1; ch_type := PublicThread; ch_archived := false |}.

Definition thread2 : Channel :=
  {| ch_id := T2; ch_type := PublicThread; ch_archived := false |}.

Definition forum1 : Channel :=
  {| ch_id := Js.lit "C1"; ch_type := GuildForum; ch_archived := false |}.

(** Connected, session [S1] bound to thread [T1], the agent idle. *)
Definition state1 : State :=
  {| config := Some config1;
     threads := {[ S1 := T1 ]};
     mutedThreads := ∅;
     agentStartTime := 0;
     client := Some GatewayClient;
     botUserId := Some (Js.lit "42");
     isForum := true;
     isAgentBusy := false;
     lastKnownSessionName := None;
     threadAutoNamed := true;
     watchedThreads := {[ T1 := S1 ]};
     currentSessionFile := Some S1;
     env_DISCORD_BOT_TOKEN := Some (Js.lit "token");
     pi_sessionName := None;
     clock := 20000;
     file_threads := {[ S1 := T1 ]};
     file_muted := ∅;
     fs_files := {[ Js.lit "/home/u/proj/shot.png" := Js.lit "PNG" ]};
     delivered := [] |}.

(** The same with [T1] muted. *)
Definition state1_muted : State :=
  set_file_muted {[ T1 ]} (set_mutedThreads {[ T1 ]} state1).

(** Every promise resolves with a default value. *)
Definition resolve_all (r : Request) : Outcome (resp_ty r) :=
  match r as r0 return Outcome (resp_ty r0) with
  | ReqTranscribe _ => Resolved None
  | ReqDownloadImage _ => Resolved None
  | ReqLogin _ => Resolved (Some (Js.lit "42"))
  | ReqFetchChannel _ => Resolved None
  | ReqCreateForumThread _ _ _ => Resolved thread2
  | ReqCreateTextThread _ _ _ => Resolved thread2
  | ReqGenerateThreadName _ => Resolved None
  | ReqReact _ _ | ReqReply _ _ | ReqReactionFetch _ | ReqSend _ _
  | ReqSleep _ | ReqDeleteThread _ _ | ReqSetArchived _ _ | ReqSetName _ _
  | ReqDestroy => Resolved tt
  end.

(** Every promise rejects. *)
Definition reject_all (r : Request) : Outcome (resp_ty r) :=
  Rejected (Js.lit "failed").

(** The platform lets a thread be created in the configured channel: the
    channel is found, it is a forum or a text channel, creating a thread
    in it yields [fresh], and in a text channel the first embed can be
    posted to the new thread. *)
Definition creation_succeeds (env : Oracle) (cfg : DiscordConfig)
    (firstEmbed : option Embed) (fresh : Channel) : Prop :=
  exists channel,
    (forall n, env n (ReqFetchChannel (channelId cfg)) = Resolved (Some channel)) /\
    match ch_type channel with
    | GuildForum =>
        forall n name message,
          env n (ReqCreateForumThread (ch_id channel) name message) = Resolved fresh
    | GuildText =>
        (forall n name,
           env n (ReqCreateTextThread (ch_id channel) name 1440) = Resolved fresh) /\
        match firstEmbed with
        | Some e => forall n, env n (ReqSend (ch_id fresh) (PEmbeds [e])) = Resolved tt
        | None => True
        end
    | _ => False
    end.

Definition is_creation (r : Request) : bool :=
  match r with
  | ReqCreateForumThread _ _ _ | ReqCreateTextThread _ _ _ => true
  | _ => false
  end.

(** The platform answers as in [resolve_all], except that thread [T1] is
    gone and the configured channel is the forum [forum1]. *)
Definition env_T1_deleted : Oracle :=
  fun _ r =>
    match r as r0 return Outcome (resp_ty r0) with
    | ReqFetchChannel id =>
        if bool_decide (id = T1) then Rejected (Js.lit "Unknown Channel")
        else Resolved (Some forum1)
    | r0 => resolve_all r0
    end.

(** The replies of the voice branch. *)
Definition transcription_echo (t : jsstring) : jsstring :=
  Js.microphone ++ Js.lit " *" ++ Js.dquote ++ t ++ Js.dquote ++ Js.lit "*".

Definition transcription_error : jsstring :=
  Js.cross_mark ++ Js.lit " Failed to transcribe voice message".

(** The transcription yields no text: the pipeline rejects, or gives
    nothing, or gives the empty string. *)
Definition no_transcription (o : Outcome (option jsstring)) : Prop :=
  match o with
  | Resolved (Some t) => Js.truthy t = false
  | Resolved None => True
  | Rejected _ => True
  end.

(** The download of an image yields nothing. *)
Definition no_image (o : Outcome (option ImageData)) : Prop :=
  match o with
  | Resolved (Some _) => False
  | Resolved None => True
  | Rejected _ => True
  end.

Definition is_image_part (p : Part) : Prop :=
  match p with
  | ImagePart _ _ => True
  | TextPart _ => False
  end.

Definition is_reply (r : Request) : bool :=
  match r with
  | ReqReply _ _ => true
  | _ => false
  end.

(** The call of [sendUserMessage] the handler of [m] makes for [c] in
    state [s]. *)
Definition delivery_of (s : State) (m : Message) (c : UserContent) : Delivery :=
  {| origin := msg_id m; turn := c; deliverAs := mode_of (isAgentBusy s) |}.

Definition is_download (r : Request) : Prop :=
  exists u, r = ReqDownloadImage u.

(** A run that continues an earlier stretch with trace [tr]. *)
Definition after {A} (tr : list (Request * State)) (r : Run A) : Run A :=
  {| final := final r; last := last r; trace := tr ++ trace r |}.

(** Messages written by a human into thread [T1]. *)
Definition image_png : Attachment :=
  {| contentType := Some (Js.lit "image/png");
     url := Js.lit "https://cdn.example/a.png" |}.

Definition audio_ogg : Attachment :=
  {| contentType := Some (Js.lit "audio/ogg");
     url := Js.lit "https://cdn.example/v.ogg" |}.

Definition msg_text : Message :=
  {| msg_id := Js.lit "m-text"; author_bot := false; msg_channel := thread1;
     msg_content := Js.lit "run the tests"; flag_IsVoiceMessage := false;
     attachments := [] |}.

Definition msg_voice : Message :=
  {| msg_id := Js.lit "m-voice"; author_bot := false; msg_channel := thread1;
     msg_content := []; flag_IsVoiceMessage := true;
     attachments := [audio_ogg] |}.

Definition msg_look : Message :=
  {| msg_id := Js.lit "m-look"; author_bot := false; msg_channel := thread1;
     msg_content := Js.lit "look"; flag_IsVoiceMessage := false;
     attachments := [image_png] |}.

(** The platform answers as in [resolve_all], and the voice message is
    transcribed to "fix the build". *)
Definition env_transcribed : Oracle :=
  fun _ r =>
    match r as r0 return Outcome (resp_ty r0) with
    | ReqTranscribe _ => Resolved (Some (Js.lit "fix the build"))
    | r0 => resolve_all r0
    end.

Definition token_missing : jsstring :=
  Js.lit "DISCORD_BOT_TOKEN environment variable not set".

(** A login that resolved: the client holds an open gateway connection
    from then on. *)
Definition opens (q : Request) : Outcome (resp_ty q) -> bool :=
  match q with
  | ReqLogin _ =>
      fun o => match o with Resolved _ => true | Rejected _ => false end
  | _ => fun _ => false
  end.

(** The gateway connections that are open after the requests [qs], the
    first of which is the [n]-th of a run, when [open] of them were open
    before: a login that resolves opens one, [destroy] closes the one of
    the client it is called on.  Nothing else does: a [Client] that is
    logged in keeps its connection, and the listeners attached to it, for
    as long as it is not destroyed. *)
Fixpoint connections_from (env : Oracle) (n : nat) (qs : list Request)
    (open : nat) : nat :=
  match qs with
  | [] => open
  | q :: rest =>
      connections_from env (S n) rest
        (if opens q (env n q) then S open
         else match q with
              | ReqDestroy => Nat.pred open
              | _ => open
              end)
  end.

Definition connections {A} (env : Oracle) (r : Run A) (open : nat) : nat :=
  connections_from env 0 (requests r) open.

(** The platform refuses the login. *)
Definition env_login_refused : Oracle :=
  fun _ r =>
    match r as r0 return Outcome (resp_ty r0) with
    | ReqLogin _ => Rejected (Js.lit "An invalid token was provided.")
    | r0 => resolve_all r0
    end.

(** The platform answers as in [resolve_all], except that the configured
    channel cannot be fetched. *)
Definition env_channel_unknown : Oracle :=
  fun _ r =>
    match r as r0 return Outcome (resp_ty r0) with
    | ReqFetchChannel _ => Rejected (Js.lit "Unknown Channel")
    | r0 => resolve_all r0
    end.

(** [state1] before the bot is started. *)
Definition state1_offline : State := set_botUserId None (set_client None state1).

(** [state1] without the environment variable. *)
Definition state1_no_token : State :=
  {| config := config state1_offline; threads := threads state1_offline;
     mutedThreads := mutedThreads state1_offline;
     agentStartTime := agentStartTime state1_offline;
     client := client state1_offline; botUserId := botUserId state1_offline;
     isForum := isForum state1_offline;
     isAgentBusy := isAgentBusy state1_offline;
     lastKnownSessionName := lastKnownSessionName state1_offline;
     threadAutoNamed := threadAutoNamed state1_offline;
     watchedThreads := watchedThreads state1_offline;
     currentSessionFile := currentSessionFile state1_offline;
     env_DISCORD_BOT_TOKEN := None;
     pi_sessionName := pi_sessionName state1_offline;
     clock := clock state1_offline;
     file_threads := file_threads state1_offline;
     file_muted := file_muted state1_offline;
     fs_files := fs_files state1_offline;
     delivered := delivered state1_offline |}.

(** A reaction the handler acts on: the event is complete or can be
    completed, a human added it, in a watched thread. *)
Definition recognised (env : Oracle) (s : State) (reaction : Reaction)
    (user : User) (sessionKey : jsstring) : Prop :=
  (partial reaction = true ->
     env 0%nat (ReqReactionFetch (reaction_message reaction)) = Resolved tt) /\
  user_bot user = false /\
  isThread (reaction_channel reaction) = true /\
  watchedThreads s !! ch_id (reaction_channel reaction) = Some sessionKey /\
  Js.truthy sessionKey = true.

(** The state after the mute emoji on thread [threadId]. *)
Definition muted_state (threadId : jsstring) (s : State) : State :=
  set_file_muted ({[threadId]} ∪ mutedThreads s)
    (set_mutedThreads ({[threadId]} ∪ mutedThreads s) s).

(** The state after the mute+delete emoji on thread [threadId] of session
    [sessionKey]. *)
Definition muted_unbound_state (threadId sessionKey : jsstring) (s : State)
    : State :=
  set_file_threads (delete sessionKey (threads s))
    (set_threads (delete sessionKey (threads s))
       (set_watchedThreads (delete threadId (watchedThreads s))
          (muted_state threadId s))).

(** The requests of the mute+delete branch that follow the bookkeeping. *)
Definition is_farewell (r : Request) : bool :=
  match r with
  | ReqSend _ _ | ReqSleep _ | ReqDeleteThread _ _ => true
  | _ => false
  end.

Definition reaction_mute : Reaction :=
  {| partial := false; emoji_name := Some Js.muted_speaker;
     reaction_message := Js.lit "m-text"; reaction_channel := thread1 |}.

Definition reaction_delete : Reaction :=
  {| partial := false; emoji_name := Some Js.wastebasket;
     reaction_message := Js.lit "m-text"; reaction_channel := thread1 |}.

Definition human : User := {| user_bot := false |}.

(** The configuration, the connection and the start of the turn are what
    they were. *)
Definition same_settings (s s' : State) : Prop :=
  config s' = config s /\ client s' = client s /\
  agentStartTime s' = agentStartTime s.

Definition set_clock (v : Z) (s : State) : State :=
  {| config := config s; threads := threads s;
     mutedThreads := mutedThreads s; agentStartTime := agentStartTime s;
     client := client s; botUserId := botUserId s; isForum := isForum s;
     isAgentBusy := isAgentBusy s;
     lastKnownSessionName := lastKnownSessionName s;
     threadAutoNamed := threadAutoNamed s;
     watchedThreads := watchedThreads s;
     currentSessionFile := currentSessionFile s;
     env_DISCORD_BOT_TOKEN := env_DISCORD_BOT_TOKEN s;
     pi_sessionName := pi_sessionName s; clock := v;
     file_threads := file_threads s; file_muted := file_muted s;
     fs_files := fs_files s; delivered := delivered s |}.

(** Time passes while a handler waits: [now n] is what [Date.now()] reads
    once the [n]-th awaited promise has settled, until the next one
    settles. *)
Definition Clock : Type := nat -> Z.

(** A handler that runs without any other handler in between, while the
    clock goes on. *)
Fixpoint run_clocked_from {A} (env : Oracle) (now : Clock) (n : nat) (r : Res A)
    : Run A :=
  match r with
  | Done a s => {| final := Returned a; last := s; trace := [] |}
  | Throw e s => {| final := Thrown e; last := s; trace := [] |}
  | Susp q s k =>
      let rest :=
        run_clocked_from env now (S n) (k (env n q) (set_clock (now n) s)) in
      {| final := final rest; last := last rest; trace := (q, s) :: trace rest |}
  end.

Definition run_clocked {A} (env : Oracle) (now : Clock) (m : M A) (s : State)
    : Run A :=
  run_clocked_from env now 0 (m s).

(** The [agent_end] handler up to the end of its renaming block. *)
Definition renaming (env : Oracle) (now : Clock) (ctx : Ctx) (s : State)
    : Run unit :=
  run_clocked env now (auto_rename ctx) (set_isAgentBusy false s).

(** [Date.now() - agentStartTime] as the handler computes it, once the
    renaming block is through. *)
Definition measured (env : Oracle) (now : Clock) (ctx : Ctx) (s : State) : Z :=
  clock (last (renaming env now ctx s))
  - agentStartTime (last (renaming env now ctx s)).

(** The thread resolution of the [agent_end] handler, which follows. *)
Definition resolution (env : Oracle) (now : Clock) (ctx : Ctx) (s : State)
    : Run (option Channel) :=
  run_clocked_from env now (length (trace (renaming env now ctx s)))
    (getOrCreateThread ctx None (last (renaming env now ctx s))).

(** [event.messages] of a turn that ended with the answer "done". *)
Definition messages_done : option (list AgentMessage) :=
  Some [ {| role := Js.lit "user"; content := CString (Js.lit "go") |};
         {| role := Js.lit "assistant"; content := CString (Js.lit "done") |} ].

(** The platform answers as in [resolve_all], and every channel fetched is
    the thread [thread1]. *)
Definition env_T1_alive : Oracle :=
  fun _ r =>
    match r as r0 return Outcome (resp_ty r0) with
    | ReqFetchChannel _ => Resolved (Some thread1)
    | r0 => resolve_all r0
    end.

(** The loop at rest in [state1]. *)
Definition loop1 : Loop := {| st := state1; pool := [] |}.

Definition msg_text2 : Message :=
  {| msg_id := Js.lit "m-text2"; author_bot := false; msg_channel := thread1;
     msg_content := Js.lit "and commit"; flag_IsVoiceMessage := false;
     attachments := [] |}.

(** Two plain messages, the first while a turn is running, with the end of
    that turn and the settlement of its first promise in between. *)
Definition schedule_plain : list Sched :=
  [ Dispatch EvAgentStart;
    Dispatch (EvMessageCreate msg_text);
    Dispatch (EvAgentEnd messages_done ctx1);
    Settle 0 (env_T1_alive 0%nat);
    Dispatch (EvMessageCreate msg_text2) ].

(** A voice message, then a plain message that arrives while the voice
    message is still being handled, then the three promises the voice
    handler awaits (reaction, transcription, reply) settle. *)
Definition schedule_overtaking : list Sched :=
  [ Dispatch (EvMessageCreate msg_voice);
    Dispatch (EvMessageCreate msg_text);
    Settle 0 (env_transcribed 0%nat);
    Settle 0 (env_transcribed 0%nat);
    Settle 0 (env_transcribed 0%nat) ].

(** In [state1] with thread [T1] deleted on the platform, the binding of
    [S1] is stale and a new thread can be created. *)
Definition stale_binding_holds_at_T1 : Prop :=
  (forall n, env_T1_deleted n (ReqFetchChannel T1)
               = Rejected (Js.lit "Unknown Channel")) /\
  creation_succeeds env_T1_deleted config1 None thread2.

Definition env_all_resolved : Oracle := fun _ => resolve_all.

Definition env_all_rejected : Oracle := fun _ => reject_all.

(** [state1] before the first notification: connected, nothing bound. *)
Definition state0 : State :=
  set_file_threads ∅ (set_watchedThreads ∅ (set_threads ∅ state1)).

Definition hello : Embed :=
  {| title := Js.lit "Test notification from pi"; description := None;
     color := 3900150; fields := []; footer := None |}.

(* ---------------------------------------------------------------- *)
(** ** Sessions, and what holds along every schedule *)

(** The [/discord-rename] command, without its messages to the host's UI. *)
Definition discord_rename (args : jsstring) (ctx : Ctx) : M unit :=
  let* c := gets client in
  match c with
  | None => ret tt
  | Some _ =>
  let* bound := gets (fun s => binding_of s (currentSessionFile s)) in
  match bound with
  | None => ret tt
  | Some _ =>
  let name := trim args in
  let project := basename node (cwd ctx) in
  if Js.truthy name then
    let fullName := truncateText (project ++ dash ++ name) 100 in
    let* ok := renameCurrentThread fullName in
    if ok then modify (set_threadAutoNamed true) else ret tt
  else
    let* generated := generateThreadName ctx in
    match generated with
    | Some g =>
        if Js.truthy g then
          let fullName := truncateText (project ++ dash ++ g) 100 in
          let* ok := renameCurrentThread fullName in
          if ok then modify (set_threadAutoNamed true) else ret tt
        else ret tt
    | None => ret tt
    end
  end
  end.

(** Both files hold what the memory holds. *)
Definition persisted (s : State) : Prop :=
  file_threads s = threads s /\ file_muted s = mutedThreads s.

(** A stretch of code keeps an invariant. *)
Definition preserves (Inv : State -> Prop) (s s' : State) : Prop :=
  Inv s -> Inv s'.

(** Every suspended handler of the pool will go on in stretches related by
    [R]. *)
Definition pool_segs (R : State -> State -> Prop) (p : list Task) : Prop :=
  Forall (fun t =>
    forall x s, segs True R any_request any_value s (t_k t x s)) p.

(** Nothing is unmuted, and the configuration and the token stay what they
    are. *)
Definition never_undone (s s' : State) : Prop :=
  mutedThreads s ⊆ mutedThreads s' /\ config s' = config s /\
  env_DISCORD_BOT_TOKEN s' = env_DISCORD_BOT_TOKEN s.

Definition same_current (s s' : State) : Prop :=
  currentSessionFile s' = currentSessionFile s.

(** The current session as the session events of a schedule leave it. *)
Definition session_after (sched : list Sched) (current : option jsstring)
    : option jsstring :=
  fold_left (fun c a =>
    match a with
    | Dispatch (EvSessionStart ctx) => getSessionKey ctx
    | Dispatch (EvSessionSwitch ctx) => getSessionKey ctx
    | _ => c
    end) sched current.

(** The state once the three assignments at the head of a session handler
    are made. *)
Definition adopted (ctx : Ctx) (s : State) : State :=
  set_threadAutoNamed
    (match pi_sessionName s with Some n => Js.truthy n | None => false end)
    (set_lastKnownSessionName (pi_sessionName s)
       (set_currentSessionFile (getSessionKey ctx) s)).

(** A [session_start] or a [session_switch] is dispatched. *)
Definition is_session_event (a : Sched) : bool :=
  match a with
  | Dispatch (EvSessionStart _) => true
  | Dispatch (EvSessionSwitch _) => true
  | _ => false
  end.

(** The number of [session_start] and [session_switch] events of a
    schedule. *)
Definition session_events (sched : list Sched) : nat :=
  length (List.filter is_session_event sched).

Definition same_busy (s s' : State) : Prop := isAgentBusy s' = isAgentBusy s.

(** The busy flag as the turn events of a schedule leave it. *)
Definition busy_after (sched : list Sched) (busy : bool) : bool :=
  fold_left (fun b a =>
    match a with
    | Dispatch EvAgentStart => true
    | Dispatch (EvAgentEnd _ _) => false
    | _ => b
    end) sched busy.

Definition is_generation (r : Request) : bool :=
  match r with
  | ReqGenerateThreadName _ => true
  | _ => false
  end.

(** The stretch of code a turn of the loop runs, if any. *)
Definition step_res (l : Loop) (a : Sched) : option (Res unit) :=
  match a with
  | Dispatch e => Some (handler e (st l))
  | Settle i answer =>
      match pool l !! i with
      | Some t => Some (t_k t (answer (t_req t)) (st l))
      | None => None
      end
  end.

(** The stretch ends by asking the model for a thread name. *)
Definition asks_generation (r : option (Res unit)) : bool :=
  match r with
  | Some (Susp q _ _) => is_generation q
  | _ => false
  end.

(** The number of times a thread name is asked of the model while [sched]
    runs. *)
Fixpoint generations (sched : list Sched) (l : Loop) : nat :=
  match sched with
  | [] => 0
  | a :: rest =>
      ((if asks_generation (step_res l a) then 1 else 0)
       + generations rest (exec_step l a))%nat
  end.

(** The auto-naming flag is not cleared. *)
Definition flag_stays (s s' : State) : Prop :=
  threadAutoNamed s = true -> threadAutoNamed s' = true.

Definition no_generation (r : Request) : Prop := is_generation r = false.

(** A request that posts [embed]. *)
Definition carries (embed : Embed) (r : Request) : Prop :=
  match r with
  | ReqSend _ (PEmbeds [e]) => e = embed
  | ReqCreateForumThread _ _ (PEmbeds [e]) => e = embed
  | _ => False
  end.

(** Exactly one of the requests posts [embed]. *)
Definition posted_once (embed : Embed) (l : list Request) : Prop :=
  exists before q behind,
    l = before ++ q :: behind /\ carries embed q /\
    Forall (fun r => ~ carries embed r) before /\
    Forall (fun r => ~ carries embed r) behind.

(** A post of embeds. *)
Definition is_embed_post (r : Request) : bool :=
  match r with
  | ReqSend _ (PEmbeds _) => true
  | ReqCreateForumThread _ _ (PEmbeds _) => true
  | _ => false
  end.

(** The reaction is one of the two the handler knows. *)
Definition known_emoji (reaction : Reaction) : bool :=
  bool_decide (emoji_name reaction = Some Js.muted_speaker)
  || bool_decide (emoji_name reaction = Some Js.wastebasket).

(** A message a human wrote into thread [T2], which is not watched. *)
Definition msg_elsewhere : Message :=
  {| msg_id := Js.lit "m-else"; author_bot := false; msg_channel := thread2;
     msg_content := Js.lit "hello?"; flag_IsVoiceMessage := false;
     attachments := [] |}.

Definition reaction_thumbs_up : Reaction :=
  {| partial := true; emoji_name := Some [55357%N; 56397%N];
     reaction_message := Js.lit "m-text"; reaction_channel := thread1 |}.

(** Another session of the same project. *)
Definition S2 : jsstring := Js.lit "/home/u/.pi/agent/sessions/s2.jsonl".

Definition ctx2 : Ctx :=
  {| cwd := Js.lit "/home/u/proj"; getSessionFile := Some S2 |}.

(** [m], run in the state [h s], goes on in stretches related by [R], the
    first of which started in [s]: what is left to show of a handler once
    the updates [h] at the head of a stretch have been passed. *)
Definition SegsFrom (E : Prop) (R : State -> State -> Prop) (Q : Request -> Prop)
    {A} (P : A -> Prop) (h : State -> State) (m : M A) : Prop :=
  forall s, segs E R Q P s (m (h s)).

(** No suspended handler of the pool will ask the model for a thread name
    or clear the auto-naming flag. *)
Definition pool_calm (p : list Task) : Prop :=
  Forall (fun t =>
    forall x s, segs True flag_stays no_generation any_value s (t_k t x s)) p.

(** The current session and its auto-naming flag are what they were. *)
Definition same_session (s s' : State) : Prop :=
  currentSessionFile s' = currentSessionFile s /\
  threadAutoNamed s' = threadAutoNamed s.

(** [!!pi.getSessionName()] *)
Definition session_named (s : State) : bool :=
  match pi_sessionName s with
  | Some n => Js.truthy n
  | None => false
  end.

Definition no_embed_post (r : Request) : Prop := is_embed_post r = false.

Definition is_rename (r : Request) : bool :=
  match r with
  | ReqSetName _ _ => true
  | _ => false
  end.

(** The loop at rest in state [s]. *)
Definition at_rest (s : State) : Loop := {| st := s; pool := [] |}.

(** Thread [T1], archived. *)
Definition thread1_archived : Channel :=
  {| ch_id := T1; ch_type := PublicThread; ch_archived := true |}.

(** The platform answers as in [resolve_all], except that thread [T1] is
    archived and cannot be un-archived, and the configured channel is the
    forum [forum1]. *)
Definition env_unarchive_refused : Oracle :=
  fun _ r =>
    match r as r0 return Outcome (resp_ty r0) with
    | ReqFetchChannel id =>
        if bool_decide (id = T1) then Resolved (Some thread1_archived)
        else Resolved (Some forum1)
    | ReqSetArchived _ _ => Rejected (Js.lit "Missing Permissions")
    | r0 => resolve_all r0
    end.

(** [state1] ten seconds into a turn. *)
Definition state1_quick : State := set_agentStartTime 10000 state1.

(** [state1] in a session whose thread has no generated name yet. *)
Definition state1_unnamed : State := set_threadAutoNamed false state1.

(** The thread of the session is deleted by reaction, then a turn ends. *)
Definition schedule_delete : list Sched :=
  [ Dispatch (EvMessageReactionAdd reaction_delete human);
    Settle 0 (env_all_resolved 0%nat);
    Dispatch (EvAgentEnd messages_done ctx1) ].

(** Two turns end one after the other; the model gives no name. *)
Definition schedule_two_ends : list Sched :=
  [ Dispatch (EvAgentEnd messages_done ctx1);
    Settle 0 (env_T1_alive 0%nat);
    Dispatch (EvAgentEnd messages_done ctx1) ].

(** The files the tools work on are what they were. *)
Definition same_fs (s s' : State) : Prop := fs_files s' = fs_files s.

(** The [tool_result] handler with its thread resolution left open: what
    the handler does around any [resolveThread] in the place of
    [getOrCreateThread(ctx)]. *)
Definition tool_result_with (resolveThread : M (option Channel))
    (event : ToolResult) (ctx : Ctx) : M unit :=
  let* active := gets (fun s => config_enabled s && bool_decide (is_Some (client s))) in
  if negb active then ret tt else
  match tool_image_path event with
  | None => ret tt
  | Some imagePath =>
  if negb (isImagePath imagePath) then ret tt else
  let absPath :=
    if isAbsolute node imagePath then imagePath
    else resolve node (cwd ctx) imagePath in
  let* exists_ := gets (fun s => bool_decide (is_Some (fs_files s !! absPath))) in
  if negb exists_ then ret tt else
  try_catch
    (let* thread := resolveThread in
     match thread with
     | None => ret tt
     | Some thread =>
         let* fileBuffer := gets (fun s => fs_files s !! absPath) in
         match fileBuffer with
         | None => throw (Js.lit "ENOENT")
         | Some fileBuffer =>
             let fileName := basename node absPath in
             await (ReqSend (ch_id thread)
               (PFiles (label_of event ++ Js.lit " " ++ Js.backtick ++ fileName
                          ++ Js.backtick)
                  fileName fileBuffer))
         end
     end)
    (fun _ => ret tt)
  end.

(** What a thread resolution without a first embed asks of the platform:
    to fetch a channel, to un-archive a thread, to create a thread -- in a
    forum with the text that opens it. *)
Definition plain_resolution (q : Request) : Prop :=
  match q with
  | ReqFetchChannel _ => True
  | ReqSetArchived _ _ => True
  | ReqCreateTextThread _ _ _ => True
  | ReqCreateForumThread _ name message =>
      message = PContent (Js.robot ++ Js.lit " pi session started" ++ dash ++ name)
  | _ => False
  end.

(** The absolute path the [tool_result] handler reads an image from. *)
Definition absPath_of (ctx : Ctx) (imagePath : jsstring) : jsstring :=
  if isAbsolute node imagePath then imagePath
  else resolve node (cwd ctx) imagePath.

(** A context without a session file. *)
Definition ctx_ephemeral : Ctx :=
  {| cwd := Js.lit "/home/u/proj"; getSessionFile := None |}.

(** The platform answers as in [env_T1_alive], except that the name
    generation rejects: the key of the model cannot be had. *)
Definition env_naming_refused : Oracle :=
  fun _ r =>
    match r as r0 return Outcome (resp_ty r0) with
    | ReqGenerateThreadName _ => Rejected (Js.lit "No API key")
    | r0 => env_T1_alive 0%nat r0
    end.

(** The clock reads 20 s and stands still. *)
Definition at_20s : Clock := fun _ => 20000.

(** Every settlement takes three seconds from 14 s on. *)
Definition three_seconds_each : Clock := fun n => 17000 + 3000 * Z.of_nat n.

(** [state1_unnamed] at 14 s. *)
Definition state1_unnamed_14s : State := set_clock 14000 state1_unnamed.

(** The session is switched to [S2] and back to [S1], with a turn ending in
    each; the model gives no name. *)
Definition schedule_there_and_back : list Sched :=
  [ Dispatch (EvAgentEnd messages_done ctx1);
    Settle 0 (env_T1_alive 0%nat);
    Dispatch (EvSessionSwitch ctx2);
    Dispatch (EvSessionSwitch ctx1);
    Dispatch (EvAgentEnd messages_done ctx1) ].

(** The agent read a screenshot in a session without a thread. *)
Definition state1_unbound : State :=
  set_file_threads ∅ (set_watchedThreads ∅ (set_threads ∅ state1)).

(** The platform answers as in [resolve_all], and every channel fetched is
    the forum [forum1]. *)
Definition env_forum : Oracle :=
  fun _ r =>
    match r as r0 return Outcome (resp_ty r0) with
    | ReqFetchChannel _ => Resolved (Some forum1)
    | r0 => resolve_all r0
    end.

(* ---------------------------------------------------------------- *)
(** ** Lemmas on the combinators *)

Lemma bind_gets {A B} (f : State -> A) (k : A -> M B) s :
  bind (gets f) k s = k (f s) s.
Proof. reflexivity. Qed.

Lemma bind_modify {B} (f : State -> State) (k : unit -> M B) s :
  bind (modify f) k s = k tt (f s).
Proof. reflexivity. Qed.

Section Segments.

Context (E : Prop) (R : relation State) `{!PreOrder R} (Q : Request -> Prop).

Lemma segs_start {A} (P : A -> Prop) s0 s1 (r : Res A) :
  R s0 s1 -> segs E R Q P s1 r -> segs E R Q P s0 r.
Proof.
  intros H01 Hr. destruct Hr; constructor; try assumption;
    etransitivity; eassumption.
Qed.

Lemma Segs_ret {A} (P : A -> Prop) (a : A) : P a -> SegsE E R Q P (ret a).
Proof. intros Ha s. constructor; [reflexivity|assumption]. Qed.

Lemma Segs_throw {A} (P : A -> Prop) e : E -> SegsE E R Q P (throw e).
Proof. intros He s. constructor; [assumption|reflexivity]. Qed.

Lemma Segs_gets {A} (f : State -> A) : SegsE E R Q any_value (gets f).
Proof. intros s. constructor; [reflexivity|exact I]. Qed.

Lemma Segs_modify f : (forall s, R s (f s)) -> SegsE E R Q any_value (modify f).
Proof. intros Hf s. constructor; [apply Hf|exact I]. Qed.

Lemma Segs_await q : E -> Q q -> SegsE E R Q any_value (await q).
Proof.
  intros He Hq s. constructor; [reflexivity|assumption|].
  intros [a|e] s'; constructor; solve [reflexivity|exact I|assumption].
Qed.

Lemma segs_bind {A B} (P : A -> Prop) (P' : B -> Prop) s0 (r : Res A)
    (f : A -> M B) :
  segs E R Q P s0 r -> (forall a, P a -> SegsE E R Q P' (f a)) ->
  segs E R Q P' s0 (res_bind r f).
Proof.
  intros Hr Hf. induction Hr; simpl.
  - eapply segs_start; [eassumption|apply Hf; assumption].
  - constructor; assumption.
  - constructor; [assumption|assumption|]. intros x s'. auto.
Qed.

Lemma Segs_bind {A B} (P : A -> Prop) (P' : B -> Prop) (m : M A)
    (f : A -> M B) :
  SegsE E R Q P m -> (forall a, P a -> SegsE E R Q P' (f a)) ->
  SegsE E R Q P' (bind m f).
Proof. intros Hm Hf s. eapply segs_bind; eauto. Qed.

Lemma segs_catch {A} (P : A -> Prop) s0 (r : Res A) (h : jsstring -> M A) :
  segs True R Q P s0 r -> (forall e, SegsE E R Q P (h e)) ->
  segs E R Q P s0 (res_catch r h).
Proof.
  intros Hr Hh. induction Hr; simpl.
  - constructor; assumption.
  - eapply segs_start; [eassumption|apply Hh].
  - constructor; [assumption|assumption|]. intros x s'. auto.
Qed.

Lemma Segs_try_catch {A} (P : A -> Prop) (m : M A) (h : jsstring -> M A) :
  Segs R Q P m -> (forall e, SegsE E R Q P (h e)) ->
  SegsE E R Q P (try_catch m h).
Proof. intros Hm Hh s. apply segs_catch; auto. Qed.

Lemma Segs_any {A} (P : A -> Prop) (m : M A) :
  SegsE E R Q P m -> SegsE E R Q any_value m.
Proof.
  intros Hm s. specialize (Hm s). induction Hm; constructor; auto.
  exact I.
Qed.

End Segments.

Lemma Segs_await_ignoring (E : Prop) (R : relation State) `{!PreOrder R}
    (Q : Request -> Prop) q :
  Q q -> SegsE E R Q any_value (await_ignoring q).
Proof.
  intros Hq. apply Segs_try_catch; [assumption| |].
  - eapply Segs_bind; [assumption|apply Segs_await; [assumption|exact I|assumption]|].
    intros; apply Segs_ret; [assumption|exact I].
  - intros; apply Segs_ret; [assumption|exact I].
Qed.

Lemma Segs_post {A} (E : Prop) (R : relation State) (Q : Request -> Prop)
    (P P' : A -> Prop) (m : M A) :
  (forall a, P a -> P' a) -> SegsE E R Q P m -> SegsE E R Q P' m.
Proof.
  intros HP Hm s. specialize (Hm s). induction Hm; constructor; auto.
Qed.

Lemma Segs_weaken {A} (E E' : Prop) (R R' : relation State)
    (Q Q' : Request -> Prop) (P : A -> Prop) (m : M A) :
  (E -> E') -> (forall s s', R s s' -> R' s s') -> (forall q, Q q -> Q' q) ->
  SegsE E R Q P m -> SegsE E' R' Q' P m.
Proof.
  intros HE HR HQ Hm s. specialize (Hm s).
  induction Hm; constructor; auto.
Qed.

#[local] Instance same_delivered_preorder : PreOrder same_delivered.
Proof.
  split.
  - intros s. reflexivity.
  - intros s1 s2 s3 H12 H23. unfold same_delivered in *. congruence.
Qed.

#[local] Instance same_state_preorder : PreOrder same_state.
Proof.
  split.
  - intros s. reflexivity.
  - intros s1 s2 s3 H12 H23. unfold same_state in *. congruence.
Qed.

#[local] Instance busy_mode_preorder : PreOrder busy_mode.
Proof.
  split.
  - intros s. split; [reflexivity|]. exists []. split; [|constructor].
    symmetry. apply app_nil_r.
  - intros s1 s2 s3 [Hb12 (d12 & Hd12 & Hm12)] [Hb23 (d23 & Hd23 & Hm23)].
    split; [congruence|]. exists (d12 ++ d23). split.
    + rewrite Hd23, Hd12. symmetry. apply app_assoc.
    + apply Forall_app. split; [assumption|]. rewrite <- Hb12. assumption.
Qed.

#[local] Instance any_change_preorder : PreOrder any_change.
Proof. split; [intros s|intros s1 s2 s3 _ _]; exact I. Qed.

(** Goals [Segs R Q P m] are taken apart along the structure of [m]; what
    is left (the state updates against [R], the requests against [Q], the
    returned values against [P]) goes to [fin]. *)
Ltac segs_with fin :=
  repeat first
    [ assumption
    | match goal with
      | |- SegsE _ _ _ _ _ => solve [auto 2]
      end
    | match goal with
      | |- PreOrder _ => typeclasses eauto
      | |- True => exact I
      | |- any_value _ => exact I
      | |- any_request _ => exact I
      | |- any_change _ _ => exact I
      | |- forall _, _ => intros ?
      end
    | apply Segs_ret
    | apply Segs_throw
    | apply Segs_gets
    | match goal with
      | |- SegsE ?E ?R ?Q _ (await ?q) => apply (Segs_await E R Q q)
      end
    | apply Segs_await_ignoring
    | apply Segs_modify
    | eapply Segs_any; eassumption
    | eapply Segs_bind; [typeclasses eauto | solve [eauto 2] | cbv beta ]
    | apply Segs_bind with (P := any_value)
    | apply Segs_try_catch
    | match goal with
      | |- SegsE _ _ _ _ (match ?x with _ => _ end) => destruct x
      | |- SegsE _ _ _ _ (if ?b then _ else _) => destruct b
      | |- SegsE _ _ _ _ (let _ := _ in _) => cbv zeta
      end
    | solve [fin] ].

(* ---------------------------------------------------------------- *)
(** ** Truncation *)

Lemma len_app (a b : jsstring) : Js.len (a ++ b) = Js.len a + Js.len b.
Proof. unfold Js.len. rewrite length_app. lia. Qed.

Lemma slice_from_0 (text : jsstring) (e : Z) :
  0 <= e <= Js.len text -> Js.slice text 0 e = take (Z.to_nat e) text.
Proof.
  intros He. unfold Js.slice, Js.clamp.
  assert (Hl : 0 <= Js.len text) by (unfold Js.len; lia).
  replace (0 <? 0) with false by reflexivity.
  destruct (e <? 0) eqn:Hneg; [apply Z.ltb_lt in Hneg; lia|].
  rewrite (Z.min_l 0) by lia. rewrite (Z.min_l e) by lia.
  simpl. rewrite drop_0. f_equal. lia.
Qed.

Lemma truncateText_short (text : jsstring) (maxLen : Z) :
  Js.len text <= maxLen -> truncateText text maxLen = text.
Proof.
  intros H. unfold truncateText.
  destruct (Js.len text <=? maxLen) eqn:E; [reflexivity|].
  apply Z.leb_gt in E. lia.
Qed.

Lemma truncateText_long (text : jsstring) (maxLen : Z) :
  3 <= maxLen -> maxLen < Js.len text ->
  truncateText text maxLen = take (Z.to_nat (maxLen - 3)) text ++ Js.lit "..."
  /\ Js.len (truncateText text maxLen) = maxLen.
Proof.
  intros H3 Hlong. unfold truncateText.
  destruct (Js.len text <=? maxLen) eqn:E; [apply Z.leb_le in E; lia|].
  rewrite slice_from_0 by lia. split; [reflexivity|].
  rewrite len_app. unfold Js.len in *. rewrite length_take.
  change (length (Js.lit "...")) with 3%nat. lia.
Qed.

Lemma truncateText_len (text : jsstring) (maxLen : Z) :
  3 <= maxLen -> Js.len (truncateText text maxLen) <= maxLen.
Proof.
  intros H3. destruct (Z_le_gt_dec (Js.len text) maxLen) as [Hs|Hl].
  - rewrite truncateText_short; assumption.
  - destruct (truncateText_long text maxLen) as [_ ->]; lia.
Qed.

Lemma truncateText_truncated (maxLen : Z) (text : jsstring) :
  3 <= maxLen -> truncated_to maxLen text (truncateText text maxLen).
Proof.
  intros H3. split; [|split].
  - apply truncateText_len; assumption.
  - apply truncateText_short.
  - intros Hlong. exists (take (Z.to_nat (maxLen - 3)) text). split.
    + apply prefix_take.
    + apply truncateText_long; assumption.
Qed.

Section Limits.

Context (E : Prop) (R : relation State) `{!PreOrder R} (Q : Request -> Prop).

Lemma makeThreadName_limited ctx :
  SegsE E R Q (fun name => Js.len name <= 100) (makeThreadName ctx).
Proof.
  unfold makeThreadName.
  segs_with ltac:(apply truncateText_len; lia).
Qed.

End Limits.

Ltac limits :=
  first
    [ exact I
    | apply truncateText_len; lia
    | match goal with
      | |- within_limits _ =>
          repeat match goal with
            | |- context [match ?x with _ => _ end] => destruct x
            end;
          simpl; repeat split; try (apply truncateText_len; lia);
          unfold Js.len, dash in *; rewrite ?length_app; simpl; lia
      end ].

(* ---------------------------------------------------------------- *)
(** ** What each handler does between two awaits *)

Ltac quiet := first [ limits | reflexivity ].

Lemma pipe_busy_mode (Q : Request -> Prop) from c :
  Segs busy_mode Q any_value (pipe from c).
Proof.
  intros s. unfold pipe, try_catch, bind, gets, sendUserMessage, modify.
  simpl. destruct (isAgentBusy s) eqn:Hbusy; simpl;
    (constructor; [|exact I]); (split; [reflexivity|]);
    eexists; (split; [reflexivity|]); repeat constructor;
    simpl; rewrite Hbusy; reflexivity.
Qed.

Lemma download_images_busy_mode imageAttachments contentParts :
  Segs busy_mode within_limits any_value
    (download_images imageAttachments contentParts).
Proof.
  revert contentParts.
  induction imageAttachments as [|attachment rest IH]; intros contentParts;
    simpl; unfold downloadImageAsBase64; segs_with quiet.
Qed.

Lemma messageCreate_busy_mode message :
  Segs busy_mode within_limits any_value (messageCreate message).
Proof.
  pose proof (pipe_busy_mode within_limits).
  pose proof download_images_busy_mode.
  unfold messageCreate, forward_step, voice_step, transcribeVoiceMessage.
  segs_with quiet.
Qed.

Lemma messageReactionAdd_quiet reaction user :
  Segs same_delivered within_limits any_value (messageReactionAdd reaction user).
Proof.
  unfold messageReactionAdd, apply_reaction, saveMuted, saveThreads.
  segs_with quiet.
Qed.

Lemma agent_start_quiet :
  Segs same_delivered within_limits any_value agent_start.
Proof. unfold agent_start. segs_with quiet. Qed.

Lemma channels_fetch_quiet id :
  Segs same_delivered within_limits any_value (channels_fetch id).
Proof. unfold channels_fetch. segs_with quiet. Qed.

Lemma renameCurrentThread_quiet name :
  Segs same_delivered within_limits any_value (renameCurrentThread name).
Proof.
  pose proof channels_fetch_quiet.
  unfold renameCurrentThread. segs_with quiet.
Qed.

Lemma create_thread_quiet sessionKey threadName firstEmbed :
  Js.len threadName <= 100 ->
  Segs same_delivered within_limits any_value
    (create_thread sessionKey threadName firstEmbed).
Proof.
  intros Hname. unfold create_thread, saveThreads. segs_with quiet.
Qed.

Lemma getOrCreateThread_quiet ctx firstEmbed :
  Segs same_delivered within_limits any_value (getOrCreateThread ctx firstEmbed).
Proof.
  pose proof channels_fetch_quiet.
  pose proof create_thread_quiet.
  pose proof (makeThreadName_limited True same_delivered within_limits).
  unfold getOrCreateThread, try_existing, saveThreads. segs_with quiet.
Qed.

Lemma notify_quiet embed ctx :
  Segs same_delivered within_limits any_value (notify embed ctx).
Proof.
  pose proof getOrCreateThread_quiet.
  unfold notify. segs_with quiet.
Qed.

Lemma tool_result_quiet event ctx :
  Segs same_delivered within_limits any_value (tool_result event ctx).
Proof.
  pose proof getOrCreateThread_quiet.
  unfold tool_result. segs_with quiet.
Qed.

Lemma startBot_quiet :
  Segs same_delivered within_limits any_value startBot.
Proof. unfold startBot, getBotToken. segs_with quiet. Qed.

Lemma session_start_quiet ctx :
  Segs same_delivered within_limits any_value (session_start ctx).
Proof.
  pose proof startBot_quiet.
  unfold session_start, adopt_session. segs_with quiet.
Qed.

Lemma session_switch_quiet ctx :
  Segs same_delivered within_limits any_value (session_switch ctx).
Proof. unfold session_switch, adopt_session. segs_with quiet. Qed.

Lemma session_shutdown_quiet :
  Segs same_delivered within_limits any_value session_shutdown.
Proof. unfold session_shutdown, stopBot. segs_with quiet. Qed.

Lemma agent_end_quiet messages ctx :
  Segs same_delivered within_limits any_value (agent_end messages ctx).
Proof.
  pose proof getOrCreateThread_quiet.
  pose proof renameCurrentThread_quiet.
  pose proof (makeThreadName_limited True same_delivered within_limits).
  unfold agent_end, post_turn, auto_rename, generateThreadName.
  segs_with quiet.
Qed.

(* ---------------------------------------------------------------- *)
(** ** Order of delivery *)

Lemma messageCreate_plain m s :
  plain_text m = true ->
  messageCreate m s =
    Done tt (set_delivered (delivered s ++ text_turn s m) s) \/
  messageCreate m s = Done tt s /\ text_turn s m = [].
Proof.
  unfold plain_text, text_turn, accepted, messageCreate, forward_step.
  intros Hplain.
  destruct (author_bot m); [right; split; reflexivity|].
  destruct (isThread (msg_channel m)); [|right; split; reflexivity].
  unfold bind, gets, ret. simpl.
  destruct (watchedThreads s !! ch_id (msg_channel m)) as [sessionKey|];
    [|right; split; reflexivity].
  simpl. destruct (Js.truthy sessionKey); [|right; split; reflexivity].
  simpl. destruct (bool_decide (Some sessionKey = currentSessionFile s));
    [|right; split; reflexivity].
  simpl.
  destruct (voiceAttachment_of m); [discriminate|].
  destruct (imageAttachments_of m); [|discriminate].
  simpl. destruct (Js.truthy (msg_content m)); [|right; split; reflexivity].
  left. unfold pipe, try_catch, bind, gets, sendUserMessage, modify, mode_of.
  simpl. destruct (isAgentBusy s); reflexivity.
Qed.

Lemma absorb_quiet (r : Res unit) s0 p :
  segs True same_delivered any_request any_value s0 r -> quiet_pool p ->
  delivered (st (absorb r p)) = delivered s0 /\ quiet_pool (pool (absorb r p)).
Proof.
  intros Hr Hp. destruct Hr; simpl; split; try assumption.
  apply Forall_app. split; [assumption|]. constructor; [|constructor].
  simpl. assumption.
Qed.

Lemma handler_quiet e :
  (forall m, e <> EvMessageCreate m) ->
  Segs same_delivered any_request any_value (handler e).
Proof.
  intros He.
  apply Segs_weaken with (E := True) (R := same_delivered) (Q := within_limits);
    [auto|auto|intros; exact I|].
  destruct e; simpl.
  - exfalso. eapply He. reflexivity.
  - apply messageReactionAdd_quiet.
  - apply agent_start_quiet.
  - apply agent_end_quiet.
  - apply tool_result_quiet.
  - apply session_start_quiet.
  - apply session_switch_quiet.
  - apply session_shutdown_quiet.
Qed.

Lemma exec_step_order l a :
  plain_schedule [a] = true -> quiet_pool (pool l) ->
  quiet_pool (pool (exec_step l a)) /\
  exists ds,
    delivered (st (exec_step l a)) = delivered (st l) ++ ds /\
    List.map origin ds `sublist_of` arrivals [a].
Proof.
  intros Hplain Hpool. destruct a as [e|i answer].
  - destruct e as [m|reaction user| |messages ctx|event ctx|ctx|ctx|].
    2-8: match goal with
         | |- context [exec_step ?l0 (Dispatch ?e)] =>
             destruct (absorb_quiet (handler e (st l0)) (st l0) (pool l0))
               as [Hd Hq]; [apply handler_quiet; discriminate|assumption|]
         end;
         (split; [exact Hq|]); exists []; (split; [|apply sublist_nil_l]);
         rewrite app_nil_r; exact Hd.
    simpl in Hplain. rewrite andb_true_r in Hplain.
    simpl. destruct (messageCreate_plain m (st l) Hplain) as [->|[-> Hnone]];
      simpl.
    + split; [assumption|]. eexists. split; [reflexivity|].
      unfold text_turn. destruct (_ && _); simpl.
      * reflexivity.
      * apply sublist_nil_l.
    + split; [assumption|]. exists []. split.
      * symmetry. apply app_nil_r.
      * apply sublist_nil_l.
  - simpl. destruct (pool l !! i) as [t|] eqn:Hi.
    + assert (Ht : forall x s,
                segs True same_delivered any_request any_value s (t_k t x s)).
      { unfold quiet_pool in Hpool. rewrite Forall_lookup in Hpool.
        exact (Hpool i t Hi). }
      destruct (absorb_quiet (t_k t (answer (t_req t)) (st l)) (st l)
                  (delete i (pool l))) as [Hd Hq].
      * apply Ht.
      * unfold quiet_pool in *. rewrite delete_take_drop.
        apply Forall_app. split; [apply Forall_take|apply Forall_drop];
          exact Hpool.
      * split; [exact Hq|]. exists []. split; [|apply sublist_nil_l].
        rewrite app_nil_r. exact Hd.
    + split; [assumption|]. exists []. split; [|apply sublist_nil_l].
      symmetry. apply app_nil_r.
Qed.

Lemma arrivals_cons a sched : arrivals (a :: sched) = arrivals [a] ++ arrivals sched.
Proof. unfold arrivals. simpl. destruct a as [[]|]; reflexivity. Qed.

Lemma exec_order sched :
  forall l, plain_schedule sched = true -> quiet_pool (pool l) ->
  in_arrival_order sched l.
Proof.
  unfold in_arrival_order.
  induction sched as [|a sched IH]; intros l Hplain Hpool.
  - exists []. split; [symmetry; apply app_nil_r|constructor].
  - assert (Ha : plain_schedule [a] = true /\ plain_schedule sched = true).
    { unfold plain_schedule in *. simpl in *.
      apply andb_true_iff in Hplain. destruct Hplain as [H1 H2].
      rewrite H1. split; [reflexivity|exact H2]. }
    destruct Ha as [Ha Hrest].
    destruct (exec_step_order l a Ha Hpool) as [Hq (d1 & Hd1 & Hs1)].
    destruct (IH (exec_step l a) Hrest Hq) as (d2 & Hd2 & Hs2).
    exists (d1 ++ d2). split.
    + change (exec (a :: sched) l) with (exec sched (exec_step l a)).
      rewrite Hd2, Hd1. symmetry. apply app_assoc.
    + rewrite arrivals_cons, map_app. apply sublist_app; assumption.
Qed.

(** C1 (amended).  Every call of [sendUserMessage] the message handler
    makes asks for follow-up delivery exactly when [isAgentBusy] is set at
    that moment and for immediate delivery otherwise, under any
    interleaving with other handlers.  A message without voice and image
    attachments is handled without suspension, so its turn is handed over
    at the moment of arrival; hence, for any schedule of the event loop
    whose messages are all of that kind -- with reactions, agent starts and
    agent ends, and the settlements of what they await, interleaved at
    will -- the turns are handed over in the order of arrival. *)
Theorem delivery_mode_and_plain_text_order (sched : list Sched) (l : Loop) :
  plain_schedule sched = true ->
  pool l = [] ->
  (forall m, Segs busy_mode any_request any_value (messageCreate m)) /\
  (forall m s, plain_text m = true ->
     exists s', messageCreate m s = Done tt s' /\
                delivered s' = delivered s ++ text_turn s m) /\
  in_arrival_order sched l.
Proof.
  intros Hplain Hpool. split; [|split].
  - intros m.
    apply Segs_weaken with (E := True) (R := busy_mode) (Q := within_limits);
      [auto|auto|intros; exact I|apply messageCreate_busy_mode].
  - intros m s Hm. destruct (messageCreate_plain m s Hm) as [->|[-> ->]].
    + eexists. split; reflexivity.
    + exists s. split; [reflexivity|]. symmetry. apply app_nil_r.
  - apply exec_order; [assumption|]. rewrite Hpool. constructor.
Qed.

(** C9.  [truncateText] to 100 (thread names) and to 1900 (mirrored
    message bodies) returns a text within the limit unchanged and replaces
    a longer one by a prefix of it followed by three dots, the result never
    exceeding the limit; [makeThreadName] always passes its name through
    the truncation to 100; and in every handler, in [notify] and in
    [renameCurrentThread], every thread name handed to the platform has at
    most 100 code units and every plain text message posted to a thread at
    most 1900. *)
Theorem truncation_keeps_platform_limits :
  (forall text, truncated_to 100 text (truncateText text 100)) /\
  (forall text, truncated_to 1900 text (truncateText text 1900)) /\
  (forall ctx s, exists full, makeThreadName ctx s = Done (truncateText full 100) s) /\
  (forall e, Segs any_change within_limits any_value (handler e)) /\
  (forall embed ctx, Segs any_change within_limits any_value (notify embed ctx)) /\
  (forall name, Segs any_change within_limits any_value (renameCurrentThread name)).
Proof.
  repeat split.
  - apply truncateText_len; lia.
  - apply truncateText_short.
  - apply truncateText_truncated; lia.
  - apply truncateText_len; lia.
  - apply truncateText_short.
  - apply truncateText_truncated; lia.
  - intros ctx s. unfold makeThreadName, bind, gets, ret. simpl.
    destruct (pi_sessionName s) as [n|]; [destruct (Js.truthy n)|];
      eexists; reflexivity.
  - intros e. destruct e; simpl.
    + eapply Segs_weaken; [| | |apply messageCreate_busy_mode]; auto.
      intros; exact I.
    + eapply Segs_weaken; [| | |apply messageReactionAdd_quiet]; auto.
      intros; exact I.
    + eapply Segs_weaken; [| | |apply agent_start_quiet]; auto.
      intros; exact I.
    + eapply Segs_weaken; [| | |apply agent_end_quiet]; auto.
      intros; exact I.
    + eapply Segs_weaken; [| | |apply tool_result_quiet]; auto.
      intros; exact I.
    + eapply Segs_weaken; [| | |apply session_start_quiet]; auto.
      intros; exact I.
    + eapply Segs_weaken; [| | |apply session_switch_quiet]; auto.
      intros; exact I.
    + eapply Segs_weaken; [| | |apply session_shutdown_quiet]; auto.
      intros; exact I.
  - intros embed ctx.
    eapply Segs_weaken; [| | |apply notify_quiet]; auto. intros; exact I.
  - intros name.
    eapply Segs_weaken; [| | |apply renameCurrentThread_quiet]; auto.
    intros; exact I.
Qed.

(* ---------------------------------------------------------------- *)
(** ** A handler that runs on its own *)

Lemma run_from_bind {A B} env (r : Res A) (f : A -> M B) :
  forall n,
  run_from env n (res_bind r f) =
    match final (run_from env n r) with
    | Returned a =>
        after (trace (run_from env n r))
          (run_from env (n + length (trace (run_from env n r)))
             (f a (last (run_from env n r))))
    | Thrown e =>
        {| final := Thrown e; last := last (run_from env n r);
           trace := trace (run_from env n r) |}
    end.
Proof.
  induction r as [a s|e s|q s k IH]; intros n; simpl.
  - rewrite Nat.add_0_r. destruct (run_from env n (f a s)); reflexivity.
  - reflexivity.
  - rewrite IH. simpl.
    destruct (final (run_from env (S n) (k (env n q) s))); simpl.
    + rewrite <- plus_n_Sm. reflexivity.
    + reflexivity.
Qed.

(** What holds of every stretch under any interleaving holds of the run
    without interleaving. *)
Lemma run_from_segs {A} E (R : relation State) `{!PreOrder R} Q (P : A -> Prop)
    env (r : Res A) s0 :
  segs E R Q P s0 r ->
  forall n,
  R s0 (last (run_from env n r)) /\
  Forall Q (requests (run_from env n r)) /\
  (forall a, final (run_from env n r) = Returned a -> P a) /\
  (forall e, final (run_from env n r) = Thrown e -> E).
Proof.
  intros Hr. induction Hr as [s0 a s HR HP|s0 e s HE HR|s0 q s k HR HQ Hk IH];
    intros n; simpl.
  - repeat split; [assumption|constructor| |].
    + intros a' [= <-]. assumption.
    + intros e [=].
  - repeat split; [assumption|constructor| |].
    + intros a' [=].
    + intros e' _. assumption.
  - destruct (IH (env n q) s (S n)) as (Hl & Hq & Hf & He).
    repeat split.
    + etransitivity; eassumption.
    + unfold requests. simpl. constructor; assumption.
    + assumption.
    + assumption.
Qed.

(* ---------------------------------------------------------------- *)
(** ** Thread resolution *)

#[local] Instance same_bindings_preorder : PreOrder same_bindings.
Proof.
  split.
  - intros s. repeat split.
  - intros s1 s2 s3 (H1 & H2 & H3 & H4) (H1' & H2' & H3' & H4').
    unfold same_bindings. repeat split; congruence.
Qed.

Lemma binding_of_Some s sk tid :
  Js.truthy sk = true -> threads s !! sk = Some tid -> Js.truthy tid = true ->
  binding_of s (Some sk) = Some tid.
Proof. intros Hsk Hb Ht. unfold binding_of. rewrite Hsk, Hb, Ht. reflexivity. Qed.

Lemma getOrCreateThread_muted ctx firstEmbed s sk tid :
  getSessionFile ctx = Some sk -> Js.truthy sk = true ->
  threads s !! sk = Some tid -> Js.truthy tid = true ->
  tid ∈ mutedThreads s ->
  getOrCreateThread ctx firstEmbed s = Done None s.
Proof.
  intros Hctx Hsk Hb Ht Hm. unfold getOrCreateThread, bind, gets, ret. simpl.
  destruct (client s); [|reflexivity]. destruct (config s); [|reflexivity].
  simpl. unfold getSessionKey. rewrite Hctx.
  rewrite (binding_of_Some s sk tid) by assumption.
  rewrite bool_decide_eq_true_2 by assumption. reflexivity.
Qed.

Ltac keeps :=
  first [ exact I | reflexivity | solve [repeat split] ].

Lemma channels_fetch_keeps id :
  Segs same_bindings renames_only any_value (channels_fetch id).
Proof. unfold channels_fetch. segs_with keeps. Qed.

Lemma makeThreadName_keeps ctx :
  Segs same_bindings renames_only any_value (makeThreadName ctx).
Proof.
  eapply Segs_any. apply (makeThreadName_limited True same_bindings renames_only).
Qed.

Lemma auto_rename_keeps ctx :
  Segs same_bindings renames_only any_value (auto_rename ctx).
Proof.
  pose proof channels_fetch_keeps. pose proof makeThreadName_keeps.
  unfold auto_rename, renameCurrentThread, generateThreadName.
  segs_with keeps.
Qed.

Lemma agent_end_muted ctx messages env s sk tid :
  getSessionFile ctx = Some sk -> Js.truthy sk = true ->
  threads s !! sk = Some tid -> Js.truthy tid = true ->
  tid ∈ mutedThreads s ->
  Forall renames_only (requests (run env (agent_end messages ctx) s)).
Proof.
  intros Hctx Hsk Hb Ht Hm. unfold run, agent_end.
  unfold bind at 1. unfold modify at 1. simpl res_bind.
  unfold bind at 1. rewrite run_from_bind.
  set (s1 := set_isAgentBusy false s).
  destruct (run_from_segs True same_bindings renames_only any_value env
              (auto_rename ctx s1) s1 (auto_rename_keeps ctx s1) 0%nat)
    as ((Hth & Hmu & Hcf & Hcl) & Hreq & _).
  destruct (final (run_from env 0 (auto_rename ctx s1))) as [[]|e].
  - unfold requests, after. simpl trace. rewrite map_app. apply Forall_app.
    split; [exact Hreq|].
    set (s2 := last (run_from env 0 (auto_rename ctx s1))) in *.
    unfold bind, gets. simpl res_bind.
    destruct (negb _); [constructor|].
    simpl res_bind.
    rewrite (getOrCreateThread_muted ctx None s2 sk tid); try assumption.
    + simpl. constructor.
    + rewrite Hth. exact Hb.
    + rewrite Hmu. exact Hm.
  - exact Hreq.
Qed.

Lemma tool_result_muted event ctx s sk tid :
  getSessionFile ctx = Some sk -> Js.truthy sk = true ->
  threads s !! sk = Some tid -> Js.truthy tid = true ->
  tid ∈ mutedThreads s ->
  tool_result event ctx s = Done tt s.
Proof.
  intros Hctx Hsk Hb Ht Hm. unfold tool_result. rewrite bind_gets.
  destruct (negb _); [reflexivity|].
  destruct (tool_image_path event) as [imagePath|]; [|reflexivity].
  destruct (negb (isImagePath imagePath)); [reflexivity|].
  cbv zeta. rewrite bind_gets. destruct (negb _); [reflexivity|].
  unfold try_catch, bind.
  rewrite (getOrCreateThread_muted ctx None s sk tid) by assumption.
  reflexivity.
Qed.

(** C3 (amended).  When the session's binding holds a thread id that is in
    the muted set, [getOrCreateThread] returns [null] at once: it awaits
    nothing (no fetch, no creation) and leaves the state as it is.  Hence
    the three paths that post through it post nothing for that session:
    [notify] returns [false] and the [tool_result] handler ends, both
    without any request, and the only requests the [agent_end] handler
    makes are those of its renaming block -- the name asked of the model,
    the thread fetched, its name set.  (The listeners do not consult the
    muted set: what they send into a muted thread is not part of this
    statement.) *)
Theorem muted_thread_is_not_resolved ctx s sk tid :
  getSessionFile ctx = Some sk -> Js.truthy sk = true ->
  threads s !! sk = Some tid -> Js.truthy tid = true ->
  tid ∈ mutedThreads s ->
  (forall firstEmbed, getOrCreateThread ctx firstEmbed s = Done None s) /\
  (forall embed, notify embed ctx s = Done false s) /\
  (forall event, tool_result event ctx s = Done tt s) /\
  (forall env messages,
     Forall renames_only (requests (run env (agent_end messages ctx) s))).
Proof.
  intros Hctx Hsk Hb Ht Hm. split; [|split; [|split]].
  - intros firstEmbed. eapply getOrCreateThread_muted; eassumption.
  - intros embed. unfold notify, bind, gets, ret. simpl.
    destruct (client s) eqn:Hc; [|reflexivity].
    destruct (config s) eqn:Hcfg; [|reflexivity].
    simpl. unfold getSessionKey. rewrite Hctx.
    rewrite (binding_of_Some s sk tid) by assumption.
    rewrite (getOrCreateThread_muted ctx None s sk tid) by assumption.
    reflexivity.
  - intros event. eapply tool_result_muted; eassumption.
  - intros env messages. eapply agent_end_muted; eassumption.
Qed.

(** The state once the stale binding is evicted and the map is saved. *)
Lemma stale_run ctx firstEmbed env s c cfg sk stale err fresh :
  client s = Some c -> config s = Some cfg ->
  getSessionFile ctx = Some sk -> Js.truthy sk = true ->
  threads s !! sk = Some stale -> Js.truthy stale = true ->
  stale ∉ mutedThreads s ->
  (forall n, env n (ReqFetchChannel stale) = Rejected err) ->
  creation_succeeds env cfg firstEmbed fresh ->
  let s1 :=
    set_file_threads (delete sk (threads s))
      (set_watchedThreads (delete stale (watchedThreads s))
         (set_threads (delete sk (threads s)) s)) in
  let s2 :=
    set_file_threads (<[sk := ch_id fresh]> (delete sk (threads s)))
      (set_watchedThreads (<[ch_id fresh := sk]> (delete stale (watchedThreads s)))
         (set_threads (<[sk := ch_id fresh]> (delete sk (threads s))) s1)) in
  exists tr,
    run env (getOrCreateThread ctx firstEmbed) s =
      {| final := Returned (Some fresh); last := s2;
         trace := (ReqFetchChannel stale, s) :: tr |} /\
    Exists (fun p => is_creation (fst p) = true) tr /\
    Forall (fun p => snd p = s1) tr.
Proof.
  intros Hc Hcfg Hctx Hsk Hb Ht Hm Hfetch (channel & Hchan & Hcreate) s1 s2.
  unfold run, getOrCreateThread, bind, gets, ret. simpl.
  rewrite Hc, Hcfg. simpl. unfold getSessionKey. rewrite Hctx.
  rewrite (binding_of_Some s sk stale) by assumption.
  rewrite bool_decide_eq_false_2 by assumption. simpl.
  unfold try_existing, try_catch, channels_fetch, bind, gets. simpl.
  rewrite Hc. simpl. rewrite Hfetch. simpl. rewrite Hsk. simpl.
  fold s1.
  assert (Hname : exists name, makeThreadName ctx s1 = Done name s1).
  { unfold makeThreadName, bind, gets, ret. simpl.
    destruct (pi_sessionName s) as [n|]; [destruct (Js.truthy n)|];
      eexists; reflexivity. }
  destruct Hname as [name ->]. simpl.
  unfold create_thread, try_catch, bind, gets. simpl.
  rewrite Hc, Hcfg. simpl. rewrite Hchan. simpl.
  destruct (ch_type channel); try contradiction.
  - destruct Hcreate as [Hcreate Hsend]. simpl. rewrite Hcreate. simpl.
    destruct firstEmbed as [e|]; simpl.
    + rewrite Hsend. simpl. rewrite Hsk. simpl.
      eexists. split; [reflexivity|]. split; [|repeat constructor].
      apply Exists_cons_tl, Exists_cons_hd. reflexivity.
    + rewrite Hsk. simpl. eexists. split; [reflexivity|].
      split; [|repeat constructor].
      apply Exists_cons_tl, Exists_cons_hd. reflexivity.
  - simpl. rewrite Hcreate. simpl. rewrite Hsk. simpl.
    eexists. split; [reflexivity|]. split; [|repeat constructor].
    apply Exists_cons_tl, Exists_cons_hd. reflexivity.
Qed.

(** C4.  When the session's binding holds a thread id that is not muted
    and whose fetch fails, and the platform lets a thread be created, then
    [getOrCreateThread] returns the thread the platform created; the
    binding and the index entry of the stale id are removed and the
    binding map is written to its file before anything else is requested
    of the platform, the creation in particular; afterwards the session is
    bound to the new thread, the index maps the new thread to the session,
    and the file holds the new binding map.  A new thread whose id differs
    from the stale one leaves the session not bound to the stale id. *)
Theorem stale_binding_is_replaced ctx firstEmbed env s c cfg sk stale err fresh :
  client s = Some c -> config s = Some cfg ->
  getSessionFile ctx = Some sk -> Js.truthy sk = true ->
  threads s !! sk = Some stale -> Js.truthy stale = true ->
  stale ∉ mutedThreads s ->
  (forall n, env n (ReqFetchChannel stale) = Rejected err) ->
  creation_succeeds env cfg firstEmbed fresh ->
  let r := run env (getOrCreateThread ctx firstEmbed) s in
  final r = Returned (Some fresh) /\
  threads (last r) = <[sk := ch_id fresh]> (delete sk (threads s)) /\
  watchedThreads (last r) =
    <[ch_id fresh := sk]> (delete stale (watchedThreads s)) /\
  file_threads (last r) = threads (last r) /\
  mutedThreads (last r) = mutedThreads s /\
  (exists rest, trace r = (ReqFetchChannel stale, s) :: rest /\
     Exists (fun p => is_creation (fst p) = true) rest /\
     Forall (fun p =>
       threads (snd p) !! sk = None /\
       watchedThreads (snd p) !! stale = None /\
       file_threads (snd p) = threads (snd p)) rest) /\
  (ch_id fresh <> stale -> threads (last r) !! sk <> Some stale).
Proof.
  intros Hc Hcfg Hctx Hsk Hb Ht Hm Hfetch Hcreate r.
  destruct (stale_run ctx firstEmbed env s c cfg sk stale err fresh)
    as (tr & Hrun & Hex & Htr); try assumption.
  subst r. rewrite Hrun. simpl.
  split; [reflexivity|]. split; [reflexivity|]. split; [reflexivity|].
  split; [reflexivity|]. split; [reflexivity|]. split.
  - exists tr. split; [reflexivity|]. split.
    + exact Hex.
    + eapply Forall_impl; [exact Htr|]. intros [q st0] Hst. simpl in *.
      subst st0. simpl. rewrite !lookup_delete_eq. repeat split.
  - intros Hne. rewrite lookup_insert_eq. congruence.
Qed.

(* ---------------------------------------------------------------- *)
(** ** The message handler on its own *)

Lemma messageCreate_accepted m s :
  accepted s m = true ->
  messageCreate m s =
    res_bind (voice_step m (voiceAttachment_of m) (msg_content m) s)
      (fun text =>
         match text with
         | None => ret tt
         | Some text => forward_step m (imageAttachments_of m) text
         end).
Proof.
  unfold accepted, messageCreate. intros Hacc.
  destruct (author_bot m); [discriminate|].
  destruct (isThread (msg_channel m)); [|discriminate].
  destruct (watchedThreads s !! ch_id (msg_channel m)) as [sessionKey|] eqn:Hw;
    [|discriminate].
  simpl in Hacc. apply andb_true_iff in Hacc. destruct Hacc as [Htr Hcur].
  unfold bind, gets. simpl. rewrite Hw. simpl. rewrite Htr. simpl.
  rewrite Hcur. reflexivity.
Qed.

Lemma pipe_run env n m c s :
  run_from env n (pipe (msg_id m) c s) =
    {| final := Returned tt;
       last := set_delivered (delivered s ++ [delivery_of s m c]) s;
       trace := [] |}.
Proof.
  unfold pipe, try_catch, bind, gets, sendUserMessage, modify, delivery_of,
    mode_of.
  simpl. destruct (isAgentBusy s); reflexivity.
Qed.

Lemma react_run {B} env n message emoji s (f : unit -> M B) :
  run_from env n (res_bind (await_ignoring (ReqReact message emoji) s) f) =
    after [(ReqReact message emoji, s)] (run_from env (S n) (f tt s)).
Proof.
  unfold await_ignoring, try_catch, bind, await, ret. simpl.
  destruct (env n (ReqReact message emoji)) as [[]|e]; reflexivity.
Qed.

Lemma download_images_segs atts parts :
  SegsE False same_state is_download
    (fun result => exists images,
       result = parts ++ images /\ Forall is_image_part images)
    (download_images atts parts).
Proof.
  revert parts. induction atts as [|a atts IH]; intros parts; simpl.
  - apply Segs_ret; [typeclasses eauto|]. exists []. split; [|constructor].
    symmetry. apply app_nil_r.
  - eapply Segs_bind with (P := any_value); [typeclasses eauto| |].
    + unfold downloadImageAsBase64.
      segs_with ltac:(first [reflexivity | eexists; reflexivity]).
    + intros [d|] _.
      * eapply Segs_post;
          [|apply (IH (parts ++ [ImagePart (mediaType d) (base64 d)]))].
        intros result (images & -> & Himg).
        exists (ImagePart (mediaType d) (base64 d) :: images). split.
        -- rewrite <- app_assoc. reflexivity.
        -- constructor; [exact I|assumption].
      * apply IH.
Qed.

Lemma voice_step_success {B} (env : Oracle) n m va text0 s t
    (f : option jsstring -> M B) :
  (forall k, env k (ReqTranscribe (url va)) = Resolved (Some t)) ->
  Js.truthy t = true ->
  run_from env n (res_bind (voice_step m (Some va) text0 s) f) =
    after [ (ReqReact (msg_id m) Js.microphone, s);
            (ReqTranscribe (url va), s);
            (ReqReply (msg_id m) (transcription_echo t), s) ]
      (run_from env (S (S (S n))) (f (Some t) s)).
Proof.
  intros Henv Ht.
  unfold voice_step, transcribeVoiceMessage, await_ignoring, try_catch, bind,
    await, ret, transcription_echo.
  simpl. destruct (env n (ReqReact (msg_id m) Js.microphone)) as [[]|e]; simpl;
    rewrite Henv; simpl; rewrite Ht; simpl; rewrite Ht; simpl;
    match goal with
    | |- context [env ?i (ReqReply ?a ?b)] =>
        destruct (env i (ReqReply a b)) as [[]|e']
    end; reflexivity.
Qed.

Lemma voice_step_failure {B} (env : Oracle) n m va text0 s
    (f : option jsstring -> M B) :
  (forall k, no_transcription (env k (ReqTranscribe (url va)))) ->
  run_from env n (res_bind (voice_step m (Some va) text0 s) f) =
    after [ (ReqReact (msg_id m) Js.microphone, s);
            (ReqTranscribe (url va), s);
            (ReqReply (msg_id m) transcription_error, s) ]
      (run_from env (S (S (S n))) (f None s)).
Proof.
  intros Henv.
  unfold voice_step, transcribeVoiceMessage, await_ignoring, try_catch, bind,
    await, ret, transcription_error.
  simpl. destruct (env n (ReqReact (msg_id m) Js.microphone)) as [[]|e]; simpl;
    (match goal with
     | |- context [env ?i (ReqTranscribe ?u)] =>
         specialize (Henv i); destruct (env i (ReqTranscribe u)) as [[t|]|e'']
     end; simpl in *;
     [rewrite Henv; simpl| |];
     match goal with
     | |- context [env ?i (ReqReply ?a ?b)] =>
         destruct (env i (ReqReply a b)) as [[]|e']
     end; reflexivity).
Qed.

Lemma download_images_none {B} (env : Oracle) atts :
  forall n parts s (f : list Part -> M B),
  (forall k a, In a atts -> no_image (env k (ReqDownloadImage (url a)))) ->
  run_from env n (res_bind (download_images atts parts s) f) =
    after (List.map (fun a => (ReqDownloadImage (url a), s)) atts)
      (run_from env (n + length atts) (f parts s)).
Proof.
  induction atts as [|a atts IH]; intros n parts s f Hnone.
  - simpl. rewrite Nat.add_0_r. destruct (run_from env n (f parts s)); reflexivity.
  - assert (Ha := Hnone n a (or_introl eq_refl)).
    assert (Hrest : forall k a', In a' atts ->
              no_image (env k (ReqDownloadImage (url a')))).
    { intros k a' Hin. apply Hnone. right. assumption. }
    simpl. unfold bind, downloadImageAsBase64, try_catch, await, ret. simpl.
    destruct (env n (ReqDownloadImage (url a))) as [[d|]|e]; simpl in *;
      [contradiction| |];
      rewrite (IH (S n) parts s f Hrest); simpl; rewrite <- plus_n_Sm;
      reflexivity.
Qed.

Lemma forward_step_no_image (env : Oracle) n m atts text s :
  atts <> [] ->
  (forall k a, In a atts -> no_image (env k (ReqDownloadImage (url a)))) ->
  run_from env n (forward_step m atts text s) =
    {| final := Returned tt;
       last :=
         if Js.truthy text
         then set_delivered
                (delivered s ++ [delivery_of s m (UParts [TextPart text])]) s
         else s;
       trace := (ReqReact (msg_id m) Js.framed_picture, s)
                :: List.map (fun a => (ReqDownloadImage (url a), s)) atts |}.
Proof.
  intros Hne Hnone. unfold forward_step.
  destruct atts as [|a atts]; [congruence|].
  unfold bind at 1. rewrite react_run.
  unfold bind at 1. rewrite download_images_none by assumption.
  destruct (Js.truthy text); cbv beta iota zeta.
  - rewrite pipe_run. unfold after. simpl. rewrite app_nil_r. reflexivity.
  - unfold after. simpl. rewrite app_nil_r. reflexivity.
Qed.

Lemma forward_step_text (env : Oracle) n m atts text s :
  Js.truthy text = true ->
  let r := run_from env n (forward_step m atts text s) in
  final r = Returned tt /\
  Forall (fun q => is_reply q = false) (requests r) /\
  exists c,
    last r = set_delivered (delivered s ++ [delivery_of s m c]) s /\
    (c = UText text \/
     exists images, c = UParts (TextPart text :: images) /\
                    Forall is_image_part images).
Proof.
  intros Ht. cbv zeta. unfold forward_step. destruct atts as [|a atts].
  - rewrite Ht. change (negb true) with false. cbv iota. rewrite pipe_run. simpl.
    repeat split; [constructor|]. eexists. split; [reflexivity|]. left.
    reflexivity.
  - unfold bind at 1 3 5. rewrite react_run.
    unfold bind at 1 2 3. rewrite run_from_bind. rewrite Ht.
    destruct (run_from_segs False same_state is_download _ env
                (download_images (a :: atts) [TextPart text] s) s
                (download_images_segs (a :: atts) [TextPart text] s) (S n))
      as (Hlast & Hreq & Hret & Hthrow).
    set (dl := run_from env (S n)
                 (download_images (a :: atts) [TextPart text] s)) in *.
    destruct (final dl) as [parts|e] eqn:Hfinal;
      [|exfalso; eapply Hthrow; reflexivity].
    destruct (Hret parts eq_refl) as (images & -> & Himages).
    unfold same_state in Hlast. rewrite Hlast.
    change ([TextPart text] ++ images) with (TextPart text :: images).
    cbv iota. rewrite pipe_run. unfold after, requests in *. simpl.
    repeat split.
    + constructor; [reflexivity|]. rewrite app_nil_r.
      eapply Forall_impl; [exact Hreq|]. intros q [u ->]. reflexivity.
    + eexists. split; [reflexivity|]. right. exists images. split;
        [reflexivity|assumption].
Qed.

(** C5.  For an accepted message with a voice attachment: when the
    transcription yields a text, that text is echoed into the thread as a
    reply (wrapped in the microphone sign and quotation marks) and exactly
    one turn is handed to the host, whose text is the transcription -- the
    turn is the text itself, or, when the message also carries images, a
    multi-part turn that starts with the text; when the transcription
    yields nothing, the error reply is posted and no turn is handed
    over. *)
Theorem voice_message_round_trip (env : Oracle) m s va :
  accepted s m = true ->
  voiceAttachment_of m = Some va ->
  let r := run env (messageCreate m) s in
  (forall t,
     (forall k, env k (ReqTranscribe (url va)) = Resolved (Some t)) ->
     Js.truthy t = true ->
     In (ReqReply (msg_id m) (transcription_echo t)) (requests r) /\
     exists c,
       delivered (last r) = delivered s ++ [delivery_of s m c] /\
       (c = UText t \/
        exists images, c = UParts (TextPart t :: images) /\
                       Forall is_image_part images)) /\
  ((forall k, no_transcription (env k (ReqTranscribe (url va)))) ->
     In (ReqReply (msg_id m) transcription_error) (requests r) /\
     delivered (last r) = delivered s).
Proof.
  intros Hacc Hva r. subst r. unfold run.
  rewrite (messageCreate_accepted m s Hacc), Hva. split.
  - intros t Henv Ht. rewrite (voice_step_success env 0 m va _ s t) by assumption.
    destruct (forward_step_text env 3 m (imageAttachments_of m) t s Ht)
      as (_ & _ & c & Hlast & Hc).
    unfold after, requests. simpl. split.
    + right. right. left. reflexivity.
    + exists c. rewrite Hlast. split; [reflexivity|exact Hc].
  - intros Henv. rewrite (voice_step_failure env 0 m va _ s) by assumption.
    unfold after, requests. simpl. split; [|reflexivity].
    right. right. left. reflexivity.
Qed.

(** C6 (amended).  For an accepted message that carries at least one image
    attachment, when no image can be downloaded.  Without a voice
    attachment: the handler reacts with the picture sign, tries every image,
    posts nothing else, and ends without an exception; if the message has
    no text, no turn is handed to the host; if it has text, a multi-part
    turn holding just that text is handed over.  With a voice attachment
    that is transcribed: a multi-part turn holding just the transcription is
    handed over. *)
Theorem images_all_failed (env : Oracle) m s :
  accepted s m = true ->
  imageAttachments_of m <> [] ->
  (forall k a, In a (imageAttachments_of m) ->
     no_image (env k (ReqDownloadImage (url a)))) ->
  let r := run env (messageCreate m) s in
  (voiceAttachment_of m = None ->
     final r = Returned tt /\
     requests r =
       ReqReact (msg_id m) Js.framed_picture
       :: List.map (fun a => ReqDownloadImage (url a)) (imageAttachments_of m) /\
     (Js.truthy (msg_content m) = false -> last r = s) /\
     (Js.truthy (msg_content m) = true ->
        last r = set_delivered
                   (delivered s ++
                    [delivery_of s m (UParts [TextPart (msg_content m)])]) s)) /\
  (forall va t,
     voiceAttachment_of m = Some va ->
     (forall k, env k (ReqTranscribe (url va)) = Resolved (Some t)) ->
     Js.truthy t = true ->
     final r = Returned tt /\
     last r = set_delivered
                (delivered s ++ [delivery_of s m (UParts [TextPart t])]) s).
Proof.
  intros Hacc Himg Hnone r. subst r. unfold run.
  rewrite (messageCreate_accepted m s Hacc). split.
  - intros Hva. rewrite Hva. unfold voice_step, ret. simpl res_bind.
    rewrite forward_step_no_image by assumption.
    unfold requests. simpl. repeat split.
    + rewrite map_map. reflexivity.
    + intros ->. reflexivity.
    + intros ->. reflexivity.
  - intros va t Hva Henv Ht. rewrite Hva.
    rewrite (voice_step_success env 0 m va _ s t) by assumption.
    rewrite forward_step_no_image by assumption.
    unfold after. simpl. rewrite Ht. split; reflexivity.
Qed.

(* ---------------------------------------------------------------- *)
(** ** Bot lifecycle *)

Lemma startBot_never_throws :
  SegsE False any_change any_request any_value startBot.
Proof. unfold startBot, getBotToken. segs_with idtac. Qed.

(** C7.  [startBot] never lets an exception escape, whatever the platform
    answers and whatever other handlers do while it is suspended.  Without
    a token in the environment it returns [{ok: false, error}] and changes
    nothing; with a token and a client it returns [{ok: true}] without
    awaiting anything and changes nothing.  With a token and no client,
    when the login is rejected it returns [{ok: false, error}] carrying the
    error, with [client] null and no connection opened.  When the login
    succeeds and the configured channel cannot be fetched, it returns
    [{ok: false, error}] carrying the error and sets [client] to null, but
    [destroy] is never called: the connection the login opened stays open,
    [stopBot] does nothing about it afterwards, and the next [startBot]
    logs in again, which makes two open connections once that login
    succeeds. *)
Theorem startBot_failed_fetch_stays_connected (env : Oracle) s :
  SegsE False any_change any_request any_value startBot /\
  (bot_token s = None ->
     startBot s = Done {| ok := false; error := Some token_missing |} s) /\
  (is_Some (bot_token s) -> is_Some (client s) ->
     startBot s = Done {| ok := true; error := None |} s) /\
  (forall token err, bot_token s = Some token -> client s = None ->
     env 0%nat (ReqLogin token) = Rejected err ->
     let r := run env startBot s in
     final r = Returned {| ok := false; error := Some err |} /\
     last r = s /\
     requests r = [ReqLogin token] /\
     connections env r 0 = 0%nat) /\
  (forall token userId cfg err, bot_token s = Some token -> client s = None ->
     config s = Some cfg ->
     env 0%nat (ReqLogin token) = Resolved userId ->
     env 1%nat (ReqFetchChannel (channelId cfg)) = Rejected err ->
     let r := run env startBot s in
     final r = Returned {| ok := false; error := Some err |} /\
     last r = set_botUserId userId s /\
     requests r = [ReqLogin token; ReqFetchChannel (channelId cfg)] /\
     connections env r 0 = 1%nat /\
     stopBot (last r) = Done tt (last r) /\
     forall env',
       (exists rest, requests (run env' startBot (last r)) = ReqLogin token :: rest) /\
       (forall userId', env' 0%nat (ReqLogin token) = Resolved userId' ->
          connections env' (run env' startBot (last r)) 1 = 2%nat)).
Proof.
  split; [exact startBot_never_throws|]. split; [|split; [|split]].
  - intros Htok. unfold startBot, getBotToken, bind, gets. simpl.
    rewrite Htok. reflexivity.
  - intros [token Htok] [c Hc]. unfold startBot, getBotToken, bind, gets.
    simpl. rewrite Htok. simpl. rewrite Hc. reflexivity.
  - intros token err Htok Hc Hlogin. cbv zeta.
    assert (Hrun : run env startBot s =
      {| final := Returned {| ok := false; error := Some err |};
         last := s;
         trace := [ (ReqLogin token, set_client (Some GatewayClient) s) ] |}).
    { unfold run, startBot, getBotToken, bind, gets, try_catch, modify, await.
      simpl. rewrite Htok. simpl. rewrite Hc. simpl. rewrite Hlogin. simpl.
      f_equal. destruct s; simpl in *; subst; reflexivity. }
    rewrite Hrun. repeat split.
    unfold connections, requests. simpl. rewrite Hlogin. reflexivity.
  - intros token userId cfg err Htok Hc Hcfg Hlogin Hfetch. cbv zeta.
    assert (Hrun : run env startBot s =
      {| final := Returned {| ok := false; error := Some err |};
         last := set_botUserId userId s;
         trace := [ (ReqLogin token, set_client (Some GatewayClient) s);
                    (ReqFetchChannel (channelId cfg),
                     set_botUserId userId (set_client (Some GatewayClient) s)) ] |}).
    { unfold run, startBot, getBotToken, bind, gets, try_catch, modify, await.
      simpl. rewrite Htok. simpl. rewrite Hc. simpl. rewrite Hlogin. simpl.
      rewrite Hcfg. simpl. rewrite Hfetch. simpl. f_equal.
      destruct s; simpl in *; subst; reflexivity. }
    rewrite Hrun. simpl last.
    split; [reflexivity|]. split; [reflexivity|]. split; [reflexivity|].
    split.
    { unfold connections, requests. simpl. rewrite Hlogin. simpl. reflexivity. }
    split.
    { unfold stopBot, bind, gets. simpl. rewrite Hc. reflexivity. }
    intros env'.
    unfold connections, requests, run, startBot, getBotToken, bind, gets,
      try_catch, modify, await.
    simpl. change (bot_token (set_botUserId userId s)) with (bot_token s).
    rewrite Htok. simpl. rewrite Hc. simpl. split.
    + eexists. reflexivity.
    + intros userId' Hlogin'. rewrite Hlogin'. simpl.
      rewrite Hcfg. simpl.
      destruct (env' 1%nat (ReqFetchChannel (channelId cfg))) as [channel|e];
        reflexivity.
Qed.

(* ---------------------------------------------------------------- *)
(** ** Reactions *)

Lemma messageReactionAdd_recognised (env : Oracle) s reaction user sessionKey :
  recognised env s reaction user sessionKey ->
  run env (messageReactionAdd reaction user) s =
    after (if partial reaction
           then [(ReqReactionFetch (reaction_message reaction), s)] else [])
      (run_from env (if partial reaction then 1 else 0)
         (apply_reaction reaction (ch_id (reaction_channel reaction))
            sessionKey s)).
Proof using Type.
  clear node.
  intros (Hfetch & Hbot & Hthread & Hwatched & Htruthy).
  unfold run, messageReactionAdd.
  destruct (partial reaction).
  - unfold bind, try_catch, await, ret, gets. simpl.
    rewrite (Hfetch eq_refl). simpl. rewrite Hbot, Hthread. simpl.
    rewrite Hwatched. simpl. rewrite Htruthy. simpl. reflexivity.
  - unfold bind, ret, gets. simpl. rewrite Hbot, Hthread. simpl.
    rewrite Hwatched. simpl. rewrite Htruthy. simpl.
    destruct (run_from env 0 _). reflexivity.
Qed.


Lemma mute_delete_run (env : Oracle) n reaction threadId sessionKey s :
  emoji_name reaction = Some Js.wastebasket ->
  Js.truthy sessionKey = true ->
  let r := run_from env n (apply_reaction reaction threadId sessionKey s) in
  last r = muted_unbound_state threadId sessionKey s /\
  final r = Returned tt /\
  Forall (fun p => is_farewell (fst p) = true /\
                   snd p = muted_unbound_state threadId sessionKey s)
    (trace r) /\
  exists rest,
    requests r =
      ReqSend threadId
        (PContent (Js.wastebasket ++ Js.lit " Thread will be deleted in 3 seconds..."))
      :: rest.
Proof using Type.
  clear node.
  intros Hemoji Htruthy. cbv zeta.
  unfold apply_reaction, saveMuted, saveThreads, try_catch, bind, modify,
    await, ret, requests.
  rewrite Hemoji, Htruthy. simpl.
  destruct (env n _) as [[]|e]; simpl.
  - destruct (env (S n) _) as [[]|e]; simpl.
    + destruct (env (S (S n)) _) as [[]|e]; simpl;
        (split; [reflexivity|]); (split; [reflexivity|]);
        (split; [repeat constructor|]); eexists; reflexivity.
    + split; [reflexivity|]. split; [reflexivity|].
      split; [repeat constructor|]. eexists; reflexivity.
  - split; [reflexivity|]. split; [reflexivity|].
    split; [repeat constructor|]. eexists; reflexivity.
Qed.


(** C10.  In the mute+delete branch the handler first adds the thread to
    the muted set, saves it, removes the index entry and the binding and
    saves the binding map, and only then posts the countdown, waits and
    asks for the deletion: each of these three requests is made in the
    state that already holds all of these changes, in memory and on file.
    Whatever the requests settle to -- the post or the deletion may be
    rejected -- the handler ends normally in exactly that state. *)
Theorem mute_delete_is_durable (env : Oracle) s reaction user sessionKey :
  recognised env s reaction user sessionKey ->
  emoji_name reaction = Some Js.wastebasket ->
  let threadId := ch_id (reaction_channel reaction) in
  let durable := muted_unbound_state threadId sessionKey s in
  let r := run env (messageReactionAdd reaction user) s in
  final r = Returned tt /\
  last r = durable /\
  (threadId ∈ mutedThreads durable /\ threadId ∈ file_muted durable /\
   threads durable !! sessionKey = None /\
   file_threads durable !! sessionKey = None /\
   watchedThreads durable !! threadId = None) /\
  (forall q st, In (q, st) (trace r) -> is_farewell q = true -> st = durable) /\
  Exists (fun q => is_farewell q = true) (requests r).
Proof using Type.
  clear node.
  intros Hrec Hemoji threadId durable r. subst r.
  rewrite (messageReactionAdd_recognised env s reaction user sessionKey Hrec).
  destruct Hrec as (_ & _ & _ & _ & Htruthy).
  destruct (mute_delete_run env (if partial reaction then 1%nat else 0%nat)
              reaction threadId sessionKey s Hemoji Htruthy)
    as (Hlast & Hfinal & Htrace & rest & Hreq).
  fold threadId. unfold after. simpl final. simpl last. simpl trace.
  split; [exact Hfinal|]. split; [exact Hlast|]. split; [|split].
  - subst durable. unfold muted_unbound_state, muted_state. simpl.
    rewrite !lookup_delete_eq. repeat split; set_solver.
  - intros q st Hin Hfar. apply in_app_or in Hin. destruct Hin as [Hin|Hin].
    + destruct (partial reaction); simpl in Hin; [|contradiction].
      destruct Hin as [[= <- <-]|[]]. discriminate.
    + rewrite Forall_forall in Htrace. apply list_elem_of_In in Hin.
      destruct (Htrace (q, st) Hin) as [_ Hst]. exact Hst.
  - unfold requests in *. simpl. rewrite map_app. apply Exists_app. right.
    rewrite Hreq. apply Exists_cons_hd. reflexivity.
Qed.

(* ---------------------------------------------------------------- *)
(** ** End of a turn *)

#[local] Instance same_settings_preorder : PreOrder same_settings.
Proof.
  split.
  - intros s. repeat split.
  - intros s1 s2 s3 (H1 & H2 & H3) (H1' & H2' & H3').
    unfold same_settings. repeat split; congruence.
Qed.

Lemma run_clocked_bind {A B} env now (r : Res A) (f : A -> M B) :
  forall n,
  run_clocked_from env now n (res_bind r f) =
    match final (run_clocked_from env now n r) with
    | Returned a =>
        after (trace (run_clocked_from env now n r))
          (run_clocked_from env now
             (n + length (trace (run_clocked_from env now n r)))
             (f a (last (run_clocked_from env now n r))))
    | Thrown e =>
        {| final := Thrown e; last := last (run_clocked_from env now n r);
           trace := trace (run_clocked_from env now n r) |}
    end.
Proof.
  induction r as [a s|e s|q s k IH]; intros n; simpl.
  - rewrite Nat.add_0_r. destruct (run_clocked_from env now n (f a s)); reflexivity.
  - reflexivity.
  - rewrite IH. simpl.
    destruct (final (run_clocked_from env now (S n)
                       (k (env n q) (set_clock (now n) s)))); simpl.
    + rewrite <- plus_n_Sm. reflexivity.
    + reflexivity.
Qed.

(** What holds of every stretch under any interleaving, and is not
    disturbed by the clock, holds of the run while the clock goes on. *)
Lemma run_clocked_segs {A} E (R : relation State) `{!PreOrder R} Q (P : A -> Prop)
    env now (r : Res A) s0 :
  (forall v s, R s (set_clock v s)) ->
  segs E R Q P s0 r ->
  forall n,
  R s0 (last (run_clocked_from env now n r)) /\
  Forall Q (requests (run_clocked_from env now n r)) /\
  (forall a, final (run_clocked_from env now n r) = Returned a -> P a) /\
  (forall e, final (run_clocked_from env now n r) = Thrown e -> E).
Proof.
  intros Hclock Hr.
  induction Hr as [s0 a s HR HP|s0 e s HE HR|s0 q s k HR HQ Hk IH];
    intros n; simpl.
  - repeat split; [assumption|constructor| |].
    + intros a' [= <-]. assumption.
    + intros e [=].
  - repeat split; [assumption|constructor| |].
    + intros a' [=].
    + intros e' _. assumption.
  - destruct (IH (env n q) (set_clock (now n) s) (S n)) as (Hl & Hq & Hf & He).
    repeat split.
    + etransitivity; [eassumption|]. etransitivity; [apply Hclock|eassumption].
    + unfold requests. simpl. constructor; assumption.
    + assumption.
    + assumption.
Qed.

Lemma channels_fetch_settings id :
  Segs same_settings any_request any_value (channels_fetch id).
Proof. unfold channels_fetch. segs_with keeps. Qed.

Lemma auto_rename_settings ctx :
  Segs same_settings any_request any_value (auto_rename ctx).
Proof.
  pose proof channels_fetch_settings.
  pose proof (fun ctx => Segs_any _ _ _ _ _
                (makeThreadName_limited True same_settings any_request ctx)).
  unfold auto_rename, renameCurrentThread, generateThreadName.
  segs_with keeps.
Qed.

Lemma getOrCreateThread_settings ctx firstEmbed :
  Segs same_settings any_request any_value (getOrCreateThread ctx firstEmbed).
Proof.
  pose proof channels_fetch_settings.
  pose proof (makeThreadName_limited True same_settings any_request).
  unfold getOrCreateThread, try_existing, create_thread, saveThreads.
  segs_with keeps.
Qed.

Lemma renameCurrentThread_never_throws name :
  SegsE False any_change any_request any_value (renameCurrentThread name).
Proof. unfold renameCurrentThread, channels_fetch. segs_with idtac. Qed.

(** The renaming block lets an exception escape in one place only: where
    the promise of [generateThreadName] rejects. *)
Lemma auto_rename_throws ctx s :
  segs False any_change any_request any_value s (auto_rename ctx s) \/
  exists s1 k,
    auto_rename ctx s = Susp (ReqGenerateThreadName ctx) s1 k /\
    (forall e s', k (Rejected e) s' = Throw e s') /\
    (forall g s',
       segs False any_change any_request any_value s' (k (Resolved g) s')).
Proof.
  pose proof renameCurrentThread_never_throws as Hrename.
  unfold auto_rename. rewrite bind_gets.
  destruct (_ && _); [|left; constructor; exact I].
  rewrite !bind_gets. cbv zeta.
  destruct (_ && _).
  - left.
    match goal with
    | |- segs _ _ _ _ s (?m s) =>
        assert (Hm : SegsE False any_change any_request any_value m);
          [|exact (Hm s)]
    end.
    unfold makeThreadName. segs_with idtac.
  - destruct (negb (threadAutoNamed s) && _); [|left; constructor; exact I].
    right. unfold generateThreadName, bind, modify, await. simpl.
    eexists _, _. split; [reflexivity|]. split; [reflexivity|].
    intros g s'. simpl.
    destruct g as [g|]; [|constructor; exact I].
    destruct (Js.truthy g); [|constructor; exact I].
    eapply segs_bind; [exact _|apply Hrename|].
    intros ok _. apply Segs_ret; [exact _|exact I].
Qed.

Lemma renaming_thrown (env : Oracle) (now : Clock) ctx s err :
  final (renaming env now ctx s) = Thrown err ->
  env 0%nat (ReqGenerateThreadName ctx) = Rejected err /\
  requests (renaming env now ctx s) = [ReqGenerateThreadName ctx].
Proof.
  unfold renaming, run_clocked.
  destruct (auto_rename_throws ctx (set_isAgentBusy false s))
    as [Hnever|(s1 & k & -> & Hrej & Hres)].
  - intros Hthrown. exfalso.
    eapply (run_clocked_segs False any_change any_request any_value env now);
      [intros; exact I|exact Hnever|exact Hthrown].
  - simpl. destruct (env 0%nat (ReqGenerateThreadName ctx)) as [g|e].
    + intros Hthrown. exfalso.
      eapply (run_clocked_segs False any_change any_request any_value env now);
        [intros; exact I|apply Hres|exact Hthrown].
    + rewrite Hrej. simpl. intros [= ->]. split; reflexivity.
Qed.

Lemma send_ignoring_clocked {B} env now n channel p s (f : unit -> M B) :
  run_clocked_from env now n (res_bind (await_ignoring (ReqSend channel p) s) f) =
    after [(ReqSend channel p, s)]
      (run_clocked_from env now (S n) (f tt (set_clock (now n) s))).
Proof.
  unfold await_ignoring, try_catch, bind, await, ret. simpl.
  destruct (env n (ReqSend channel p)) as [[]|e]; reflexivity.
Qed.

(** The two posts: the answer if there is one, the embed if the turn was
    long. *)
Lemma post_turn_clocked (env : Oracle) now n ctx thread lastMessage duration s cfg :
  config s = Some cfg ->
  final (run_clocked_from env now n (post_turn ctx thread lastMessage duration s))
    = Returned tt /\
  requests (run_clocked_from env now n (post_turn ctx thread lastMessage duration s))
    = match lastMessage with
      | Some m =>
          if Js.truthy m
          then [ReqSend (ch_id thread) (PContent (truncateText m 1900))]
          else []
      | None => []
      end
      ++ (if minDurationMs cfg <=? duration
          then [ReqSend (ch_id thread) (PEmbeds [waiting_embed ctx duration])]
          else []).
Proof.
  intros Hcfg. unfold post_turn.
  assert (Hembed : forall k s', config s' = Some cfg ->
    final (run_clocked_from env now k
      (bind (gets config)
         (fun cfg0 =>
            match cfg0 with
            | Some cfg1 =>
                if minDurationMs cfg1 <=? duration
                then await_ignoring
                       (ReqSend (ch_id thread) (PEmbeds [waiting_embed ctx duration]))
                else ret tt
            | None => throw TypeError
            end) s')) = Returned tt /\
    requests (run_clocked_from env now k
      (bind (gets config)
         (fun cfg0 =>
            match cfg0 with
            | Some cfg1 =>
                if minDurationMs cfg1 <=? duration
                then await_ignoring
                       (ReqSend (ch_id thread) (PEmbeds [waiting_embed ctx duration]))
                else ret tt
            | None => throw TypeError
            end) s')) =
    if minDurationMs cfg <=? duration
    then [ReqSend (ch_id thread) (PEmbeds [waiting_embed ctx duration])]
    else []).
  { intros k s' Hcfg'. rewrite bind_gets, Hcfg'.
    destruct (minDurationMs cfg <=? duration); [|split; reflexivity].
    unfold await_ignoring, try_catch, bind, await, ret. simpl.
    destruct (env k _) as [[]|e]; split; reflexivity. }
  destruct lastMessage as [m|]; [destruct (Js.truthy m)|].
  - match goal with
    | |- context [run_clocked_from env now n (bind ?m ?K s)] =>
        change (bind m K s) with (res_bind (m s) K)
    end.
    rewrite send_ignoring_clocked.
    destruct (Hembed (S n) (set_clock (now n) s) Hcfg) as [Hf Hq].
    split; [exact Hf|].
    unfold after, requests in *. cbn [trace]. rewrite map_app, Hq. reflexivity.
  - unfold bind at 1. unfold ret at 1. simpl res_bind. apply Hembed, Hcfg.
  - unfold bind at 1. unfold ret at 1. simpl res_bind. apply Hembed, Hcfg.
Qed.

(** The [agent_end] handler of an enabled and connected bot, taken apart:
    the renaming block, the thread resolution, the posts. *)
Lemma agent_end_clocked (env : Oracle) now messages ctx s cfg :
  config s = Some cfg -> enabled cfg = true -> is_Some (client s) ->
  let r := run_clocked env now (agent_end messages ctx) s in
  let r1 := renaming env now ctx s in
  let r2 := resolution env now ctx s in
  match final r1 with
  | Thrown e => final r = Thrown e /\ requests r = requests r1
  | Returned _ =>
      match final r2 with
      | Thrown e => final r = Thrown e /\ requests r = requests r1 ++ requests r2
      | Returned None =>
          final r = Returned tt /\ requests r = requests r1 ++ requests r2
      | Returned (Some thread) =>
          exists s',
            config s' = Some cfg /\
            r = after (trace r1 ++ trace r2)
                  (run_clocked_from env now (length (trace r1 ++ trace r2))
                     (post_turn ctx thread (lastMessage_of messages)
                        (measured env now ctx s) s'))
      end
  end.
Proof.
  intros Hcfg Hen [c Hc]. cbv zeta.
  unfold resolution, measured, renaming, run_clocked.
  unfold agent_end. rewrite bind_modify.
  set (s0 := set_isAgentBusy false s).
  match goal with
  | |- context [run_clocked_from env now 0 (bind (auto_rename ctx) ?K s0)] =>
      change (bind (auto_rename ctx) K s0) with (res_bind (auto_rename ctx s0) K)
  end.
  rewrite run_clocked_bind.
  destruct (run_clocked_segs True same_settings any_request any_value env now
              (auto_rename ctx s0) s0 ltac:(intros; repeat split)
              (auto_rename_settings ctx s0) 0%nat)
    as ((Hcfg1 & Hc1 & Hstart1) & _).
  set (r1 := run_clocked_from env now 0 (auto_rename ctx s0)) in *.
  destruct (final r1) as [[]|e]; [|split; reflexivity].
  rewrite bind_gets.
  assert (Hactive : config_enabled (last r1)
                    && bool_decide (is_Some (client (last r1))) = true).
  { unfold config_enabled. rewrite Hcfg1, Hc1. simpl. rewrite Hcfg, Hen, Hc.
    reflexivity. }
  rewrite Hactive. change (negb true) with false. cbv iota.
  rewrite bind_gets.
  match goal with
  | |- context [bind (getOrCreateThread ctx None) ?K (last r1)] =>
      change (bind (getOrCreateThread ctx None) K (last r1))
        with (res_bind (getOrCreateThread ctx None (last r1)) K)
  end.
  rewrite run_clocked_bind.
  destruct (run_clocked_segs True same_settings any_request any_value env now
              (getOrCreateThread ctx None (last r1)) (last r1)
              ltac:(intros; repeat split)
              (getOrCreateThread_settings ctx None (last r1))
              (0 + length (trace r1))%nat)
    as ((Hcfg2 & _) & _).
  simpl Nat.add in *.
  set (r2 := run_clocked_from env now (length (trace r1))
               (getOrCreateThread ctx None (last r1))) in *.
  destruct (final r2) as [[thread|]|e].
  - exists (last r2). split; [rewrite Hcfg2, Hcfg1; exact Hcfg|].
    unfold after. simpl. rewrite length_app, app_assoc. reflexivity.
  - unfold after, requests, ret. simpl. rewrite app_nil_r, map_app.
    split; reflexivity.
  - unfold after, requests. simpl. rewrite map_app. split; reflexivity.
Qed.

(** C8.  When the bot is enabled and connected, the [agent_end] handler
    ends in one of two ways.  If the promise of [generateThreadName]
    rejects, the rejection escapes the handler before anything is posted:
    the request for a name is the only one the handler makes.  If the
    renaming block returns and the thread resolution returns a thread, a
    turn whose duration -- as the clock reads when the renaming block is
    through -- is at least the configured minimum gets the embed titled
    "pi is waiting for your input", with the project and the duration as
    fields and the working directory as footer, posted to that thread as
    the last request of the handler, whether or not there is an answer to
    mirror; when the turn has a non-empty last answer, the answer,
    truncated to 1900, is posted to the same thread just before the embed,
    so that both are sent, whether or not the first post succeeds. *)
Theorem long_turn_notices (env : Oracle) (now : Clock) messages ctx s cfg :
  config s = Some cfg -> enabled cfg = true -> is_Some (client s) ->
  let r := run_clocked env now (agent_end messages ctx) s in
  (forall err,
     final (renaming env now ctx s) = Thrown err ->
     env 0%nat (ReqGenerateThreadName ctx) = Rejected err /\
     final r = Thrown err /\ requests r = [ReqGenerateThreadName ctx]) /\
  (forall thread,
     final (renaming env now ctx s) = Returned tt ->
     final (resolution env now ctx s) = Returned (Some thread) ->
     let duration := measured env now ctx s in
     minDurationMs cfg <= duration ->
     let seconds := (duration + 500) / 1000 in
     let shown :=
       if seconds <? 60 then Js.ofZ seconds ++ Js.lit "s"
       else Js.ofZ (seconds / 60) ++ Js.lit "m " ++ Js.ofZ (seconds mod 60)
              ++ Js.lit "s" in
     let notice :=
       ReqSend (ch_id thread)
         (PEmbeds
            [ {| title := Js.robot ++ Js.lit " pi is waiting for your input";
                 description := None;
                 color := 8141549;
                 fields :=
                   [ (Js.lit "Project",
                      Js.backtick ++ basename node (cwd ctx) ++ Js.backtick);
                     (Js.lit "Duration", shown) ];
                 footer := Some (cwd ctx) |} ]) in
     final r = Returned tt /\
     (exists before, requests r = before ++ [notice]) /\
     (forall text, lastMessage_of messages = Some text -> Js.truthy text = true ->
        exists before,
          requests r =
            before ++ [ReqSend (ch_id thread) (PContent (truncateText text 1900));
                       notice])).
Proof.
  intros Hcfg Hen Hc. cbv zeta.
  pose proof (agent_end_clocked env now messages ctx s cfg Hcfg Hen Hc) as Hrun.
  cbv zeta in Hrun. split.
  - intros err Hthrown. rewrite Hthrown in Hrun. destruct Hrun as [Hf Hq].
    destruct (renaming_thrown env now ctx s err Hthrown) as [Hrej Hreq].
    split; [exact Hrej|]. split; [exact Hf|]. rewrite Hq. exact Hreq.
  - intros thread Hren Hres Hdur. rewrite Hren, Hres in Hrun.
    destruct Hrun as (s' & Hcfg' & ->).
    destruct (post_turn_clocked env now
                (length (trace (renaming env now ctx s)
                         ++ trace (resolution env now ctx s)))
                ctx thread (lastMessage_of messages) (measured env now ctx s)
                s' cfg Hcfg') as [Hf Hq].
    assert (Hmin : (minDurationMs cfg <=? measured env now ctx s) = true)
      by (apply Z.leb_le; exact Hdur).
    rewrite Hmin in Hq.
    assert (Hembed :
      waiting_embed ctx (measured env now ctx s) =
        {| title := Js.robot ++ Js.lit " pi is waiting for your input";
           description := None;
           color := 8141549;
           fields :=
             [ (Js.lit "Project",
                Js.backtick ++ basename node (cwd ctx) ++ Js.backtick);
               (Js.lit "Duration",
                if (measured env now ctx s + 500) / 1000 <? 60
                then Js.ofZ ((measured env now ctx s + 500) / 1000) ++ Js.lit "s"
                else Js.ofZ ((measured env now ctx s + 500) / 1000 / 60)
                       ++ Js.lit "m "
                       ++ Js.ofZ (((measured env now ctx s + 500) / 1000) mod 60)
                       ++ Js.lit "s") ];
           footer := Some (cwd ctx) |}).
    { unfold waiting_embed, durationStr, round_seconds. cbv zeta.
      rewrite Z.leb_antisym.
      destruct ((measured env now ctx s + 500) / 1000 <? 60) eqn:Hshort;
        [reflexivity|].
      apply Z.ltb_ge in Hshort. simpl negb. cbv iota.
      rewrite Z.rem_mod_nonneg by lia. reflexivity. }
    rewrite Hembed in Hq.
    split; [exact Hf|].
    unfold after, requests in *. simpl trace. rewrite map_app, Hq. split.
    + eexists. rewrite app_assoc. reflexivity.
    + intros text -> ->. eexists. reflexivity.
Qed.

(* ---------------------------------------------------------------- *)
(** ** What the listeners leave alone *)

Lemma messageCreate_rejected (m : Message) (s : State) :
  accepted s m = false -> messageCreate m s = Done tt s.
Proof using Type.
  clear node.
  unfold accepted, messageCreate. intros Hacc.
  destruct (author_bot m); [reflexivity|].
  destruct (isThread (msg_channel m)); [|reflexivity].
  unfold bind, gets. simpl.
  destruct (watchedThreads s !! ch_id (msg_channel m)) as [sessionKey|];
    [|reflexivity].
  simpl in *. destruct (Js.truthy sessionKey); [|reflexivity].
  simpl in *. rewrite Hacc. reflexivity.
Qed.

(** X10.  A message the guards of the [messageCreate] listener reject --
    written by a bot, outside a thread, in a thread the index does not
    know, or in a thread that belongs to another session than the current
    one -- is dropped at once: nothing is awaited, nothing is handed to the
    host, the state is what it was.  In the event loop the dispatch of such
    a message changes neither the state nor the pool of suspended
    handlers. *)
Theorem messageCreate_ignores_other_threads (m : Message) (s : State) :
  accepted s m = false ->
  messageCreate m s = Done tt s /\
  forall l, st l = s -> exec_step l (Dispatch (EvMessageCreate m)) = l.
Proof.
  unfold accepted. intros Hacc.
  assert (Hdrop : messageCreate m s = Done tt s).
  { unfold messageCreate.
    destruct (author_bot m); [reflexivity|].
    destruct (isThread (msg_channel m)); [|reflexivity].
    unfold bind, gets. simpl.
    destruct (watchedThreads s !! ch_id (msg_channel m)) as [sessionKey|];
      [|reflexivity].
    simpl in *. destruct (Js.truthy sessionKey); [|reflexivity].
    simpl in *. rewrite Hacc. reflexivity. }
  split; [exact Hdrop|].
  intros [s0 p] Hst. simpl in Hst. subst s0. simpl. rewrite Hdrop. reflexivity.
Qed.

(** X11.  A reaction added by a bot, outside a thread, in a thread the
    index does not know, or with another emoji than the two the handler
    knows, changes nothing: the handler ends normally in the state it
    started in, and the only request it may have made is the fetch that
    completes a partial reaction. *)
Theorem messageReactionAdd_ignores_the_rest (env : Oracle) (s : State)
    (reaction : Reaction) (user : User) :
  user_bot user = true \/ isThread (reaction_channel reaction) = false \/
  watchedThreads s !! ch_id (reaction_channel reaction) = None \/
  known_emoji reaction = false ->
  let r := run env (messageReactionAdd reaction user) s in
  final r = Returned tt /\ last r = s /\
  requests r =
    if partial reaction then [ReqReactionFetch (reaction_message reaction)]
    else [].
Proof using Type.
  clear node.
  intros Hrest. cbv zeta. unfold run, messageReactionAdd. unfold bind at 1.
  match goal with
  | |- context [res_bind _ ?K] =>
      assert (HK : forall fetched n,
        run_from env n (K fetched s)
          = {| final := Returned tt; last := s; trace := [] |});
        [|revert HK; generalize K; intros body Hbody]
  end.
  { intros [|] n; [|reflexivity]. change (negb true) with false. cbv iota.
    destruct (user_bot user); [reflexivity|].
    destruct (isThread (reaction_channel reaction)); [|reflexivity].
    change (negb true) with false. cbv iota. rewrite bind_gets.
    destruct (watchedThreads s !! ch_id (reaction_channel reaction))
      as [sessionKey|]; [|reflexivity].
    destruct (Js.truthy sessionKey); [|reflexivity].
    change (negb true) with false. cbv iota.
    destruct Hrest as [Hr|[Hr|[Hr|Hr]]]; try discriminate Hr.
    unfold known_emoji in Hr. apply orb_false_iff in Hr. destruct Hr as [H1 H2].
    unfold apply_reaction. cbv zeta. rewrite H1, H2. reflexivity. }
  destruct (partial reaction).
  - unfold try_catch, bind, await, ret. simpl.
    destruct (env 0%nat (ReqReactionFetch (reaction_message reaction))) as [[]|e];
      simpl; rewrite ?Hbody; repeat split.
  - unfold bind, ret. simpl. rewrite Hbody. repeat split.
Qed.

Lemma segs_whatever {A} (r : Res A) s0 :
  segs True any_change any_request any_value s0 r.
Proof.
  revert s0. induction r as [a s|e s|q s k IH]; intros s0; constructor;
    solve [exact I|auto].
Qed.

(** X12.  No exception escapes the [messageCreate] listener, the
    [tool_result] and [agent_start] handlers, the three session handlers,
    [stopBot] and [renameCurrentThread] -- whatever the awaited promises
    settle to, and whatever other handlers do to the state in between.  In
    none of them is a file written outside a [try]: the [tool_result]
    handler runs its thread resolution inside its [try], so that it ends
    normally whatever the resolution does, a failing write of the binding
    file included.  (The [agent_end] handler is not in the list: a
    rejection inside [generateThreadName] escapes it.  Neither are the
    reaction listener, [getOrCreateThread], [notify] and the unmute
    command, which write their files outside any [try].) *)
Theorem handlers_that_never_throw :
  (forall m, SegsE False any_change any_request any_value (messageCreate m)) /\
  (forall resolveThread event ctx,
     SegsE False any_change any_request any_value
       (tool_result_with resolveThread event ctx)) /\
  (forall event ctx,
     tool_result event ctx
       = tool_result_with (getOrCreateThread ctx None) event ctx) /\
  SegsE False any_change any_request any_value agent_start /\
  (forall ctx, SegsE False any_change any_request any_value (session_start ctx)) /\
  (forall ctx, SegsE False any_change any_request any_value (session_switch ctx)) /\
  SegsE False any_change any_request any_value session_shutdown /\
  (forall name,
     SegsE False any_change any_request any_value (renameCurrentThread name)).
Proof.
  assert (Hdl : forall atts parts,
    SegsE False any_change any_request any_value (download_images atts parts)).
  { intros atts. induction atts as [|a atts IH]; intros parts; simpl;
      unfold downloadImageAsBase64; segs_with idtac. }
  pose proof startBot_never_throws as Hstart.
  split; [|split; [|split; [|split; [|split; [|split; [|split]]]]]].
  - intros m.
    unfold messageCreate, forward_step, voice_step, transcribeVoiceMessage, pipe,
      sendUserMessage.
    segs_with idtac.
  - intros resolveThread event ctx.
    assert (Hresolve : Segs any_change any_request any_value resolveThread)
      by (intros s; apply segs_whatever).
    unfold tool_result_with. segs_with idtac.
  - reflexivity.
  - unfold agent_start. segs_with idtac.
  - intros ctx. unfold session_start, adopt_session. segs_with idtac.
  - intros ctx. unfold session_switch, adopt_session. segs_with idtac.
  - unfold session_shutdown, stopBot. segs_with idtac.
  - intros name. unfold renameCurrentThread, channels_fetch. segs_with idtac.
Qed.

(* ---------------------------------------------------------------- *)
(** ** Invariants of the event loop *)

#[local] Instance preserves_preorder (Inv : State -> Prop) :
  PreOrder (preserves Inv).
Proof.
  split.
  - intros s H. exact H.
  - intros s1 s2 s3 H12 H23 H. apply H23, H12, H.
Qed.

#[local] Instance never_undone_preorder : PreOrder never_undone.
Proof.
  split.
  - intros s. split; [reflexivity|repeat split].
  - intros s1 s2 s3 (H1 & H2 & H3) (H1' & H2' & H3').
    unfold never_undone. repeat split; [set_solver|congruence..].
Qed.

#[local] Instance same_current_preorder : PreOrder same_current.
Proof.
  split.
  - intros s. reflexivity.
  - intros s1 s2 s3 H12 H23. unfold same_current in *. congruence.
Qed.

#[local] Instance same_busy_preorder : PreOrder same_busy.
Proof.
  split.
  - intros s. reflexivity.
  - intros s1 s2 s3 H12 H23. unfold same_busy in *. congruence.
Qed.

#[local] Instance flag_stays_preorder : PreOrder flag_stays.
Proof.
  split.
  - intros s H. exact H.
  - intros s1 s2 s3 H12 H23 H. apply H23, H12, H.
Qed.

Section Blocks.

Context (E : Prop) (R : relation State) `{!PreOrder R} (Q : Request -> Prop).

Lemma SegsFrom_open {A} (P : A -> Prop) (m : M A) :
  SegsFrom E R Q P (fun s => s) m -> SegsE E R Q P m.
Proof. intros H s. exact (H s). Qed.

Lemma SegsFrom_modify {A} (P : A -> Prop) (h f : State -> State) (m : M A) :
  SegsFrom E R Q P (fun s => f (h s)) m ->
  SegsFrom E R Q P h (bind (modify f) (fun _ => m)).
Proof. intros H s. exact (H s). Qed.

Lemma SegsFrom_modify_last (P : unit -> Prop) (h f : State -> State) :
  (forall s, R s (f (h s))) -> P tt -> SegsFrom E R Q P h (modify f).
Proof. intros H Ht s. constructor; [apply H|exact Ht]. Qed.

Lemma SegsFrom_close {A} (P : A -> Prop) (h : State -> State) (m : M A) :
  (forall s, R s (h s)) -> SegsE E R Q P m -> SegsFrom E R Q P h m.
Proof. intros H Hm s. eapply segs_start; [exact _|apply H|apply Hm]. Qed.

End Blocks.

(** As [segs_with], except that a run of state updates at the head of a
    stretch is checked against [R] as a whole. *)
Ltac segs_blocks fin :=
  repeat first
    [ assumption
    | match goal with
      | |- SegsE _ _ _ _ _ => solve [auto 2]
      end
    | match goal with
      | |- PreOrder _ => typeclasses eauto
      | |- True => exact I
      | |- any_value _ => exact I
      | |- any_request _ => exact I
      | |- any_change _ _ => exact I
      | |- forall _, _ => intros ?
      end
    | apply Segs_ret
    | apply Segs_throw
    | apply Segs_gets
    | match goal with
      | |- SegsE ?E ?R ?Q _ (await ?q) => apply (Segs_await E R Q q)
      end
    | apply Segs_await_ignoring
    | match goal with
      | |- SegsE _ _ _ _ (bind (modify _) (fun _ => bind (modify _) _)) =>
          apply SegsFrom_open; repeat apply SegsFrom_modify;
          first [ apply SegsFrom_modify_last; [solve [fin]|exact I]
                | apply SegsFrom_close; [typeclasses eauto|solve [fin]|] ]
      | |- SegsE _ _ _ _ (bind (modify _) (fun _ => modify _)) =>
          apply SegsFrom_open; repeat apply SegsFrom_modify;
          apply SegsFrom_modify_last; [solve [fin]|exact I]
      end
    | apply Segs_modify
    | eapply Segs_any; eassumption
    | eapply Segs_bind; [typeclasses eauto | solve [eauto 2] | cbv beta ]
    | apply Segs_bind with (P := any_value)
    | apply Segs_try_catch
    | match goal with
      | |- SegsE _ _ _ _ (match ?x with _ => _ end) => destruct x
      | |- SegsE _ _ _ _ (if ?b then _ else _) => destruct b
      | |- SegsE _ _ _ _ (let _ := _ in _) => cbv zeta
      end
    | solve [fin] ].

Ltac synced :=
  intros; unfold preserves, persisted in *; simpl;
  intuition (try reflexivity; try congruence).

Lemma getOrCreateThread_persisted ctx firstEmbed :
  Segs (preserves persisted) any_request any_value
    (getOrCreateThread ctx firstEmbed).
Proof.
  unfold getOrCreateThread, try_existing, create_thread, makeThreadName,
    channels_fetch, saveThreads.
  segs_blocks synced.
Qed.

Lemma startBot_persisted :
  Segs (preserves persisted) any_request any_value startBot.
Proof. unfold startBot, getBotToken. segs_blocks synced. Qed.

Lemma handler_persisted e :
  Segs (preserves persisted) any_request any_value (handler e).
Proof.
  pose proof getOrCreateThread_persisted.
  pose proof startBot_persisted.
  assert (Hdl : forall atts parts,
    Segs (preserves persisted) any_request any_value (download_images atts parts)).
  { intros atts. induction atts as [|a atts IH]; intros parts; simpl;
      unfold downloadImageAsBase64; segs_blocks synced. }
  destruct e; simpl.
  - unfold messageCreate, forward_step, voice_step, transcribeVoiceMessage, pipe,
      sendUserMessage.
    segs_blocks synced.
  - unfold messageReactionAdd, apply_reaction, saveMuted, saveThreads.
    segs_blocks synced.
  - unfold agent_start. segs_blocks synced.
  - unfold agent_end, post_turn, auto_rename, renameCurrentThread, makeThreadName,
      generateThreadName, channels_fetch.
    segs_blocks synced.
  - unfold tool_result. segs_blocks synced.
  - unfold session_start, adopt_session. segs_blocks synced.
  - unfold session_switch, adopt_session. segs_blocks synced.
  - unfold session_shutdown, stopBot. segs_blocks synced.
Qed.

Lemma absorb_segs (R : relation State) `{!PreOrder R} (r : Res unit) s0 p :
  segs True R any_request any_value s0 r -> pool_segs R p ->
  R s0 (st (absorb r p)) /\ pool_segs R (pool (absorb r p)).
Proof.
  intros Hr Hp. destruct Hr; simpl; split; try assumption.
  apply Forall_app. split; [assumption|]. constructor; [|constructor].
  simpl. assumption.
Qed.

Lemma pool_segs_delete (R : relation State) i p :
  pool_segs R p -> pool_segs R (delete i p).
Proof.
  unfold pool_segs. intros Hp. rewrite delete_take_drop.
  apply Forall_app. split; [apply Forall_take|apply Forall_drop]; exact Hp.
Qed.

Lemma exec_segs (R : relation State) `{!PreOrder R} sched :
  (forall e, Segs R any_request any_value (handler e)) ->
  forall l, pool_segs R (pool l) ->
  R (st l) (st (exec sched l)) /\ pool_segs R (pool (exec sched l)).
Proof.
  intros Hh. induction sched as [|a sched IH]; intros l Hp.
  - split; [reflexivity|exact Hp].
  - change (exec (a :: sched) l) with (exec sched (exec_step l a)).
    assert (Hstep : R (st l) (st (exec_step l a)) /\
                    pool_segs R (pool (exec_step l a))).
    { destruct a as [e|i answer]; simpl.
      - apply absorb_segs; [exact _|apply Hh|exact Hp].
      - destruct (pool l !! i) as [t|] eqn:Hi.
        + apply absorb_segs; [exact _| |apply pool_segs_delete; exact Hp].
          unfold pool_segs in Hp. rewrite Forall_lookup in Hp.
          exact (Hp i t Hi _ _).
        + split; [reflexivity|exact Hp]. }
    destruct Hstep as [H1 Hp1]. destruct (IH _ Hp1) as [H2 Hp2].
    split; [etransitivity; eassumption|exact Hp2].
Qed.

(** X13.  Files follow memory.  Every stretch of code of every handler
    that changes the binding map or the muted set also writes it to its
    file before the stretch ends; hence, for every schedule of the event
    loop -- events and settlements interleaved at will -- if both files
    agree with the memory at the start, they agree with it whenever the
    loop is at rest.  The same holds of the stretches of [notify],
    [startBot], [stopBot], the session handlers and the unmute command. *)
Theorem files_follow_memory (sched : list Sched) (l : Loop) :
  pool l = [] -> persisted (st l) ->
  persisted (st (exec sched l)) /\
  (forall embed ctx,
     Segs (preserves persisted) any_request any_value (notify embed ctx)) /\
  Segs (preserves persisted) any_request any_value startBot /\
  Segs (preserves persisted) any_request any_value stopBot /\
  (forall ctx,
     Segs (preserves persisted) any_request any_value (session_start ctx)) /\
  Segs (preserves persisted) any_request any_value discord_unmute.
Proof.
  intros Hpool Hl.
  pose proof startBot_persisted as Hstart.
  pose proof getOrCreateThread_persisted.
  split; [|split; [|split; [|split; [|split]]]].
  - destruct (exec_segs (preserves persisted) sched handler_persisted l) as [H1 _].
    + rewrite Hpool. constructor.
    + apply H1. exact Hl.
  - intros embed ctx. unfold notify. segs_blocks synced.
  - exact Hstart.
  - unfold stopBot. segs_blocks synced.
  - intros ctx. unfold session_start, adopt_session. segs_blocks synced.
  - unfold discord_unmute, saveMuted, channels_fetch. segs_blocks synced.
Qed.

Ltac undone :=
  intros; unfold never_undone; simpl; repeat split; set_solver.

Lemma getOrCreateThread_never_undone ctx firstEmbed :
  Segs never_undone any_request any_value (getOrCreateThread ctx firstEmbed).
Proof.
  unfold getOrCreateThread, try_existing, create_thread, makeThreadName,
    channels_fetch, saveThreads.
  segs_with undone.
Qed.

Lemma handler_never_undone e :
  Segs never_undone any_request any_value (handler e).
Proof.
  pose proof getOrCreateThread_never_undone.
  assert (Hdl : forall atts parts,
    Segs never_undone any_request any_value (download_images atts parts)).
  { intros atts. induction atts as [|a atts IH]; intros parts; simpl;
      unfold downloadImageAsBase64; segs_with undone. }
  destruct e; simpl.
  - unfold messageCreate, forward_step, voice_step, transcribeVoiceMessage, pipe,
      sendUserMessage.
    segs_with undone.
  - unfold messageReactionAdd, apply_reaction, saveMuted, saveThreads.
    segs_with undone.
  - unfold agent_start. segs_with undone.
  - unfold agent_end, post_turn, auto_rename, renameCurrentThread, makeThreadName,
      generateThreadName, channels_fetch.
    segs_with undone.
  - unfold tool_result. segs_with undone.
  - unfold session_start, adopt_session, startBot, getBotToken. segs_with undone.
  - unfold session_switch, adopt_session. segs_with undone.
  - unfold session_shutdown, stopBot. segs_with undone.
Qed.

Ltac current := intros; unfold same_current; simpl; reflexivity.

Lemma getOrCreateThread_same_current ctx firstEmbed :
  Segs same_current any_request any_value (getOrCreateThread ctx firstEmbed).
Proof.
  unfold getOrCreateThread, try_existing, create_thread, makeThreadName,
    channels_fetch, saveThreads.
  segs_with current.
Qed.

(** Every handler leaves the current session alone, except for the
    assignment at the head of the two session handlers. *)
Lemma handler_same_current e s :
  segs True same_current any_request any_value
    (match e with
     | EvSessionStart ctx => set_currentSessionFile (getSessionKey ctx) s
     | EvSessionSwitch ctx => set_currentSessionFile (getSessionKey ctx) s
     | _ => s
     end)
    (handler e s).
Proof.
  pose proof getOrCreateThread_same_current.
  assert (Hdl : forall atts parts,
    Segs same_current any_request any_value (download_images atts parts)).
  { intros atts. induction atts as [|a atts IH]; intros parts; simpl;
      unfold downloadImageAsBase64; segs_with current. }
  destruct e; simpl.
  - revert s.
    change (Segs same_current any_request any_value (messageCreate message)).
    unfold messageCreate, forward_step, voice_step, transcribeVoiceMessage, pipe,
      sendUserMessage.
    segs_with current.
  - revert s.
    change (Segs same_current any_request any_value
              (messageReactionAdd reaction user)).
    unfold messageReactionAdd, apply_reaction, saveMuted, saveThreads.
    segs_with current.
  - revert s. change (Segs same_current any_request any_value agent_start).
    unfold agent_start. segs_with current.
  - revert s.
    change (Segs same_current any_request any_value (agent_end messages ctx)).
    unfold agent_end, post_turn, auto_rename, renameCurrentThread, makeThreadName,
      generateThreadName, channels_fetch.
    segs_with current.
  - revert s.
    change (Segs same_current any_request any_value (tool_result event ctx)).
    unfold tool_result. segs_with current.
  - change (session_start ctx s) with
      ((let* enabled := gets config_enabled in
        if enabled then let* _ := startBot in ret tt else ret tt)
         (adopted ctx s)).
    apply (segs_start True same_current any_request any_value _
             (adopted ctx s)); [reflexivity|].
    generalize (adopted ctx s). clear s.
    match goal with
    | |- forall s, segs _ _ _ _ s (?m s) =>
        change (Segs same_current any_request any_value m)
    end.
    unfold startBot, getBotToken. segs_with current.
  - change (session_switch ctx s) with (Done tt (adopted ctx s)).
    constructor; [reflexivity|exact I].
  - revert s. change (Segs same_current any_request any_value session_shutdown).
    unfold session_shutdown, stopBot. segs_with current.
Qed.

Lemma exec_current sched :
  forall l, pool_segs same_current (pool l) ->
  currentSessionFile (st (exec sched l))
    = session_after sched (currentSessionFile (st l)) /\
  pool_segs same_current (pool (exec sched l)).
Proof.
  induction sched as [|a sched IH]; intros l Hp.
  - split; [reflexivity|exact Hp].
  - change (exec (a :: sched) l) with (exec sched (exec_step l a)).
    assert (Hstep :
      currentSessionFile (st (exec_step l a))
        = session_after [a] (currentSessionFile (st l)) /\
      pool_segs same_current (pool (exec_step l a))).
    { destruct a as [e|i answer]; simpl.
      - destruct (absorb_segs same_current (handler e (st l)) _ (pool l)
                    (handler_same_current e (st l)) Hp) as [Hb Hq].
        split; [|exact Hq]. rewrite Hb. destruct e; reflexivity.
      - destruct (pool l !! i) as [t|] eqn:Hi.
        + destruct (absorb_segs same_current (t_k t (answer (t_req t)) (st l))
                      (st l) (delete i (pool l))) as [Hb Hq].
          * unfold pool_segs in Hp. rewrite Forall_lookup in Hp.
            exact (Hp i t Hi _ _).
          * apply pool_segs_delete. exact Hp.
          * split; [exact Hb|exact Hq].
        + split; [reflexivity|exact Hp]. }
    destruct Hstep as [H1 Hp1]. destruct (IH _ Hp1) as [H2 Hp2].
    split; [|exact Hp2]. rewrite H2, H1. reflexivity.
Qed.

(** X14.  No listener and no handler of a host event ever unmutes a thread
    or changes the configuration or the token: along every schedule of the
    event loop -- session events included -- the muted set only grows and
    the other two stay what they were.  Among the events, [session_start]
    and [session_switch] alone set the current session: after any schedule
    it is the session of the last such event, and what it was at the start
    when there was none.  (The commands are no events of the loop: the
    unmute command removes a thread from the muted set, the setup and
    toggle commands write the configuration, the setup and test commands
    set the current session.) *)
Theorem events_never_unmute (sched : list Sched) (l : Loop) :
  pool l = [] ->
  never_undone (st l) (st (exec sched l)) /\
  currentSessionFile (st (exec sched l))
    = session_after sched (currentSessionFile (st l)).
Proof.
  intros Hpool. split.
  - destruct (exec_segs never_undone sched handler_never_undone l) as [H1 _].
    + rewrite Hpool. constructor.
    + exact H1.
  - destruct (exec_current sched l) as [H1 _].
    + rewrite Hpool. constructor.
    + exact H1.
Qed.

(* ---------------------------------------------------------------- *)
(** ** The busy flag *)

Ltac busy := intros; unfold same_busy; simpl; reflexivity.

Lemma getOrCreateThread_same_busy ctx firstEmbed :
  Segs same_busy any_request any_value (getOrCreateThread ctx firstEmbed).
Proof.
  unfold getOrCreateThread, try_existing, create_thread, makeThreadName,
    channels_fetch, saveThreads.
  segs_with busy.
Qed.

Lemma handler_same_busy e s :
  segs True same_busy any_request any_value
    (match e with
     | EvAgentStart => set_isAgentBusy true s
     | EvAgentEnd _ _ => set_isAgentBusy false s
     | _ => s
     end)
    (handler e s).
Proof.
  pose proof getOrCreateThread_same_busy.
  assert (Hdl : forall atts parts,
    Segs same_busy any_request any_value (download_images atts parts)).
  { intros atts. induction atts as [|a atts IH]; intros parts; simpl;
      unfold downloadImageAsBase64; segs_with busy. }
  destruct e; simpl.
  - revert s. change (Segs same_busy any_request any_value (messageCreate message)).
    unfold messageCreate, forward_step, voice_step, transcribeVoiceMessage, pipe,
      sendUserMessage.
    segs_with busy.
  - revert s.
    change (Segs same_busy any_request any_value (messageReactionAdd reaction user)).
    unfold messageReactionAdd, apply_reaction, saveMuted, saveThreads.
    segs_with busy.
  - constructor; [reflexivity|exact I].
  - unfold agent_end. rewrite bind_modify.
    generalize (set_isAgentBusy false s). clear s.
    match goal with
    | |- forall s, segs _ _ _ _ s (?m s) =>
        change (Segs same_busy any_request any_value m)
    end.
    unfold post_turn, auto_rename, renameCurrentThread, makeThreadName,
      generateThreadName, channels_fetch.
    segs_with busy.
  - revert s. change (Segs same_busy any_request any_value (tool_result event ctx)).
    unfold tool_result. segs_with busy.
  - revert s. change (Segs same_busy any_request any_value (session_start ctx)).
    unfold session_start, adopt_session, startBot, getBotToken. segs_with busy.
  - revert s. change (Segs same_busy any_request any_value (session_switch ctx)).
    unfold session_switch, adopt_session. segs_with busy.
  - revert s. change (Segs same_busy any_request any_value session_shutdown).
    unfold session_shutdown, stopBot. segs_with busy.
Qed.

Lemma exec_busy sched :
  forall l, pool_segs same_busy (pool l) ->
  isAgentBusy (st (exec sched l)) = busy_after sched (isAgentBusy (st l)) /\
  pool_segs same_busy (pool (exec sched l)).
Proof.
  induction sched as [|a sched IH]; intros l Hp.
  - split; [reflexivity|exact Hp].
  - change (exec (a :: sched) l) with (exec sched (exec_step l a)).
    assert (Hstep :
      isAgentBusy (st (exec_step l a)) = busy_after [a] (isAgentBusy (st l)) /\
      pool_segs same_busy (pool (exec_step l a))).
    { destruct a as [e|i answer]; simpl.
      - destruct (absorb_segs same_busy (handler e (st l)) _ (pool l)
                    (handler_same_busy e (st l)) Hp) as [Hb Hq].
        split; [|exact Hq]. rewrite Hb. destruct e; reflexivity.
      - destruct (pool l !! i) as [t|] eqn:Hi.
        + destruct (absorb_segs same_busy (t_k t (answer (t_req t)) (st l))
                      (st l) (delete i (pool l))) as [Hb Hq].
          * unfold pool_segs in Hp. rewrite Forall_lookup in Hp.
            exact (Hp i t Hi _ _).
          * apply pool_segs_delete. exact Hp.
          * split; [exact Hb|exact Hq].
        + split; [reflexivity|exact Hp]. }
    destruct Hstep as [H1 Hp1]. destruct (IH _ Hp1) as [H2 Hp2].
    split; [|exact Hp2]. rewrite H2, H1. reflexivity.
Qed.

(** X15.  The busy flag follows the turn events.  Under every schedule of
    the event loop -- messages, reactions, tool results and the settlements
    of whatever the handlers await, interleaved at will -- the busy flag is
    set exactly when the last turn event dispatched was [agent_start], is
    clear when it was [agent_end], and is what it was at the start when
    there was none: no other stretch of code of any handler touches the
    flag.  [agent_start] also records the time of the clock. *)
Theorem busy_flag_follows_turn_events (sched : list Sched) (l : Loop) :
  pool l = [] ->
  isAgentBusy (st (exec sched l)) = busy_after sched (isAgentBusy (st l)) /\
  forall s, agent_start s = Done tt (set_isAgentBusy true (set_agentStartTime (clock s) s)).
Proof.
  intros Hpool. split; [|reflexivity].
  apply exec_busy. rewrite Hpool. constructor.
Qed.

(* ---------------------------------------------------------------- *)
(** ** Generated thread names *)

Ltac calm := intros; first [ reflexivity | unfold flag_stays; simpl; tauto ].

Lemma getOrCreateThread_calm ctx firstEmbed :
  Segs flag_stays no_generation any_value (getOrCreateThread ctx firstEmbed).
Proof.
  unfold getOrCreateThread, try_existing, create_thread, makeThreadName,
    channels_fetch, saveThreads.
  segs_with calm.
Qed.

Lemma renameCurrentThread_calm name :
  Segs flag_stays no_generation any_value (renameCurrentThread name).
Proof. unfold renameCurrentThread, channels_fetch. segs_with calm. Qed.

(** The renaming block either never asks for a name, or -- the flag being
    clear -- sets the flag and asks, and does not ask again. *)
Lemma auto_rename_generation ctx s :
  segs True flag_stays no_generation any_value s (auto_rename ctx s) \/
  (threadAutoNamed s = false /\
   exists k,
     auto_rename ctx s
       = Susp (ReqGenerateThreadName ctx) (set_threadAutoNamed true s) k /\
     forall x s', segs True flag_stays no_generation any_value s' (k x s')).
Proof.
  pose proof renameCurrentThread_calm as Hrename.
  unfold auto_rename. rewrite bind_gets.
  destruct (_ && _); [|left; constructor; [intros H; exact H|exact I]].
  rewrite !bind_gets. cbv zeta.
  destruct (_ && _).
  - left.
    match goal with
    | |- segs _ _ _ _ s (?m s) =>
        assert (Hm : Segs flag_stays no_generation any_value m);
          [|exact (Hm s)]
    end.
    unfold makeThreadName. segs_with calm.
  - destruct (threadAutoNamed s) eqn:Hflag.
    + left. constructor; [intros H; exact H|exact I].
    + destruct (match pi_sessionName s with
                | Some n => Js.truthy n
                | None => false
                end);
        [left; constructor; [intros H; exact H|exact I]|].
      right. split; [reflexivity|].
      unfold generateThreadName, bind, modify, await. simpl.
      eexists. split; [reflexivity|].
      intros [generated|err] s'; simpl.
      * destruct generated as [g|];
          [|constructor; [intros H; exact H|exact I]].
        destruct (Js.truthy g);
          [|constructor; [intros H; exact H|exact I]].
        eapply segs_bind; [exact _|apply Hrename|].
        intros ok _. apply Segs_ret; [exact _|exact I].
      * constructor; [exact I|intros H; exact H].
Qed.

Lemma agent_end_generation messages ctx s :
  segs True flag_stays no_generation any_value s (agent_end messages ctx s) \/
  (threadAutoNamed s = false /\
   exists s1 k,
     agent_end messages ctx s = Susp (ReqGenerateThreadName ctx) s1 k /\
     threadAutoNamed s1 = true /\
     forall x s', segs True flag_stays no_generation any_value s' (k x s')).
Proof.
  pose proof getOrCreateThread_calm as Hresolve.
  unfold agent_end. rewrite bind_modify.
  set (s0 := set_isAgentBusy false s).
  match goal with
  | |- context [bind (auto_rename ctx) ?K s0] =>
      change (bind (auto_rename ctx) K s0) with (res_bind (auto_rename ctx s0) K);
      assert (HK : forall a, Segs flag_stays no_generation any_value (K a));
        [|revert HK; generalize K; intros rest Hrest]
  end.
  { intros []. unfold post_turn. segs_with calm. }
  destruct (auto_rename_generation ctx s0) as [Hquiet|(Hflag & k & Heq & Hk)].
  - left. apply (segs_start True flag_stays no_generation any_value s s0);
      [intros H; exact H|].
    eapply segs_bind; [exact _|exact Hquiet|]. intros a _. apply Hrest.
  - right. split; [exact Hflag|]. rewrite Heq. simpl.
    eexists _, _. split; [reflexivity|]. split; [reflexivity|].
    intros x s'. eapply segs_bind; [exact _|apply Hk|]. intros a _. apply Hrest.
Qed.

(** Apart from the [agent_end] handler, no handler asks for a name, and
    none clears the flag once the assignments at the head of the session
    handlers are made. *)
Lemma handler_calm e s :
  (forall messages ctx, e <> EvAgentEnd messages ctx) ->
  segs True flag_stays no_generation any_value
    (match e with
     | EvSessionStart ctx => adopted ctx s
     | EvSessionSwitch ctx => adopted ctx s
     | _ => s
     end)
    (handler e s).
Proof.
  pose proof getOrCreateThread_calm.
  assert (Hdl : forall atts parts,
    Segs flag_stays no_generation any_value (download_images atts parts)).
  { intros atts. induction atts as [|a atts IH]; intros parts; simpl;
      unfold downloadImageAsBase64; segs_with calm. }
  intros He. destruct e; simpl.
  - revert s.
    change (Segs flag_stays no_generation any_value (messageCreate message)).
    unfold messageCreate, forward_step, voice_step, transcribeVoiceMessage, pipe,
      sendUserMessage.
    segs_with calm.
  - revert s.
    change (Segs flag_stays no_generation any_value
              (messageReactionAdd reaction user)).
    unfold messageReactionAdd, apply_reaction, saveMuted, saveThreads.
    segs_with calm.
  - revert s. change (Segs flag_stays no_generation any_value agent_start).
    unfold agent_start. segs_with calm.
  - exfalso. eapply He. reflexivity.
  - revert s.
    change (Segs flag_stays no_generation any_value (tool_result event ctx)).
    unfold tool_result. segs_with calm.
  - change (session_start ctx s) with
      ((let* enabled := gets config_enabled in
        if enabled then let* _ := startBot in ret tt else ret tt)
         (adopted ctx s)).
    generalize (adopted ctx s). clear s.
    match goal with
    | |- forall s, segs _ _ _ _ s (?m s) =>
        change (Segs flag_stays no_generation any_value m)
    end.
    unfold startBot, getBotToken. segs_with calm.
  - change (session_switch ctx s) with (Done tt (adopted ctx s)).
    apply segs_done; [intros Hflag; exact Hflag|exact I].
  - revert s. change (Segs flag_stays no_generation any_value session_shutdown).
    unfold session_shutdown, stopBot. segs_with calm.
Qed.

Lemma absorb_calm (r : Res unit) s0 p :
  segs True flag_stays no_generation any_value s0 r -> pool_calm p ->
  asks_generation (Some r) = false /\
  flag_stays s0 (st (absorb r p)) /\ pool_calm (pool (absorb r p)).
Proof.
  intros Hr Hp. destruct Hr; simpl; repeat split; try assumption.
  apply Forall_app. split; [assumption|]. constructor; [|constructor].
  simpl. assumption.
Qed.

Lemma session_events_cons a sched :
  session_events (a :: sched)
    = ((if is_session_event a then 1 else 0) + session_events sched)%nat.
Proof. unfold session_events. simpl. destruct (is_session_event a); reflexivity. Qed.

(** Between two session events a name is asked at most once. *)
Lemma exec_generations sched :
  forall l, pool_calm (pool l) ->
  (generations sched l
     <= (if threadAutoNamed (st l) then 0 else 1) + session_events sched)%nat.
Proof.
  induction sched as [|a sched IH]; intros l Hp.
  - simpl. lia.
  - assert (Hstep :
      (asks_generation (step_res l a) = false /\
       (is_session_event a = true \/ flag_stays (st l) (st (exec_step l a))) /\
       pool_calm (pool (exec_step l a))) \/
      (threadAutoNamed (st l) = false /\
       threadAutoNamed (st (exec_step l a)) = true /\
       pool_calm (pool (exec_step l a)))).
    { destruct a as [e|i answer].
      - destruct e as [m|reaction user| |messages ctx|event ctx|ctx|ctx|].
        1-3, 5, 8:
          left;
          match goal with
          | |- context [step_res ?l0 (Dispatch ?e)] =>
              destruct (absorb_calm (handler e (st l0)) _ (pool l0)
                          (handler_calm e (st l0) ltac:(discriminate)) Hp)
                as (Hask & Hflag & Hq)
          end;
          (split; [exact Hask|]); (split; [right; exact Hflag|exact Hq]).
        2-3:
          left;
          match goal with
          | |- context [step_res ?l0 (Dispatch ?e)] =>
              destruct (absorb_calm (handler e (st l0)) _ (pool l0)
                          (handler_calm e (st l0) ltac:(discriminate)) Hp)
                as (Hask & Hflag & Hq)
          end;
          (split; [exact Hask|]); (split; [left; reflexivity|exact Hq]).
        destruct (agent_end_generation messages ctx (st l))
          as [Hquiet|(Hflag & s1 & k & Heq & Hs1 & Hk)].
        + left. destruct (absorb_calm _ _ (pool l) Hquiet Hp)
            as (Hask & Hflag & Hq).
          split; [exact Hask|]. split; [right; exact Hflag|exact Hq].
        + right. split; [exact Hflag|]. simpl. rewrite Heq. simpl.
          split; [exact Hs1|]. apply Forall_app. split; [exact Hp|].
          constructor; [|constructor]. exact Hk.
      - left. simpl. destruct (pool l !! i) as [t|] eqn:Hi.
        + destruct (absorb_calm (t_k t (answer (t_req t)) (st l)) (st l)
                      (delete i (pool l))) as (Hask & Hflag & Hq).
          * unfold pool_calm in Hp. rewrite Forall_lookup in Hp.
            exact (Hp i t Hi _ _).
          * unfold pool_calm in *. rewrite delete_take_drop.
            apply Forall_app. split; [apply Forall_take|apply Forall_drop];
              exact Hp.
          * split; [exact Hask|]. split; [right; exact Hflag|exact Hq].
        + split; [reflexivity|]. split; [right; intros H; exact H|exact Hp]. }
    simpl generations. rewrite session_events_cons.
    destruct Hstep as [(Hask & Hflag & Hp1)|(Hflag & Hflag1 & Hp1)].
    + rewrite Hask. specialize (IH _ Hp1). destruct Hflag as [Hsession|Hflag].
      * rewrite Hsession.
        destruct (threadAutoNamed (st (exec_step l a)));
          destruct (threadAutoNamed (st l)); lia.
      * unfold flag_stays in Hflag.
        destruct (threadAutoNamed (st l)).
        -- rewrite Hflag in IH by reflexivity. lia.
        -- destruct (threadAutoNamed (st (exec_step l a))); lia.
    + specialize (IH _ Hp1). rewrite Hflag1 in IH. rewrite Hflag.
      destruct (asks_generation _); lia.
Qed.

(** X16.  Between two session events a thread name is asked of the model
    at most once.  Under every schedule of the event loop the number of
    stretches that end by asking for a generated name is at most one more
    than the number of [session_start] and [session_switch] events of the
    schedule, and at most that number if the auto-naming flag is set at the
    start: only the first stretch of the [agent_end] handler asks, only
    while the flag is clear, and it sets the flag before it asks; no
    stretch of any handler clears the flag -- also when the generation
    fails or the renaming fails -- except the head of the two session
    handlers, which sets it to whether the session has a name.  So a
    session that is switched away from and back to can be asked about
    again.  (The rename command, which is no event of the loop, asks on
    demand.) *)
Theorem thread_name_is_generated_once_between_sessions
    (sched : list Sched) (l : Loop) :
  pool l = [] ->
  (generations sched l <= 1 + session_events sched)%nat /\
  (threadAutoNamed (st l) = true ->
   (generations sched l <= session_events sched)%nat) /\
  (session_events sched = 0%nat ->
   (generations sched l <= 1)%nat /\
   (threadAutoNamed (st l) = true -> generations sched l = 0%nat)).
Proof.
  intros Hpool.
  assert (H := exec_generations sched l).
  rewrite Hpool in H. assert (Hnil : pool_calm []) by constructor.
  specialize (H Hnil).
  split; [|split].
  - destruct (threadAutoNamed (st l)); lia.
  - intros Hflag. rewrite Hflag in H. lia.
  - intros Hnone. rewrite Hnone in H. split.
    + destruct (threadAutoNamed (st l)); lia.
    + intros Hflag. rewrite Hflag in H. lia.
Qed.

(* ---------------------------------------------------------------- *)
(** ** Connecting and disconnecting *)

(** X17.  [stopBot], and with it the [session_shutdown] handler, always
    ends normally and leaves the bot disconnected: without a client it does
    nothing at all; with a client it asks for the destruction of the
    connection once and, whether that succeeds or fails, clears [client]
    and [botUserId] and touches nothing else. *)
Theorem stopBot_disconnects (env : Oracle) (s : State) :
  let r := run env session_shutdown s in
  final r = Returned tt /\ client (last r) = None /\
  (client s = None -> stopBot s = Done tt s) /\
  (is_Some (client s) ->
     requests r = [ReqDestroy] /\
     last r = set_botUserId None (set_client None s)).
Proof using Type.
  clear node.
  cbv zeta. unfold run, session_shutdown, stopBot. rewrite bind_gets.
  destruct (client s) as [c|] eqn:Hc.
  - unfold await_ignoring, try_catch, bind, await, modify, ret. simpl.
    destruct (env 0%nat ReqDestroy) as [[]|e]; simpl;
      (split; [reflexivity|]); (split; [reflexivity|]);
      (split; [discriminate|]); intros _; split; reflexivity.
  - simpl. split; [reflexivity|]. split; [exact Hc|].
    split; [reflexivity|]. intros [c Hsome]. discriminate Hsome.
Qed.

Lemma rebuild_watched_spec (th w : gmap jsstring jsstring) :
  (forall sk tid, th !! sk = Some tid ->
     exists sk', rebuild_watched th w !! tid = Some sk' /\ th !! sk' = Some tid) /\
  (forall tid, (forall sk, th !! sk <> Some tid) ->
     rebuild_watched th w !! tid = w !! tid).
Proof using Type.
  clear node.
  unfold rebuild_watched.
  apply (map_fold_weak_ind
           (fun (acc : gmap jsstring jsstring) (m : gmap jsstring jsstring) =>
              (forall sk tid, m !! sk = Some tid ->
                 exists sk', acc !! tid = Some sk' /\ m !! sk' = Some tid) /\
              (forall tid, (forall sk, m !! sk <> Some tid) ->
                 acc !! tid = w !! tid))).
  - split.
    + intros sk tid H. rewrite lookup_empty in H. discriminate H.
    + intros tid _. reflexivity.
  - intros i x m acc Hi [IH1 IH2]. split.
    + intros sk tid Hsk. destruct (decide (tid = x)) as [->|Hne].
      * exists i. rewrite !lookup_insert_eq. split; reflexivity.
      * assert (Hsk' : m !! sk = Some tid).
        { destruct (decide (sk = i)) as [->|Hki].
          - rewrite lookup_insert_eq in Hsk. congruence.
          - rewrite lookup_insert_ne in Hsk by congruence. exact Hsk. }
        destruct (IH1 sk tid Hsk') as (sk' & Hacc & Hm).
        exists sk'. rewrite lookup_insert_ne by congruence. split; [exact Hacc|].
        rewrite lookup_insert_ne; [exact Hm|]. intros ->. congruence.
    + intros tid Hnone. assert (Hne : x <> tid).
      { intros ->. apply (Hnone i). apply lookup_insert_eq. }
      rewrite lookup_insert_ne by exact Hne. apply IH2.
      intros sk Hsk. apply (Hnone sk).
      rewrite lookup_insert_ne; [exact Hsk|]. intros ->. congruence.
Qed.

(** X18.  When the login and the fetch of the configured channel succeed,
    [startBot] returns [{ok: true}] with the client in place, the user id
    of the bot recorded, and [isForum] telling whether the channel is a
    forum (also when the fetch yields no channel at all: then [isForum] is
    false and the result is still [{ok: true}]).  The index is rebuilt from
    the binding map: every thread some session is bound to is watched
    afterwards, under a session that is bound to it, and the entries of all
    other threads are what they were.  The binding map is not touched. *)
Theorem startBot_rebuilds_the_index (env : Oracle) (s : State)
    (token : jsstring) (cfg : DiscordConfig) (userId : option jsstring)
    (channel : option Channel) :
  bot_token s = Some token -> client s = None -> config s = Some cfg ->
  (forall n, env n (ReqLogin token) = Resolved userId) ->
  (forall n, env n (ReqFetchChannel (channelId cfg)) = Resolved channel) ->
  let r := run env startBot s in
  final r = Returned {| ok := true; error := None |} /\
  client (last r) = Some GatewayClient /\
  botUserId (last r) = userId /\
  isForum (last r) =
    match channel with
    | Some ch => match ch_type ch with GuildForum => true | _ => false end
    | None => false
    end /\
  threads (last r) = threads s /\
  (forall sk tid, threads s !! sk = Some tid ->
     exists sk', watchedThreads (last r) !! tid = Some sk' /\
                 threads s !! sk' = Some tid) /\
  (forall tid, (forall sk, threads s !! sk <> Some tid) ->
     watchedThreads (last r) !! tid = watchedThreads s !! tid).
Proof using Type.
  clear node.
  intros Htok Hc Hcfg Hlogin Hfetch. cbv zeta.
  unfold run, startBot, getBotToken, bind, gets, try_catch, modify, await.
  simpl. rewrite Htok. simpl. rewrite Hc. simpl. rewrite Hlogin. simpl.
  rewrite Hcfg. simpl. rewrite Hfetch. simpl.
  destruct (rebuild_watched_spec (threads s) (watchedThreads s)) as [H1 H2].
  repeat split; assumption.
Qed.

(* ---------------------------------------------------------------- *)
(** ** Muting and unmuting *)

Lemma binding_of_current s sk tid :
  currentSessionFile s = Some sk -> binding_of s (Some sk) = Some tid ->
  binding_of s (currentSessionFile s) = Some tid.
Proof. intros -> H. exact H. Qed.

(** X19.  The unmute command, for a session whose thread is muted: the
    thread leaves the muted set and the set is written to its file before
    anything is asked of the platform; the binding is untouched; the
    command ends normally whether or not the confirmation can be posted.
    It undoes the mute reaction: if the thread was not muted before the
    reaction, the muted set is what it was before.  From then on the thread
    resolution of the session asks the platform for the thread again. *)
Theorem unmute_resumes_notifications (env : Oracle) (s : State) (tid : jsstring) :
  binding_of s (currentSessionFile s) = Some tid ->
  tid ∈ mutedThreads s ->
  let r := run env discord_unmute s in
  final r = Returned tt /\
  last r = set_file_muted (mutedThreads s ∖ {[tid]})
             (set_mutedThreads (mutedThreads s ∖ {[tid]}) s) /\
  Forall (fun p => snd p = last r) (trace r) /\
  (forall s0, s = muted_state tid s0 -> tid ∉ mutedThreads s0 ->
     mutedThreads (last r) = mutedThreads s0 /\
     file_muted (last r) = mutedThreads s0) /\
  (forall ctx firstEmbed,
     getSessionFile ctx = currentSessionFile s ->
     is_Some (client s) -> is_Some (config s) ->
     exists k,
       getOrCreateThread ctx firstEmbed (last r)
         = Susp (ReqFetchChannel tid) (last r) k).
Proof using Type.
  intros Hbound Hmuted. cbv zeta.
  set (s1 := set_file_muted (mutedThreads s ∖ {[tid]})
               (set_mutedThreads (mutedThreads s ∖ {[tid]}) s)).
  assert (Hrun : final (run env discord_unmute s) = Returned tt /\
                 last (run env discord_unmute s) = s1 /\
                 Forall (fun p => snd p = s1) (trace (run env discord_unmute s))).
  { unfold run, discord_unmute. rewrite bind_gets, Hbound. rewrite bind_gets.
    rewrite bool_decide_eq_true_2 by exact Hmuted.
    change (negb true) with false. cbv iota.
    unfold saveMuted. rewrite !bind_modify.
    match goal with
    | |- context [bind (gets client) _ ?st] => change st with s1
    end.
    rewrite bind_gets.
    change (client s1) with (client s).
    destruct (client s) as [c|] eqn:Hc; [|repeat split; constructor].
    unfold try_catch, channels_fetch, bind, gets, await, ret. simpl.
    rewrite Hc. simpl.
    destruct (env 0%nat (ReqFetchChannel tid)) as [[th|]|e]; simpl;
      try solve [repeat split; repeat constructor].
    destruct (isThread th); simpl; [|repeat split; repeat constructor].
    destruct (env 1%nat _) as [[]|e]; simpl; repeat split; repeat constructor. }
  destruct Hrun as (Hfinal & Hlast & Htrace). rewrite Hlast.
  split; [exact Hfinal|]. split; [reflexivity|]. split; [exact Htrace|]. split.
  - intros s0 -> Hnot. simpl.
    assert (Hset : ({[tid]} ∪ mutedThreads s0) ∖ {[tid]} = mutedThreads s0).
    { apply set_eq. intros x.
      rewrite elem_of_difference, elem_of_union, elem_of_singleton.
      split; [intros [[->|Hx] Hne]; [contradiction Hne; reflexivity|exact Hx]|].
      intros Hx. split; [right; exact Hx|]. intros ->. contradiction. }
    split; exact Hset.
  - intros ctx firstEmbed Hctx [c Hc] [cfg Hcfg].
    unfold getOrCreateThread. rewrite !bind_gets.
    change (client s1) with (client s). change (config s1) with (config s).
    rewrite Hc, Hcfg. cbv iota zeta. rewrite bind_gets.
    unfold getSessionKey. rewrite Hctx.
    change (binding_of s1 (currentSessionFile s))
      with (binding_of s (currentSessionFile s)).
    rewrite Hbound. rewrite bind_gets.
    rewrite bool_decide_eq_false_2
      by (simpl; rewrite elem_of_difference, elem_of_singleton; tauto).
    cbv iota. unfold try_existing, try_catch, channels_fetch, bind, gets, await.
    simpl. rewrite Hc. simpl. eexists. reflexivity.
Qed.

(** X20.  After the mute+delete reaction on the thread of the current
    session the session starts over: the thread stays in the muted set and
    the unmute command cannot take it out (the session is no longer bound
    to it, so the command does nothing); messages written into the thread
    are dropped, since the index no longer knows it; and the next thread
    resolution of the session, instead of staying silent as after the mute
    reaction, goes straight to the configured channel to create a new
    thread. *)
Theorem mute_delete_starts_over (s : State) (tid sk : jsstring) :
  Js.truthy sk = true -> currentSessionFile s = Some sk ->
  let s' := muted_unbound_state tid sk s in
  tid ∈ mutedThreads s' /\
  discord_unmute s' = Done tt s' /\
  (forall m, ch_id (msg_channel m) = tid -> messageCreate m s' = Done tt s') /\
  (forall ctx firstEmbed c cfg,
     getSessionFile ctx = Some sk -> client s = Some c -> config s = Some cfg ->
     exists k,
       getOrCreateThread ctx firstEmbed s'
         = Susp (ReqFetchChannel (channelId cfg)) s' k).
Proof.
  intros Hsk Hcur. cbv zeta.
  set (s' := muted_unbound_state tid sk s).
  assert (Hunbound : binding_of s' (Some sk) = None).
  { unfold binding_of. rewrite Hsk. subst s'. simpl.
    rewrite lookup_delete_eq. reflexivity. }
  split; [subst s'; simpl; set_solver|]. split; [|split].
  - unfold discord_unmute. rewrite bind_gets.
    change (currentSessionFile s') with (currentSessionFile s).
    rewrite Hcur, Hunbound. reflexivity.
  - intros m Hm. apply messageCreate_rejected.
    unfold accepted. rewrite Hm. subst s'. simpl. rewrite lookup_delete_eq.
    apply andb_false_r.
  - intros ctx firstEmbed c cfg Hctx Hc Hcfg.
    unfold getOrCreateThread. rewrite !bind_gets.
    change (client s') with (client s). change (config s') with (config s).
    rewrite Hc, Hcfg. cbv iota zeta. rewrite bind_gets.
    unfold getSessionKey. rewrite Hctx, Hunbound. rewrite bind_gets. cbv iota.
    unfold bind at 1. unfold ret at 1. simpl res_bind.
    assert (Hname : exists name, makeThreadName ctx s' = Done name s').
    { unfold makeThreadName, bind, gets, ret. simpl.
      destruct (pi_sessionName s) as [n|]; [destruct (Js.truthy n)|];
        eexists; reflexivity. }
    destruct Hname as [name Hname]. unfold bind. rewrite Hname. simpl.
    unfold create_thread, try_catch, bind, gets, await. simpl.
    rewrite Hc, Hcfg. simpl. eexists. reflexivity.
Qed.

(* ---------------------------------------------------------------- *)
(** ** The thread of a session that is alive *)


(** X22.  A failure to un-archive counts as a stale binding.  When the
    bound thread is fetched, is archived, and the request to un-archive it
    is rejected, [getOrCreateThread] removes the binding and the index
    entry of the thread and writes the binding map to its file, and then
    goes on to the configured channel to create a new thread: every later
    request is made in a state in which the session is no longer bound. *)
Theorem failed_unarchive_evicts ctx firstEmbed (env : Oracle) s c cfg sk tid th err :
  client s = Some c -> config s = Some cfg ->
  getSessionFile ctx = Some sk -> Js.truthy sk = true ->
  threads s !! sk = Some tid -> Js.truthy tid = true ->
  tid ∉ mutedThreads s ->
  (forall n, env n (ReqFetchChannel tid) = Resolved (Some th)) ->
  isThread th = true -> ch_archived th = true ->
  (forall n, env n (ReqSetArchived (ch_id th) false) = Rejected err) ->
  let r := run env (getOrCreateThread ctx firstEmbed) s in
  let evicted :=
    set_file_threads (delete sk (threads s))
      (set_watchedThreads (delete tid (watchedThreads s))
         (set_threads (delete sk (threads s)) s)) in
  exists rest,
    trace r = (ReqFetchChannel tid, s)
              :: (ReqSetArchived (ch_id th) false, s)
              :: (ReqFetchChannel (channelId cfg), evicted) :: rest /\
    Forall (fun p => threads (snd p) !! sk = None
                     /\ file_threads (snd p) = threads (snd p)) rest.
Proof.
  intros Hc Hcfg Hctx Hsk Hb Ht Hm Hfetch Hthread Harchived Harch. cbv zeta.
  set (evicted := set_file_threads (delete sk (threads s))
      (set_watchedThreads (delete tid (watchedThreads s))
         (set_threads (delete sk (threads s)) s))).
  assert (Hgone : threads evicted !! sk = None)
    by (subst evicted; simpl; apply lookup_delete_eq).
  unfold run, getOrCreateThread, bind, gets, ret. simpl.
  rewrite Hc, Hcfg. simpl. unfold getSessionKey. rewrite Hctx.
  rewrite (binding_of_Some s sk tid) by assumption.
  rewrite bool_decide_eq_false_2 by assumption. simpl.
  unfold try_existing, try_catch, channels_fetch, bind, gets, await, ret. simpl.
  rewrite Hc. simpl. rewrite Hfetch. simpl. rewrite Hthread, Harchived. simpl.
  rewrite Harch. simpl. rewrite Hsk. simpl. fold evicted.
  assert (Hname : exists name, makeThreadName ctx evicted = Done name evicted).
  { unfold makeThreadName, bind, gets, ret. simpl.
    destruct (pi_sessionName s) as [n|]; [destruct (Js.truthy n)|];
      eexists; reflexivity. }
  destruct Hname as [name ->]. simpl.
  unfold create_thread, try_catch, bind, gets, await, modify, saveThreads. simpl.
  rewrite Hc, Hcfg. simpl.
  destruct (env 2%nat (ReqFetchChannel (channelId cfg))) as [[channel|]|e]; simpl;
    try solve [eexists; split; [reflexivity|constructor]].
  destruct (ch_type channel); simpl;
    try solve [eexists; split; [reflexivity|constructor]].
  - match goal with
    | |- context [env 3%nat ?q] => destruct (env 3%nat q) as [fresh|e]
    end; simpl;
      [|eexists; split; [reflexivity|repeat constructor; assumption]].
    destruct firstEmbed as [e|]; simpl.
    + match goal with
      | |- context [env 4%nat ?q] => destruct (env 4%nat q) as [[]|e']
      end; simpl; rewrite ?Hsk; simpl;
        eexists; (split; [reflexivity|repeat constructor; assumption]).
    + rewrite Hsk. simpl.
      eexists; (split; [reflexivity|repeat constructor; assumption]).
  - match goal with
    | |- context [env 3%nat ?q] => destruct (env 3%nat q) as [fresh|e]
    end; simpl; rewrite ?Hsk; simpl;
      eexists; (split; [reflexivity|repeat constructor; assumption]).
Qed.

(** X23.  With the bot disabled or disconnected the host events are
    silent: the [agent_end] handler only clears the busy flag, the
    [tool_result] handler does nothing, and neither awaits anything. *)
Theorem disabled_bot_stays_silent (s : State) :
  config_enabled s && bool_decide (is_Some (client s)) = false ->
  (forall messages ctx,
     agent_end messages ctx s = Done tt (set_isAgentBusy false s)) /\
  (forall event ctx, tool_result event ctx s = Done tt s).
Proof.
  intros Hoff. split.
  - intros messages ctx. unfold agent_end. rewrite bind_modify.
    unfold auto_rename. unfold bind at 1. rewrite bind_gets.
    change (config_enabled (set_isAgentBusy false s)) with (config_enabled s).
    change (client (set_isAgentBusy false s)) with (client s).
    rewrite Hoff. simpl. unfold ret. simpl. rewrite bind_gets.
    change (config_enabled (set_isAgentBusy false s)) with (config_enabled s).
    change (client (set_isAgentBusy false s)) with (client s).
    rewrite Hoff. reflexivity.
  - intros event ctx. unfold tool_result. rewrite bind_gets, Hoff. reflexivity.
Qed.

(* ---------------------------------------------------------------- *)
(** ** Notifications *)

Lemma getOrCreateThread_no_embed embed ctx :
  Segs any_change (fun q => ~ carries embed q) any_value
    (getOrCreateThread ctx None).
Proof.
  unfold getOrCreateThread, try_existing, create_thread, makeThreadName,
    channels_fetch, saveThreads.
  segs_with ltac:(unfold not; simpl; let X := fresh in intros X; exact X).
Qed.

(** X24.  A notification is posted exactly once.  Whenever [notify]
    returns [true], exactly one of the requests it made carries the embed:
    the creation of the forum thread whose first message it is, or the post
    into the text thread that was just created, or -- when the session was
    bound already, also if the bound thread turned out to be gone and was
    replaced -- the post into the thread that was resolved. *)
Theorem notify_posts_once (env : Oracle) (embed : Embed) (ctx : Ctx) (s : State) :
  final (run env (notify embed ctx) s) = Returned true ->
  posted_once embed (requests (run env (notify embed ctx) s)).
Proof.
  unfold run, notify. rewrite !bind_gets.
  destruct (client s) as [c|] eqn:Hc; [|discriminate].
  destruct (config s) as [cfg|] eqn:Hcfg; [|discriminate].
  cbv zeta. rewrite bind_gets.
  destruct (binding_of s (getSessionKey ctx)) as [tid|] eqn:Hb.
  - match goal with
    | |- context [run_from env 0 (bind ?m ?k s)] =>
        change (bind m k s) with (res_bind (m s) k)
    end.
    rewrite run_from_bind.
    destruct (run_from_segs True any_change (fun q => ~ carries embed q)
                any_value env (getOrCreateThread ctx None s) s
                (getOrCreateThread_no_embed embed ctx s) 0%nat)
      as (_ & Hreq & _).
    set (r1 := run_from env 0 (getOrCreateThread ctx None s)) in *.
    destruct (final r1) as [[th|]|e]; [| |discriminate].
    + unfold try_catch, bind, await, ret. simpl.
      destruct (env (length (trace r1)) (ReqSend (ch_id th) (PEmbeds [embed])))
        as [[]|e]; simpl; [|discriminate].
      intros _. unfold requests in *. simpl. rewrite map_app. simpl.
      exists (List.map fst (trace r1)), (ReqSend (ch_id th) (PEmbeds [embed])), [].
      split; [reflexivity|]. split; [reflexivity|]. split; [exact Hreq|constructor].
    + unfold ret. simpl. discriminate.
  - match goal with
    | |- context [run_from env 0 (bind ?m ?k s)] =>
        change (bind m k s) with (res_bind (m s) k)
    end.
    unfold getOrCreateThread. rewrite !bind_gets, Hc, Hcfg. cbv iota zeta.
    rewrite !bind_gets, Hb. cbv iota.
    assert (Hname : exists name, makeThreadName ctx s = Done name s).
    { unfold makeThreadName, bind, gets, ret. simpl.
      destruct (pi_sessionName s) as [n|]; [destruct (Js.truthy n)|];
        eexists; reflexivity. }
    destruct Hname as [name Hname].
    unfold bind, ret. simpl. rewrite Hname. simpl.
    unfold create_thread, try_catch, bind, gets, await, modify, saveThreads, ret.
    simpl. rewrite Hc, Hcfg. simpl.
    destruct (env 0%nat (ReqFetchChannel (channelId cfg))) as [[channel|]|e];
      simpl; try discriminate.
    destruct (ch_type channel); simpl; try discriminate.
    + match goal with
      | |- context [env 1%nat ?q] => destruct (env 1%nat q) as [fresh|e]
      end; simpl; [|discriminate].
      match goal with
      | |- context [env 2%nat ?q] => destruct (env 2%nat q) as [[]|e]
      end; simpl; [|discriminate].
      intros _.
      destruct (getSessionKey ctx) as [sk|]; [destruct (Js.truthy sk)|]; simpl;
        (eexists [_; _], _, []; split; [reflexivity|]; split; [reflexivity|];
         split; [repeat constructor; simpl; intros H; exact H|constructor]).
    + match goal with
      | |- context [env 1%nat ?q] => destruct (env 1%nat q) as [fresh|e]
      end; simpl; [|discriminate].
      intros _.
      destruct (getSessionKey ctx) as [sk|]; [destruct (Js.truthy sk)|]; simpl;
        (eexists [_], _, []; split; [reflexivity|]; split; [reflexivity|];
         split; [repeat constructor; simpl; intros H; exact H|constructor]).
Qed.

(* ---------------------------------------------------------------- *)
(** ** Sessions *)

(** X25.  Switching the session isolates the threads.  The
    [session_switch] handler makes the session of the context the current
    one, takes over its name, and sets the auto-naming flag exactly when the
    session has a name; it awaits nothing and leaves the connection, the
    binding map and the index alone.  Afterwards a message written into a
    thread the index assigns to another session is dropped, and every
    message that is accepted comes from a thread the index assigns to the
    new session. *)
Theorem session_switch_isolates (ctx : Ctx) (s : State) :
  exists s',
    session_switch ctx s = Done tt s' /\
    currentSessionFile s' = getSessionFile ctx /\
    lastKnownSessionName s' = pi_sessionName s /\
    threadAutoNamed s' = session_named s /\
    client s' = client s /\ threads s' = threads s /\
    watchedThreads s' = watchedThreads s /\
    (forall m sk,
       watchedThreads s !! ch_id (msg_channel m) = Some sk ->
       getSessionFile ctx <> Some sk ->
       messageCreate m s' = Done tt s') /\
    (forall m, accepted s' m = true ->
       watchedThreads s !! ch_id (msg_channel m) = getSessionFile ctx).
Proof using Type.
  clear node.
  eexists. split; [reflexivity|]. simpl.
  split; [reflexivity|]. split; [reflexivity|]. split; [reflexivity|].
  split; [reflexivity|]. split; [reflexivity|]. split; [reflexivity|]. split.
  - intros m sk Hw Hother. apply messageCreate_rejected.
    unfold accepted. simpl. rewrite Hw. unfold getSessionKey.
    rewrite bool_decide_eq_false_2 by congruence.
    rewrite andb_false_r. apply andb_false_r.
  - intros m. unfold accepted. simpl. unfold getSessionKey.
    destruct (watchedThreads s !! ch_id (msg_channel m)) as [sk|];
      [|rewrite andb_false_r; discriminate].
    intros H. apply andb_true_iff in H. destruct H as [_ H].
    apply andb_true_iff in H. destruct H as [_ H].
    apply bool_decide_eq_true_1 in H. exact H.
Qed.

#[local] Instance same_session_preorder : PreOrder same_session.
Proof.
  split.
  - intros s. split; reflexivity.
  - intros s1 s2 s3 [H1 H2] [H1' H2']. unfold same_session. split; congruence.
Qed.

Lemma startBot_same_session :
  SegsE False same_session any_request any_value startBot.
Proof using Type.
  clear node.
  unfold startBot, getBotToken.
  segs_with ltac:(intros; split; reflexivity).
Qed.

(** X26.  The [session_start] handler always ends normally, also when the
    connection cannot be made; it makes the session of the context the
    current one and sets the auto-naming flag exactly when the session has
    a name, and both are still so when the handler ends.  With the bot
    disabled it asks nothing of the platform.  For a session that has a
    name already, no schedule of events that follows asks the model for a
    thread name more often than it has [session_start] and
    [session_switch] events: none asks while the session stays the current
    one. *)
Theorem session_start_adopts_the_session (env : Oracle) (ctx : Ctx) (s : State) :
  let r := run env (session_start ctx) s in
  final r = Returned tt /\
  currentSessionFile (last r) = getSessionFile ctx /\
  threadAutoNamed (last r) = session_named s /\
  (config_enabled s = false -> requests r = []) /\
  (session_named s = true ->
     forall sched,
       (generations sched (at_rest (last r)) <= session_events sched)%nat /\
       (session_events sched = 0%nat ->
        generations sched (at_rest (last r)) = 0%nat)).
Proof.
  cbv zeta.
  assert (Hrun : final (run env (session_start ctx) s) = Returned tt /\
                 currentSessionFile (last (run env (session_start ctx) s))
                   = getSessionFile ctx /\
                 threadAutoNamed (last (run env (session_start ctx) s))
                   = session_named s /\
                 (config_enabled s = false ->
                    requests (run env (session_start ctx) s) = [])).
  { set (s1 := set_threadAutoNamed (session_named s)
                 (set_lastKnownSessionName (pi_sessionName s)
                    (set_currentSessionFile (getSessionKey ctx) s))).
    assert (Hshape : session_start ctx s =
              if config_enabled s
              then res_bind (startBot s1) (fun _ => ret tt)
              else Done tt s1).
    { unfold session_start, adopt_session, bind, modify, gets. simpl.
      change (config_enabled _) with (config_enabled s).
      destruct (config_enabled s); reflexivity. }
    unfold run. rewrite Hshape.
    destruct (config_enabled s); [|repeat split].
    rewrite run_from_bind.
    destruct (run_from_segs False same_session any_request any_value env
                (startBot s1) s1 (startBot_same_session s1) 0%nat)
      as ([Hcur Hflag] & _ & _ & Hthrow).
    destruct (final (run_from env 0 (startBot s1))) as [result|e];
      [|exfalso; eapply Hthrow; reflexivity].
    unfold ret, after. simpl. rewrite Hcur, Hflag.
    repeat split. discriminate. }
  destruct Hrun as (Hfinal & Hcur & Hflag & Hoff).
  split; [exact Hfinal|]. split; [exact Hcur|]. split; [exact Hflag|].
  split; [exact Hoff|].
  intros Hnamed sched.
  assert (H := exec_generations sched (at_rest (last (run env (session_start ctx) s)))).
  simpl in H. rewrite Hflag, Hnamed in H.
  assert (Hnil : pool_calm []) by constructor. specialize (H Hnil). lia.
Qed.

(* ---------------------------------------------------------------- *)
(** ** Short turns *)

Ltac plain := first [ exact I | reflexivity | solve [repeat split] ].

Lemma auto_rename_no_embed_post ctx :
  Segs any_change no_embed_post any_value (auto_rename ctx).
Proof.
  unfold auto_rename, renameCurrentThread, makeThreadName, generateThreadName,
    channels_fetch.
  segs_with plain.
Qed.

Lemma getOrCreateThread_no_embed_post ctx :
  Segs any_change no_embed_post any_value (getOrCreateThread ctx None).
Proof.
  unfold getOrCreateThread, try_existing, create_thread, makeThreadName,
    channels_fetch, saveThreads.
  segs_with plain.
Qed.

(** X27.  A short turn gets the answer and no embed.  When the bot is
    enabled and connected, a turn that took less than the configured
    minimum -- as the clock reads when the renaming block of the
    [agent_end] handler is through, however long the handler waits before
    and after -- ends without any embed being posted anywhere, however the
    handler ends; when the renaming block returns and the thread
    resolution returns a thread, the handler ends normally, and if the
    turn has a non-empty last answer, the answer, truncated to 1900, is
    the last thing the handler posts. *)
Theorem short_turn_gets_the_answer_only (env : Oracle) (now : Clock)
    messages ctx s cfg :
  config s = Some cfg -> enabled cfg = true -> is_Some (client s) ->
  measured env now ctx s < minDurationMs cfg ->
  let r := run_clocked env now (agent_end messages ctx) s in
  Forall no_embed_post (requests r) /\
  (forall thread,
     final (renaming env now ctx s) = Returned tt ->
     final (resolution env now ctx s) = Returned (Some thread) ->
     final r = Returned tt /\
     (forall text, lastMessage_of messages = Some text -> Js.truthy text = true ->
        exists before,
          requests r =
            before ++ [ReqSend (ch_id thread) (PContent (truncateText text 1900))])).
Proof.
  intros Hcfg Hen Hc Hdur. cbv zeta.
  pose proof (agent_end_clocked env now messages ctx s cfg Hcfg Hen Hc) as Hrun.
  cbv zeta in Hrun.
  assert (Hmin : (minDurationMs cfg <=? measured env now ctx s) = false)
    by (apply Z.leb_gt; exact Hdur).
  assert (Hq1 : Forall no_embed_post (requests (renaming env now ctx s))).
  { unfold renaming, run_clocked.
    eapply (run_clocked_segs True any_change no_embed_post any_value env now);
      [intros; exact I|apply auto_rename_no_embed_post]. }
  assert (Hq2 : Forall no_embed_post (requests (resolution env now ctx s))).
  { unfold resolution.
    eapply (run_clocked_segs True any_change no_embed_post any_value env now);
      [intros; exact I|apply getOrCreateThread_no_embed_post]. }
  assert (Hposts : forall thread s', config s' = Some cfg ->
    let posts :=
      run_clocked_from env now
        (length (trace (renaming env now ctx s)
                 ++ trace (resolution env now ctx s)))
        (post_turn ctx thread (lastMessage_of messages)
           (measured env now ctx s) s') in
    final posts = Returned tt /\
    requests posts =
      match lastMessage_of messages with
      | Some m =>
          if Js.truthy m
          then [ReqSend (ch_id thread) (PContent (truncateText m 1900))]
          else []
      | None => []
      end).
  { intros thread s' Hcfg'. cbv zeta.
    destruct (post_turn_clocked env now
                (length (trace (renaming env now ctx s)
                         ++ trace (resolution env now ctx s)))
                ctx thread (lastMessage_of messages) (measured env now ctx s)
                s' cfg Hcfg') as [Hf Hq].
    rewrite Hmin, app_nil_r in Hq. split; assumption. }
  split.
  - destruct (final (renaming env now ctx s)) as [[]|e].
    + destruct (final (resolution env now ctx s)) as [[thread|]|e].
      * destruct Hrun as (s' & Hcfg' & ->).
        destruct (Hposts thread s' Hcfg') as [_ Hq].
        unfold after, requests in *. cbn [trace]. rewrite !map_app, Hq.
        apply Forall_app. split; [apply Forall_app; split; assumption|].
        destruct (lastMessage_of messages) as [m|]; [destruct (Js.truthy m)|];
          repeat constructor.
      * destruct Hrun as [_ ->]. apply Forall_app. split; assumption.
      * destruct Hrun as [_ ->]. apply Forall_app. split; assumption.
    + destruct Hrun as [_ ->]. exact Hq1.
  - intros thread Hren Hres. rewrite Hren, Hres in Hrun.
    destruct Hrun as (s' & Hcfg' & ->).
    destruct (Hposts thread s' Hcfg') as [Hf Hq].
    split; [exact Hf|].
    intros text Htext Htruthy.
    unfold after, requests in *. cbn [trace]. rewrite map_app, Hq.
    rewrite Htext, Htruthy. eexists. reflexivity.
Qed.

(* ---------------------------------------------------------------- *)
(** ** Renaming by hand *)

Lemma renameCurrentThread_run (env : Oracle) n name s :
  let r := run_from env n (renameCurrentThread name s) in
  last r = s /\
  Forall no_generation (requests r) /\
  ((final r = Returned false) \/
   (final r = Returned true /\ Exists (fun q => is_rename q = true) (requests r))).
Proof.
  cbv zeta. unfold renameCurrentThread. rewrite !bind_gets.
  destruct (client s) as [c|] eqn:Hc;
    [|split; [reflexivity|]; split; [constructor|left; reflexivity]].
  destruct (binding_of s (currentSessionFile s)) as [threadId|];
    [|split; [reflexivity|]; split; [constructor|left; reflexivity]].
  unfold try_catch, channels_fetch, bind, gets, await, ret, requests. simpl.
  rewrite Hc. simpl.
  destruct (env n (ReqFetchChannel threadId)) as [[th|]|e]; simpl;
    try solve [split; [reflexivity|]; split; [repeat constructor|left; reflexivity]].
  destruct (isThread th); simpl;
    [|split; [reflexivity|]; split; [repeat constructor|left; reflexivity]].
  match goal with
  | |- context [env (S n) ?q] => destruct (env (S n) q) as [[]|e]
  end; simpl.
  - split; [reflexivity|]. split; [repeat constructor|]. right.
    split; [reflexivity|]. apply Exists_cons_tl, Exists_cons_hd. reflexivity.
  - split; [reflexivity|]. split; [repeat constructor|left; reflexivity].
Qed.

(** X28.  The rename command.  Without a connection or without a thread
    for the current session it does nothing.  Every name it hands to the
    platform has at most 100 code units.  Given a name, it never asks the
    model for one.  And it sets the auto-naming flag only after the platform
    has accepted a new name: if the flag is clear before and set after the
    command, the command has asked for a rename (and was not refused). *)
Theorem discord_rename_marks_success (env : Oracle) (args : jsstring)
    (ctx : Ctx) (s : State) :
  let r := run env (discord_rename args ctx) s in
  (client s = None \/ binding_of s (currentSessionFile s) = None ->
     discord_rename args ctx s = Done tt s) /\
  Segs any_change within_limits any_value (discord_rename args ctx) /\
  (Js.truthy (trim args) = true -> Forall no_generation (requests r)) /\
  (threadAutoNamed s = false -> threadAutoNamed (last r) = true ->
     Exists (fun q => is_rename q = true) (requests r)).
Proof.
  cbv zeta. split; [|split; [|split]].
  - intros Hnone. unfold discord_rename. rewrite bind_gets.
    destruct (client s) as [c|]; [|reflexivity]. rewrite bind_gets.
    destruct Hnone as [Hnone|Hnone]; [discriminate Hnone|].
    rewrite Hnone. reflexivity.
  - pose proof renameCurrentThread_quiet as Hrename.
    assert (Hrename' : forall name,
      Segs any_change within_limits any_value (renameCurrentThread name)).
    { intros name. eapply Segs_weaken; [| | |apply Hrename]; auto.
      intros; exact I. }
    unfold discord_rename, generateThreadName. segs_with limits.
  - intros Hname. unfold run, discord_rename. rewrite bind_gets.
    destruct (client s) as [c|]; [|constructor]. rewrite bind_gets.
    destruct (binding_of s (currentSessionFile s)) as [tid|]; [|constructor].
    cbv zeta. rewrite Hname.
    match goal with
    | |- context [run_from env 0 (bind ?m ?k s)] =>
        change (bind m k s) with (res_bind (m s) k)
    end.
    rewrite run_from_bind.
    match goal with
    | |- context [renameCurrentThread ?name s] =>
        destruct (renameCurrentThread_run env 0 name s) as (Hlast & Hreq & Hok);
        set (r1 := run_from env 0 (renameCurrentThread name s)) in *
    end.
    destruct Hok as [Hok|[Hok _]]; rewrite Hok; unfold after, requests in *;
      simpl; rewrite app_nil_r; exact Hreq.
  - intros Hclear. unfold run, discord_rename. rewrite bind_gets.
    destruct (client s) as [c|];
      [|simpl; intros Hset; congruence]. rewrite bind_gets.
    destruct (binding_of s (currentSessionFile s)) as [tid|];
      [|simpl; intros Hset; congruence].
    cbv zeta. destruct (Js.truthy (trim args)).
    + match goal with
      | |- context [run_from env 0 (bind ?m ?k s)] =>
          change (bind m k s) with (res_bind (m s) k)
      end.
      rewrite run_from_bind.
      match goal with
      | |- context [renameCurrentThread ?name s] =>
          destruct (renameCurrentThread_run env 0 name s) as (Hlast & Hreq & Hok);
          set (r1 := run_from env 0 (renameCurrentThread name s)) in *
      end.
      destruct Hok as [Hok|[Hok Hex]]; rewrite Hok; unfold after, requests in *;
        simpl; rewrite ?app_nil_r.
      * rewrite Hlast. intros Hset. congruence.
      * intros _. exact Hex.
    + unfold generateThreadName, bind, await. simpl.
      destruct (env 0%nat (ReqGenerateThreadName ctx)) as [[g|]|e]; simpl;
        try (intros Hset; congruence).
      destruct (Js.truthy g); [|simpl; intros Hset; congruence].
      match goal with
      | |- context [run_from env 1 (res_bind (renameCurrentThread ?name s) ?k)] =>
          rewrite (run_from_bind env (renameCurrentThread name s) k 1);
          destruct (renameCurrentThread_run env 1 name s) as (Hlast & Hreq & Hok);
          set (r1 := run_from env 1 (renameCurrentThread name s)) in *
      end.
      destruct Hok as [Hok|[Hok Hex]]; rewrite Hok; unfold after, requests in *;
        simpl; rewrite ?app_nil_r.
      * rewrite Hlast. intros Hset. congruence.
      * intros _. apply Exists_cons_tl. exact Hex.
Qed.

(* ---------------------------------------------------------------- *)
(** ** Sessions without a file, and uploads *)

Lemma getOrCreateThread_sessionless ctx firstEmbed :
  getSessionFile ctx = None ->
  Segs same_state any_request any_value (getOrCreateThread ctx firstEmbed).
Proof.
  intros Hctx.
  unfold getOrCreateThread, getSessionKey, create_thread, makeThreadName.
  rewrite Hctx. unfold binding_of.
  segs_with ltac:(reflexivity).
Qed.

(** X29.  A session without a session file gets a new thread every time.
    [getOrCreateThread] then finds no binding, creates a thread whenever
    the platform lets it, and records nothing: the state is the same after
    the call as before, under any interleaving, so that the next call
    creates another thread and messages written into these threads are
    never accepted. *)
Theorem sessionless_threads_are_not_recorded ctx firstEmbed (env : Oracle)
    s c cfg fresh :
  getSessionFile ctx = None ->
  client s = Some c -> config s = Some cfg ->
  creation_succeeds env cfg firstEmbed fresh ->
  let r := run env (getOrCreateThread ctx firstEmbed) s in
  Segs same_state any_request any_value (getOrCreateThread ctx firstEmbed) /\
  final r = Returned (Some fresh) /\ last r = s /\
  Exists (fun q => is_creation q = true) (requests r).
Proof.
  intros Hctx Hc Hcfg (channel & Hchan & Hcreate). cbv zeta.
  split; [apply getOrCreateThread_sessionless; exact Hctx|].
  unfold run, getOrCreateThread, bind, gets, ret. simpl.
  rewrite Hc, Hcfg. simpl. unfold getSessionKey. rewrite Hctx. simpl.
  assert (Hname : exists name, makeThreadName ctx s = Done name s).
  { unfold makeThreadName, bind, gets, ret. simpl.
    destruct (pi_sessionName s) as [n|]; [destruct (Js.truthy n)|];
      eexists; reflexivity. }
  destruct Hname as [name ->]. simpl.
  unfold create_thread, try_catch, bind, gets, requests. simpl.
  rewrite Hc, Hcfg. simpl. rewrite Hchan. simpl.
  destruct (ch_type channel); try contradiction.
  - destruct Hcreate as [Hcreate Hsend]. simpl. rewrite Hcreate. simpl.
    destruct firstEmbed as [e|]; simpl.
    + rewrite Hsend. simpl. repeat split.
      apply Exists_cons_tl, Exists_cons_hd. reflexivity.
    + repeat split. apply Exists_cons_tl, Exists_cons_hd. reflexivity.
  - simpl. rewrite Hcreate. simpl. repeat split.
    apply Exists_cons_tl, Exists_cons_hd. reflexivity.
Qed.

#[local] Instance same_fs_preorder : PreOrder same_fs.
Proof.
  split.
  - intros s. reflexivity.
  - intros s1 s2 s3 H12 H23. unfold same_fs in *. congruence.
Qed.

Lemma getOrCreateThread_same_fs ctx :
  SegsE False same_fs plain_resolution any_value (getOrCreateThread ctx None).
Proof.
  unfold getOrCreateThread, try_existing, create_thread, makeThreadName,
    channels_fetch, saveThreads.
  segs_with ltac:(first [exact I|reflexivity]).
Qed.

Lemma run_from_catch {A} env (r : Res A) (h : jsstring -> M A) :
  forall n,
  run_from env n (res_catch r h) =
    match final (run_from env n r) with
    | Returned a =>
        {| final := Returned a; last := last (run_from env n r);
           trace := trace (run_from env n r) |}
    | Thrown e =>
        after (trace (run_from env n r))
          (run_from env (n + length (trace (run_from env n r)))
             (h e (last (run_from env n r))))
    end.
Proof.
  induction r as [a s|e s|q s k IH]; intros n; simpl.
  - reflexivity.
  - rewrite Nat.add_0_r. destruct (run_from env n (h e s)); reflexivity.
  - rewrite IH. simpl.
    destruct (final (run_from env (S n) (k (env n q) s))); simpl.
    + reflexivity.
    + rewrite <- plus_n_Sm. reflexivity.
Qed.

(** X30.  The [tool_result] handler always ends normally, and the only
    thing it sends into a thread is the upload of an image.  Every request
    it makes is either one of its thread resolution -- a channel fetched, a
    thread un-archived, a thread created, which in a forum channel posts
    the text "pi session started" with the name of the thread as the
    message that opens it -- or the upload: that one goes with a tool named
    Read, read, Write or write whose path has an image extension, and
    carries the label of the tool, the base name of the file, and the
    content the file has at the absolute path (the path itself if absolute,
    else resolved against the working directory); the file is read after
    the thread is resolved, and the thread resolution does not touch it. *)
Theorem tool_result_posts_images_only (env : Oracle) (event : ToolResult)
    (ctx : Ctx) (s : State) :
  let r := run env (tool_result event ctx) s in
  final r = Returned tt /\
  Forall (fun q =>
    plain_resolution q \/
    exists channel imagePath content,
      tool_image_path event = Some imagePath /\
      isImagePath imagePath = true /\
      fs_files s !! absPath_of ctx imagePath = Some content /\
      q = ReqSend channel
            (PFiles (label_of event ++ Js.lit " " ++ Js.backtick
                       ++ basename node (absPath_of ctx imagePath) ++ Js.backtick)
               (basename node (absPath_of ctx imagePath)) content))
    (requests r).
Proof.
  cbv zeta. unfold run, tool_result. rewrite bind_gets.
  destruct (negb _); [split; [reflexivity|constructor]|].
  destruct (tool_image_path event) as [imagePath|];
    [|split; [reflexivity|constructor]].
  destruct (isImagePath imagePath) eqn:Himg;
    [|split; [reflexivity|constructor]].
  change (negb true) with false. cbv iota zeta. fold (absPath_of ctx imagePath).
  rewrite bind_gets.
  destruct (negb _); [split; [reflexivity|constructor]|].
  unfold try_catch.
  match goal with
  | |- context [res_catch (bind ?m ?k s) ?h] =>
      change (bind m k s) with (res_bind (m s) k)
  end.
  rewrite run_from_catch, run_from_bind.
  destruct (run_from_segs False same_fs plain_resolution any_value env
              (getOrCreateThread ctx None s) s (getOrCreateThread_same_fs ctx s)
              0%nat) as (Hfs & Hreq & _ & Hthrow).
  set (r1 := run_from env 0 (getOrCreateThread ctx None s)) in *.
  assert (Hquiet : Forall (fun q =>
    plain_resolution q \/
    exists channel imagePath0 content,
      Some imagePath = Some imagePath0 /\
      isImagePath imagePath0 = true /\
      fs_files s !! absPath_of ctx imagePath0 = Some content /\
      q = ReqSend channel
            (PFiles (label_of event ++ Js.lit " " ++ Js.backtick
                       ++ basename node (absPath_of ctx imagePath0) ++ Js.backtick)
               (basename node (absPath_of ctx imagePath0)) content))
    (List.map fst (trace r1))).
  { eapply Forall_impl; [exact Hreq|]. intros q Hq. left. exact Hq. }
  destruct (final r1) as [[thread|]|e];
    [| |exfalso; eapply Hthrow; reflexivity].
  - rewrite bind_gets. unfold same_fs in Hfs. rewrite Hfs.
    destruct (fs_files s !! absPath_of ctx imagePath) as [content|] eqn:Hfile.
    + unfold await, after, requests. simpl.
      match goal with
      | |- context [env ?n (ReqSend ?c ?p)] => destruct (env n (ReqSend c p)) as [[]|e]
      end; simpl; (split; [reflexivity|]);
        rewrite ?app_nil_r, map_app; (apply Forall_app; split; [exact Hquiet|]);
        (constructor; [|constructor]); right;
        exists (ch_id thread), imagePath, content; repeat split; assumption.
    + unfold throw, after, requests. simpl. split; [reflexivity|].
      rewrite !app_nil_r. exact Hquiet.
  - unfold ret, after, requests. simpl. split; [reflexivity|].
    rewrite app_nil_r. exact Hquiet.
Qed.

End Extension.

(* ------------------------------------------------------------------ *)
(** ** The properties on the concrete session *)

Lemma muted_thread_is_not_resolved_witness :
  (forall firstEmbed,
     getOrCreateThread posix ctx1 firstEmbed state1_muted
       = Done None state1_muted) /\
  (forall embed, notify posix embed ctx1 state1_muted
       = Done false state1_muted) /\
  (forall event, tool_result posix event ctx1 state1_muted
       = Done tt state1_muted) /\
  (forall env messages,
     Forall renames_only
       (requests (run env (agent_end posix messages ctx1) state1_muted))).
Proof.
  apply (muted_thread_is_not_resolved posix ctx1 state1_muted S1 T1).
  - reflexivity.
  - reflexivity.
  - vm_compute. reflexivity.
  - reflexivity.
  - apply (bool_decide_unpack _). vm_compute. exact I.
Defined.

(** C1, counterexample.  A voice message arrives, then a plain message; the
    plain message's turn is handed to the host while the voice message is
    still being transcribed, so the turns reach the host in the opposite
    order. *)
Lemma later_text_overtakes_voice :
  arrivals schedule_overtaking = [msg_id msg_voice; msg_id msg_text] /\
  List.map origin (delivered (st (exec posix schedule_overtaking loop1)))
    = [msg_id msg_text; msg_id msg_voice] /\
  ~ in_arrival_order posix schedule_overtaking loop1.
Proof.
  split; [reflexivity|]. split; [vm_compute; reflexivity|].
  intros (ds & Hds & Hsub).
  assert (Hmap : List.map origin ds = [msg_id msg_text; msg_id msg_voice]).
  { change (delivered (st loop1)) with (@nil Delivery) in Hds.
    simpl in Hds. rewrite <- Hds. vm_compute. reflexivity. }
  rewrite Hmap in Hsub. vm_compute in Hsub.
  inversion Hsub as [|x l1 l2 Hs|x l1 l2 Hs]; subst.
  inversion Hs as [|y k1 k2 Hs'|y k1 k2 Hs']; subst; inversion Hs'.
Qed.

Lemma delivery_mode_and_plain_text_order_witness :
  plain_schedule schedule_plain = true /\
  pool loop1 = [] /\
  in_arrival_order posix schedule_plain loop1.
Proof.
  split; [reflexivity|]. split; [reflexivity|].
  apply (delivery_mode_and_plain_text_order posix schedule_plain loop1);
    reflexivity.
Defined.

(** What the host receives in [schedule_plain]: the first message as a
    follow-up (a turn was running), the second at once. *)
Example schedule_plain_delivers :
  delivered (st (exec posix schedule_plain loop1)) =
    [ {| origin := msg_id msg_text; turn := UText (msg_content msg_text);
         deliverAs := FollowUp |};
      {| origin := msg_id msg_text2; turn := UText (msg_content msg_text2);
         deliverAs := Immediate |} ].
Proof. vm_compute. reflexivity. Qed.


Lemma stale_binding_is_replaced_witness :
  stale_binding_holds_at_T1 /\
  let r := run env_T1_deleted (getOrCreateThread posix ctx1 None) state1 in
  final r = Returned (Some thread2) /\
  threads (last r) !! S1 = Some T2 /\
  watchedThreads (last r) !! T1 = None /\
  watchedThreads (last r) !! T2 = Some S1 /\
  file_threads (last r) = threads (last r).
Proof.
  assert (Hcreate : creation_succeeds env_T1_deleted config1 None thread2).
  { exists forum1. split; [intros n; reflexivity|]. intros n name message.
    reflexivity. }
  split; [split; [reflexivity|exact Hcreate]|].
  destruct (stale_binding_is_replaced posix ctx1 None env_T1_deleted
              state1 GatewayClient config1 S1 T1 (Js.lit "Unknown Channel") thread2)
    as (Hfinal & Hthreads & Hwatched & Hfile & _);
    try reflexivity; try exact Hcreate.
  - apply not_elem_of_empty.
  - cbv zeta. split; [exact Hfinal|]. rewrite Hfile, Hthreads, Hwatched.
    split; [apply lookup_insert_eq|]. split; [|split; [|reflexivity]].
    + rewrite lookup_insert_ne by (vm_compute; discriminate).
      apply lookup_delete_eq.
    + apply lookup_insert_eq.
Defined.

Lemma voice_message_round_trip_witness :
  accepted state1 msg_voice = true /\
  voiceAttachment_of msg_voice = Some audio_ogg /\
  let r := run env_transcribed (messageCreate msg_voice) state1 in
  In (ReqReply (msg_id msg_voice) (transcription_echo (Js.lit "fix the build")))
     (requests r) /\
  exists c,
    delivered (last r) = delivered state1 ++ [delivery_of state1 msg_voice c] /\
    (c = UText (Js.lit "fix the build") \/
     exists images, c = UParts (TextPart (Js.lit "fix the build") :: images) /\
                    Forall is_image_part images).
Proof.
  split; [reflexivity|]. split; [reflexivity|].
  apply (voice_message_round_trip env_transcribed msg_voice state1 audio_ogg
           eq_refl eq_refl).
  - intros k. reflexivity.
  - reflexivity.
Defined.

(** What the host receives for the voice message: the transcription. *)
Example voice_message_delivers :
  delivered (last (run env_transcribed (messageCreate msg_voice) state1)) =
    [ {| origin := msg_id msg_voice; turn := UText (Js.lit "fix the build");
         deliverAs := Immediate |} ].
Proof. vm_compute. reflexivity. Qed.

(** C6, counterexample.  A message with the text "look" and one image whose
    download fails: no image is obtained, and yet a turn -- the text alone,
    as a multi-part turn -- is handed to the host. *)
Lemma text_is_delivered_without_images :
  accepted state1 msg_look = true /\
  imageAttachments_of msg_look = [image_png] /\
  (forall k a, In a (imageAttachments_of msg_look) ->
     no_image (env_all_rejected k (ReqDownloadImage (url a)))) /\
  delivered (last (run env_all_rejected (messageCreate msg_look) state1)) =
    [ {| origin := msg_id msg_look; turn := UParts [TextPart (Js.lit "look")];
         deliverAs := Immediate |} ] /\
  delivered (last (run env_all_rejected (messageCreate msg_look) state1))
    <> delivered state1.
Proof.
  split; [reflexivity|]. split; [reflexivity|]. split; [intros k a _; exact I|].
  split; [vm_compute; reflexivity|]. vm_compute. discriminate.
Qed.

Lemma images_all_failed_witness :
  accepted state1 msg_look = true /\
  imageAttachments_of msg_look <> [] /\
  (forall k a, In a (imageAttachments_of msg_look) ->
     no_image (env_all_rejected k (ReqDownloadImage (url a)))) /\
  voiceAttachment_of msg_look = None /\
  let r := run env_all_rejected (messageCreate msg_look) state1 in
  final r = Returned tt /\
  requests r =
    ReqReact (msg_id msg_look) Js.framed_picture
    :: List.map (fun a => ReqDownloadImage (url a)) (imageAttachments_of msg_look) /\
  (Js.truthy (msg_content msg_look) = false -> last r = state1) /\
  (Js.truthy (msg_content msg_look) = true ->
     last r = set_delivered
                (delivered state1 ++
                 [delivery_of state1 msg_look
                    (UParts [TextPart (msg_content msg_look)])]) state1).
Proof.
  assert (Himg : imageAttachments_of msg_look <> []).
  { vm_compute. discriminate. }
  assert (Hnone : forall k a, In a (imageAttachments_of msg_look) ->
            no_image (env_all_rejected k (ReqDownloadImage (url a)))).
  { intros k a _. exact I. }
  split; [reflexivity|]. split; [exact Himg|]. split; [exact Hnone|].
  split; [reflexivity|].
  exact (proj1 (images_all_failed env_all_rejected msg_look state1
                  eq_refl Himg Hnone) eq_refl).
Defined.

(** C3, counterexample.  Thread [T1] is muted and still bound to session
    [S1].  A mute reaction added once more posts the confirmation into it;
    a voice message written into it is answered by a reaction and by a
    reply with the transcription.  [T1] is muted before and after. *)
Lemma muted_thread_is_still_written_to :
  T1 ∈ mutedThreads state1_muted /\
  threads state1_muted !! S1 = Some T1 /\
  (let r := run env_all_resolved (messageReactionAdd reaction_mute human)
              state1_muted in
   requests r =
     [ ReqSend T1
         (PContent (Js.muted_speaker ++ Js.lit " Thread muted " ++ Js.emdash
                      ++ Js.lit " no more notifications will be sent here."));
       ReqReact (Js.lit "m-text") Js.check_mark ] /\
   T1 ∈ mutedThreads (last r) /\
   ~ Forall no_send (requests r)) /\
  (let r := run env_transcribed (messageCreate msg_voice) state1_muted in
   requests r =
     [ ReqReact (msg_id msg_voice) Js.microphone;
       ReqTranscribe (Js.lit "https://cdn.example/v.ogg");
       ReqReply (msg_id msg_voice) (transcription_echo (Js.lit "fix the build")) ] /\
   T1 ∈ mutedThreads (last r)).
Proof.
  assert (Hmuted : T1 ∈ mutedThreads state1_muted).
  { apply (bool_decide_unpack _). vm_compute. exact I. }
  split; [exact Hmuted|]. split; [vm_compute; reflexivity|]. split.
  - cbv zeta. split; [vm_compute; reflexivity|]. split.
    + apply (bool_decide_unpack _). vm_compute. exact I.
    + intros Hall.
      assert (Hreq : requests (run env_all_resolved
                (messageReactionAdd reaction_mute human) state1_muted) =
              [ ReqSend T1
                  (PContent (Js.muted_speaker ++ Js.lit " Thread muted "
                     ++ Js.emdash
                     ++ Js.lit " no more notifications will be sent here."));
                ReqReact (Js.lit "m-text") Js.check_mark ])
        by (vm_compute; reflexivity).
      rewrite Hreq in Hall. inversion Hall as [|q qs Hq _]. discriminate Hq.
  - cbv zeta. split; [vm_compute; reflexivity|].
    apply (bool_decide_unpack _). vm_compute. exact I.
Qed.

Lemma startBot_failed_fetch_stays_connected_witness :
  bot_token state1_offline = Some (Js.lit "token") /\
  client state1_offline = None /\
  config state1_offline = Some config1 /\
  env_channel_unknown 0%nat (ReqLogin (Js.lit "token"))
    = Resolved (Some (Js.lit "42")) /\
  env_channel_unknown 1%nat (ReqFetchChannel (Js.lit "C1"))
    = Rejected (Js.lit "Unknown Channel") /\
  let r := run env_channel_unknown startBot state1_offline in
  final r = Returned {| ok := false; error := Some (Js.lit "Unknown Channel") |} /\
  client (last r) = None /\
  requests r = [ReqLogin (Js.lit "token"); ReqFetchChannel (Js.lit "C1")] /\
  connections env_channel_unknown r 0 = 1%nat /\
  stopBot (last r) = Done tt (last r) /\
  connections env_all_resolved (run env_all_resolved startBot (last r)) 1 = 2%nat.
Proof.
  split; [reflexivity|]. split; [reflexivity|]. split; [reflexivity|].
  split; [reflexivity|]. split; [reflexivity|].
  destruct (startBot_failed_fetch_stays_connected env_channel_unknown
              state1_offline) as (_ & _ & _ & _ & Hfetch).
  destruct (Hfetch (Js.lit "token") (Some (Js.lit "42")) config1
              (Js.lit "Unknown Channel") eq_refl eq_refl eq_refl eq_refl eq_refl)
    as (Hfinal & Hlast & Hreq & Hopen & Hstop & Hnext).
  cbv zeta. split; [exact Hfinal|]. split; [rewrite Hlast; reflexivity|].
  split; [exact Hreq|]. split; [exact Hopen|]. split; [exact Hstop|].
  apply (proj2 (Hnext env_all_resolved) (Some (Js.lit "42"))). reflexivity.
Defined.

(** Without the variable, and with a client present, the start awaits
    nothing. *)
Example startBot_without_token_and_when_running :
  startBot state1_no_token =
    Done {| ok := false; error := Some token_missing |} state1_no_token /\
  startBot state1 = Done {| ok := true; error := None |} state1.
Proof. split; reflexivity. Qed.

(** The same start when the login is refused: no connection is opened. *)
Example login_refused_opens_nothing :
  let r := run env_login_refused startBot state1_offline in
  final r = Returned {| ok := false;
                        error := Some (Js.lit "An invalid token was provided.") |} /\
  last r = state1_offline /\
  connections env_login_refused r 0 = 0%nat.
Proof. cbv zeta. repeat split; vm_compute; reflexivity. Qed.

Lemma long_turn_notices_witness :
  config state1_unnamed = Some config1 /\ enabled config1 = true /\
  is_Some (client state1_unnamed) /\
  minDurationMs config1 <= clock state1_unnamed - agentStartTime state1_unnamed /\
  lastMessage_of messages_done = Some (Js.lit "done") /\
  final (renaming posix env_naming_refused at_20s ctx1 state1_unnamed)
    = Thrown (Js.lit "No API key") /\
  let r := run_clocked env_naming_refused at_20s
             (agent_end posix messages_done ctx1) state1_unnamed in
  final r = Thrown (Js.lit "No API key") /\
  requests r = [ReqGenerateThreadName ctx1].
Proof.
  assert (Hcl : is_Some (client state1_unnamed)) by (eexists; reflexivity).
  assert (Hren : final (renaming posix env_naming_refused at_20s ctx1
                          state1_unnamed) = Thrown (Js.lit "No API key"))
    by (vm_compute; reflexivity).
  split; [reflexivity|]. split; [reflexivity|]. split; [exact Hcl|].
  split; [vm_compute; discriminate|]. split; [vm_compute; reflexivity|].
  split; [exact Hren|].
  destruct (long_turn_notices posix env_naming_refused at_20s messages_done
              ctx1 state1_unnamed config1 eq_refl eq_refl Hcl) as [Hthrown _].
  exact (proj2 (Hthrown (Js.lit "No API key") Hren)).
Defined.

(** Scenario D of the design: a turn of 20 s with a minimum of 15 s posts the
    answer and then the embed. *)
Example scenario_D :
  requests (run_clocked env_T1_alive at_20s (agent_end posix messages_done ctx1)
              state1) =
    [ ReqFetchChannel T1;
      ReqSend T1 (PContent (Js.lit "done"));
      ReqSend T1 (PEmbeds [waiting_embed posix ctx1 20000]) ] /\
  waiting_embed posix ctx1 20000 =
    {| title := Js.robot ++ Js.lit " pi is waiting for your input";
       description := None;
       color := 8141549;
       fields := [ (Js.lit "Project", Js.lit "`proj`");
                   (Js.lit "Duration", Js.lit "20s") ];
       footer := Some (Js.lit "/home/u/proj") |}.
Proof. split; vm_compute; reflexivity. Qed.

(** The duration is taken when the renaming block is through.  A turn ends
    at 14 s, below the minimum of 15 s; asking the model for a name takes
    three seconds, so the handler reads 17 s and posts the embed. *)
Example naming_counts_towards_the_duration :
  clock state1_unnamed_14s - agentStartTime state1_unnamed_14s = 14000 /\
  measured posix env_T1_alive three_seconds_each ctx1 state1_unnamed_14s = 17000 /\
  requests (run_clocked env_T1_alive three_seconds_each
              (agent_end posix messages_done ctx1) state1_unnamed_14s) =
    [ ReqGenerateThreadName ctx1;
      ReqFetchChannel T1;
      ReqSend T1 (PContent (Js.lit "done"));
      ReqSend T1 (PEmbeds [waiting_embed posix ctx1 17000]) ].
Proof. repeat split; vm_compute; reflexivity. Qed.

Lemma mute_delete_is_durable_witness :
  recognised env_all_rejected state1 reaction_delete human S1 /\
  emoji_name reaction_delete = Some Js.wastebasket /\
  let r := run env_all_rejected (messageReactionAdd reaction_delete human) state1 in
  final r = Returned tt /\
  last r = muted_unbound_state T1 S1 state1 /\
  (forall q st, In (q, st) (trace r) -> is_farewell q = true ->
     st = muted_unbound_state T1 S1 state1).
Proof.
  assert (Hrec : recognised env_all_rejected state1 reaction_delete human S1).
  { repeat split; first [reflexivity | intros Hp; discriminate Hp]. }
  split; [exact Hrec|]. split; [reflexivity|].
  destruct (mute_delete_is_durable env_all_rejected state1 reaction_delete
              human S1 Hrec eq_refl) as (Hfinal & Hlast & _ & Htrace & _).
  cbv zeta. split; [exact Hfinal|]. split; [exact Hlast|]. exact Htrace.
Defined.

(** Scenarios B and C of the design. *)
Example scenario_B :
  let s := last (run env_all_resolved
                   (messageReactionAdd reaction_mute human) state1) in
  mutedThreads s = {[ T1 ]} /\ threads s !! S1 = Some T1 /\
  getOrCreateThread posix ctx1 None s = Done None s.
Proof.
  cbv zeta. split; [|split].
  - vm_compute. reflexivity.
  - vm_compute. reflexivity.
  - vm_compute. reflexivity.
Qed.

Example scenario_C :
  let r := run env_all_resolved
             (messageReactionAdd reaction_delete human) state1 in
  mutedThreads (last r) = {[ T1 ]} /\ threads (last r) !! S1 = None /\
  List.map fst (trace r) =
    [ ReqSend T1 (PContent (Js.wastebasket
                              ++ Js.lit " Thread will be deleted in 3 seconds..."));
      ReqSleep 3000;
      ReqDeleteThread T1 (Js.lit "Deleted via " ++ Js.wastebasket
                            ++ Js.lit " reaction") ].
Proof.
  cbv zeta. split; [|split]; vm_compute; reflexivity.
Qed.

(** Scenario A of the design: without a binding for [S1] the first
    notification creates a thread, seeded with the embed, and the binding is
    written to the file. *)
Example scenario_A :
  let r := run env_T1_deleted (notify posix hello ctx1) state0 in
  final r = Returned true /\
  requests r =
    [ ReqFetchChannel (Js.lit "C1");
      ReqCreateForumThread (Js.lit "C1")
        (Js.lit "proj " ++ Js.emdash ++ Js.lit " new session") (PEmbeds [hello]) ] /\
  threads (last r) !! S1 = Some T2 /\
  file_threads (last r) !! S1 = Some T2 /\
  watchedThreads (last r) !! T2 = Some S1.
Proof.
  cbv zeta. repeat split; vm_compute; reflexivity.
Qed.

(** The agent reads an image of the project: it is uploaded to the thread;
    nothing is uploaded once the thread is muted. *)
Example tool_result_uploads :
  requests (run env_T1_alive (tool_result posix read_shot ctx1) state1) =
    [ ReqFetchChannel T1;
      ReqSend T1
        (PFiles (Js.open_book ++ Js.lit " Reading `shot.png`")
           (Js.lit "shot.png") (Js.lit "PNG")) ] /\
  requests (run env_T1_alive (tool_result posix read_shot ctx1) state1_muted) = [].
Proof. split; vm_compute; reflexivity. Qed.

(* ------------------------------------------------------------------ *)
(** ** The helpers outside the closure *)

(** X1.  Truncating twice is truncating once: for a limit of at least 3
    the result of [truncateText] is within the limit, so that a second pass
    with the same limit returns it as it is.  ([renameCurrentThread] passes
    through [truncateText] a name that [makeThreadName] and the renaming
    block have already truncated to 100.) *)
Theorem truncateText_idempotent (text : jsstring) (maxLen : Z) :
  3 <= maxLen ->
  truncateText (truncateText text maxLen) maxLen = truncateText text maxLen.
Proof.
  intros H3. apply truncateText_short. apply truncateText_len. exact H3.
Qed.

Lemma truncateText_idempotent_witness :
  3 <= 100 /\
  truncateText (truncateText (Js.lit "proj") 100) 100
    = truncateText (Js.lit "proj") 100.
Proof.
  split; [lia|]. apply (truncateText_idempotent (Js.lit "proj") 100). lia.
Defined.

(** X2.  For a limit of 1 or 2 and a longer text, [maxLen - 3] is negative
    and [slice] counts it from the end: the result is the text without its
    last [3 - maxLen] code units, followed by the three dots -- [maxLen]
    code units longer than the text itself.  (The limit
    [Math.min(400, charBudget)] of [generateThreadName] can be 1 or 2.) *)
Theorem truncateText_small_limit (text : jsstring) (maxLen : Z) :
  0 < maxLen < 3 -> maxLen < Js.len text ->
  truncateText text maxLen
    = take (Z.to_nat (Js.len text + maxLen - 3)) text ++ Js.lit "..." /\
  Js.len (truncateText text maxLen) = Js.len text + maxLen.
Proof.
  intros Hm Hlong. unfold truncateText.
  destruct (Js.len text <=? maxLen) eqn:E; [apply Z.leb_le in E; lia|].
  assert (Hs : Js.slice text 0 (maxLen - 3)
               = take (Z.to_nat (Js.len text + maxLen - 3)) text).
  { unfold Js.slice, Js.clamp.
    replace (0 <? 0) with false by reflexivity.
    destruct (maxLen - 3 <? 0) eqn:Hneg; [|apply Z.ltb_ge in Hneg; lia].
    rewrite (Z.min_l 0) by (unfold Js.len; lia).
    rewrite Z.max_l by lia. simpl. rewrite drop_0. f_equal. lia. }
  rewrite Hs. split; [reflexivity|].
  rewrite len_app. unfold Js.len in *. rewrite length_take.
  change (length (Js.lit "...")) with 3%nat. lia.
Qed.

Lemma truncateText_small_limit_witness :
  0 < 2 < 3 /\ 2 < Js.len (Js.lit "hello") /\
  truncateText (Js.lit "hello") 2 = Js.lit "hell..." /\
  Js.len (truncateText (Js.lit "hello") 2) = Js.len (Js.lit "hello") + 2.
Proof.
  assert (H2 : 0 < 2 < 3) by lia.
  assert (Hl : 2 < Js.len (Js.lit "hello")) by (vm_compute; reflexivity).
  split; [exact H2|]. split; [exact Hl|].
  destruct (truncateText_small_limit (Js.lit "hello") 2 H2 Hl) as [Heq Hlen].
  split; [rewrite Heq; reflexivity|exact Hlen].
Defined.

Lemma lastAssistantText_from_head l :
  lastAssistantText_from l = head (omap assistant_text l).
Proof.
  induction l as [|msg older IH]; [reflexivity|].
  simpl. unfold assistant_text at 1.
  destruct (Js.eqb (role msg) (Js.lit "assistant")); [|exact IH].
  destruct (content msg) as [s|items|]; simpl; [reflexivity| |exact IH].
  destruct (Js.truthy _); [reflexivity|exact IH].
Qed.

(** X3.  [extractLastAssistantText] returns the text of the last message
    that carries one, where a message carries a text when its role is
    "assistant" and its content is a string (also the empty string) or an
    array whose text items, joined by newlines, are not empty; without such
    a message it returns [null].  So a message appended to the list
    replaces the result by its text when it carries one and leaves the
    result alone otherwise (a tool result, a user message, an assistant
    message made of tool calls only). *)
Theorem extractLastAssistantText_last (messages : list AgentMessage) :
  extractLastAssistantText messages = list.last (omap assistant_text messages) /\
  forall msg,
    extractLastAssistantText (messages ++ [msg]) =
      match assistant_text msg with
      | Some t => Some t
      | None => extractLastAssistantText messages
      end.
Proof.
  assert (Hsnoc : forall ms msg,
    extractLastAssistantText (ms ++ [msg]) =
      match assistant_text msg with
      | Some t => Some t
      | None => extractLastAssistantText ms
      end).
  { intros ms msg. unfold extractLastAssistantText.
    rewrite rev_app_distr, !lastAssistantText_from_head. simpl.
    destruct (assistant_text msg); reflexivity. }
  split; [|apply Hsnoc].
  induction messages as [|msg ms IH] using rev_ind; [reflexivity|].
  rewrite Hsnoc, omap_app. simpl.
  destruct (assistant_text msg) as [t|]; simpl.
  - symmetry. apply last_snoc.
  - rewrite app_nil_r. exact IH.
Qed.

Lemma trimStart_spaces (ws s : jsstring) :
  all_spaces ws -> trimStart (ws ++ s) = trimStart s.
Proof.
  unfold all_spaces. induction 1 as [|c ws Hc _ IH]; [reflexivity|]. simpl. rewrite Hc. exact IH.
Qed.

Lemma trim_padded (lead t trail : jsstring) :
  all_spaces lead -> all_spaces trail ->
  trimStart t = t -> trimStart (rev t) = rev t ->
  trim (lead ++ t ++ trail) = t.
Proof.
  intros Hl Ht Hs He. unfold trim.
  rewrite trimStart_spaces by exact Hl.
  assert (Hst : trimStart (t ++ trail) = t ++ trail \/ t = []).
  { destruct t as [|c t]; [right; reflexivity|left].
    simpl in *. destruct (is_space c); [|reflexivity].
    exfalso. assert (Hlen : (length (trimStart t) <= length t)%nat).
    { clear. induction t as [|d t IH]; simpl; [lia|].
      destruct (is_space d); simpl; lia. }
    rewrite Hs in Hlen. simpl in Hlen. lia. }
  destruct Hst as [->| ->].
  - rewrite rev_app_distr. rewrite trimStart_spaces.
    + rewrite He. apply rev_involutive.
    + unfold all_spaces in *. apply Forall_forall. intros c Hc.
      rewrite Forall_forall in Ht. apply Ht.
      apply list_elem_of_In. apply list_elem_of_In in Hc. apply in_rev. exact Hc.
  - simpl. rewrite <- (app_nil_r trail) at 1. rewrite trimStart_spaces by exact Ht.
    reflexivity.
Qed.

Lemma split_head_app (sep : N) (a rest : jsstring) :
  Forall (fun c => (c =? sep)%N = false) a ->
  split_head sep (a ++ sep :: rest) = a /\ split_head sep a = a.
Proof.
  induction 1 as [|c a Hc _ [IH1 IH2]]; simpl.
  - rewrite N.eqb_refl. split; reflexivity.
  - rewrite Hc, IH1, IH2. split; reflexivity.
Qed.

Lemma space_not_semicolon ws :
  all_spaces ws ->
  Forall (fun c => (c =? semicolon)%N = false) ws.
Proof.
  unfold all_spaces. intros H. eapply Forall_impl; [exact H|]. clear H. intros c Hc. destruct (c =? semicolon)%N eqn:E; [|reflexivity].
  apply N.eqb_eq in E. subst c. discriminate Hc.
Qed.

Lemma supported_shape t :
  t ∈ SUPPORTED_MEDIA_TYPES ->
  Forall (fun c => (c =? semicolon)%N = false) t /\
  trimStart t = t /\ trimStart (rev t) = rev t /\ Js.truthy t = true.
Proof.
  intros Ht. unfold SUPPORTED_MEDIA_TYPES in Ht.
  repeat (apply elem_of_cons in Ht; destruct Ht as [->|Ht]);
    [| | | |apply elem_of_nil in Ht; contradiction];
    (split; [vm_compute; repeat constructor|]); repeat split.
Qed.

(** X4.  The media type [downloadImageAsBase64] attaches to an image is
    always one of the four the host accepts -- whatever the server sends as
    [content-type], or nothing, it falls back to "image/png".  A supported
    type passes unchanged when it is surrounded by white space and when
    parameters follow it after a semicolon. *)
Theorem mediaType_of_supported :
  (forall header, mediaType_of header ∈ SUPPORTED_MEDIA_TYPES) /\
  (forall t lead trail,
     t ∈ SUPPORTED_MEDIA_TYPES -> all_spaces lead -> all_spaces trail ->
     mediaType_of (Some (lead ++ t ++ trail)) = t /\
     forall parameters,
       mediaType_of (Some (lead ++ t ++ trail ++ semicolon :: parameters)) = t).
Proof.
  split.
  - intros header. unfold mediaType_of. cbv zeta.
    destruct (bool_decide _) eqn:E.
    + apply bool_decide_eq_true_1 in E. exact E.
    + apply (bool_decide_unpack _). vm_compute. exact I.
  - intros t lead trail Ht Hl Htr.
    destruct (supported_shape t Ht) as (Hsemi_t & Hs & He & Htruthy_t).
    assert (Hsemi : Forall (fun c => (c =? semicolon)%N = false) (lead ++ t ++ trail)).
    { apply Forall_app. split; [apply space_not_semicolon; exact Hl|].
      apply Forall_app. split; [exact Hsemi_t|apply space_not_semicolon; exact Htr]. }
    assert (Htrim : trim (lead ++ t ++ trail) = t)
      by (apply trim_padded; assumption).
    assert (Htruthy : forall rest, Js.truthy (lead ++ t ++ rest) = true).
    { intros rest. destruct lead; [|reflexivity]. destruct t; [discriminate|].
      reflexivity. }
    split.
    + unfold mediaType_of. cbv zeta. rewrite Htruthy.
      rewrite (proj2 (split_head_app semicolon _ [] Hsemi)), Htrim.
      destruct (bool_decide _) eqn:E; [reflexivity|].
      apply bool_decide_eq_false_1 in E. contradiction.
    + intros parameters. unfold mediaType_of. cbv zeta. rewrite Htruthy.
      replace (lead ++ t ++ trail ++ semicolon :: parameters)
        with ((lead ++ t ++ trail) ++ semicolon :: parameters)
        by (rewrite <- !app_assoc; reflexivity).
      rewrite (proj1 (split_head_app semicolon _ parameters Hsemi)), Htrim.
      destruct (bool_decide _) eqn:E; [reflexivity|].
      apply bool_decide_eq_false_1 in E. contradiction.
Qed.

Lemma mediaType_of_supported_witness :
  Js.lit "image/jpeg" ∈ SUPPORTED_MEDIA_TYPES /\
  all_spaces (Js.lit " ") /\ all_spaces [] /\
  mediaType_of (Some (Js.lit " image/jpeg; charset=binary")) = Js.lit "image/jpeg".
Proof.
  assert (Ht : Js.lit "image/jpeg" ∈ SUPPORTED_MEDIA_TYPES)
    by (apply (bool_decide_unpack _); vm_compute; exact I).
  assert (Hl : all_spaces (Js.lit " ")) by (repeat constructor).
  assert (Htr : all_spaces []) by constructor.
  split; [exact Ht|]. split; [exact Hl|]. split; [exact Htr|].
  exact (proj2 (proj2 mediaType_of_supported (Js.lit "image/jpeg") (Js.lit " ") []
                  Ht Hl Htr) (Js.lit " charset=binary")).
Defined.

Lemma byte_at_range buffer i b : byte_at buffer i = Some b -> 0 <= b < 256.
Proof.
  unfold byte_at. destruct (i <? 0); [discriminate|].
  destruct (buffer !! Z.to_nat i) as [x|]; [|discriminate].
  simpl. intros [= <-]. pose proof (Byte.to_N_bounded x). lia.
Qed.

Lemma byte_at_Some buffer i :
  0 <= i < Z.of_nat (length buffer) -> is_Some (byte_at buffer i).
Proof.
  intros Hi. unfold byte_at.
  destruct (i <? 0) eqn:E; [apply Z.ltb_lt in E; lia|].
  destruct (lookup_lt_is_Some_2 buffer (Z.to_nat i)) as [x ->]; [lia|].
  eexists. reflexivity.
Qed.

Lemma byte_at_bound buffer i b :
  byte_at buffer i = Some b -> 0 <= i < Z.of_nat (length buffer).
Proof.
  unfold byte_at. destruct (i <? 0) eqn:E; [discriminate|].
  apply Z.ltb_ge in E.
  destruct (buffer !! Z.to_nat i) as [x|] eqn:Hx; [|discriminate].
  intros _. apply lookup_lt_Some in Hx. lia.
Qed.

Lemma readUInt32LE_Some buffer offset :
  0 <= offset -> offset + 4 <= Z.of_nat (length buffer) ->
  exists n, readUInt32LE buffer offset = Some n /\ 0 <= n < 2 ^ 32.
Proof.
  intros H0 H4. unfold readUInt32LE.
  destruct (byte_at_Some buffer offset) as [b0 E0]; [lia|].
  destruct (byte_at_Some buffer (offset + 1)) as [b1 E1]; [lia|].
  destruct (byte_at_Some buffer (offset + 2)) as [b2 E2]; [lia|].
  destruct (byte_at_Some buffer (offset + 3)) as [b3 E3]; [lia|].
  rewrite E0, E1, E2, E3. eexists. split; [reflexivity|].
  apply byte_at_range in E0, E1, E2, E3. lia.
Qed.

Lemma scan_chunks_fuel buffer :
  forall fuel1 fuel2 dataOffset,
  0 <= dataOffset ->
  Z.of_nat (length buffer) - dataOffset <= Z.of_nat fuel1 ->
  Z.of_nat (length buffer) - dataOffset <= Z.of_nat fuel2 ->
  scan_chunks fuel1 buffer dataOffset = scan_chunks fuel2 buffer dataOffset /\
  is_Some (scan_chunks fuel1 buffer dataOffset).
Proof.
  induction fuel1 as [|fuel1 IH]; intros fuel2 dataOffset H0 H1 H2.
  - assert (Hc : (dataOffset <? Z.of_nat (length buffer) - 8) = false)
      by (apply Z.ltb_ge; lia).
    destruct fuel2; simpl; rewrite Hc; (split; [reflexivity|eexists; reflexivity]).
  - destruct (dataOffset <? Z.of_nat (length buffer) - 8) eqn:Hc.
    + apply Z.ltb_lt in Hc. destruct fuel2 as [|fuel2]; [simpl in H2; lia|].
      simpl. replace (dataOffset <? Z.of_nat (length buffer) - 8) with true
        by (symmetry; apply Z.ltb_lt; exact Hc).
      destruct (readUInt32LE_Some buffer (dataOffset + 4)) as (n & -> & Hn);
        [lia|lia|].
      destruct (Js.eqb _ _).
      * split; [reflexivity|]. destruct (fill_samples _ _ _ _); eexists; reflexivity.
      * apply IH; lia.
    + destruct fuel2; simpl; rewrite Hc; (split; [reflexivity|eexists; reflexivity]).
Qed.

(** X5.  The [while] loop of [readWavAsFloat32] ends on every buffer: the
    chunk size is read as an unsigned number, so every iteration moves the
    offset forward by at least the 8 bytes of a chunk header, and no more
    iterations run than the buffer has bytes.  The model's bound on the
    number of iterations is therefore never reached, and a larger bound
    gives the same result. *)
Theorem readWavAsFloat32_terminates (buffer : list byte) (fuel : nat) :
  (length buffer <= fuel)%nat ->
  is_Some (readWavAsFloat32 buffer) /\
  scan_chunks fuel buffer 12 = readWavAsFloat32 buffer.
Proof.
  intros Hfuel. unfold readWavAsFloat32.
  destruct (scan_chunks_fuel buffer (length buffer) fuel 12) as [Heq Hsome];
    [lia|lia|lia|].
  split; [exact Hsome|symmetry; exact Heq].
Qed.

Lemma readWavAsFloat32_terminates_witness :
  (length (repeat x00 12) <= 100)%nat /\
  is_Some (readWavAsFloat32 (repeat x00 12)) /\
  scan_chunks 100 (repeat x00 12) 12 = readWavAsFloat32 (repeat x00 12).
Proof.
  assert (H : (length (repeat x00 12) <= 100)%nat) by (simpl; lia).
  split; [exact H|].
  exact (readWavAsFloat32_terminates (repeat x00 12) 100 H).
Defined.

Lemma readInt16LE_range buffer offset v :
  readInt16LE buffer offset = Some v ->
  -32768 <= v < 32768 /\ 0 <= offset /\ offset + 2 <= Z.of_nat (length buffer).
Proof.
  unfold readInt16LE.
  destruct (byte_at buffer offset) as [b0|] eqn:E0; [|discriminate].
  destruct (byte_at buffer (offset + 1)) as [b1|] eqn:E1; [|discriminate].
  intros [= <-]. pose proof (byte_at_bound _ _ _ E0). pose proof (byte_at_bound _ _ _ E1).
  apply byte_at_range in E0, E1.
  destruct (b0 + b1 * 2 ^ 8 <? 32768) eqn:E;
    [apply Z.ltb_lt in E|apply Z.ltb_ge in E]; lia.
Qed.

Lemma sample_normalised v : -32768 <= v < 32768 -> normalised (sample v).
Proof.
  intros Hv. unfold normalised, sample, Qle, Qlt. simpl. lia.
Qed.

Lemma fill_samples_spec buffer dataOffset :
  forall remaining i samples,
  0 <= i ->
  fill_samples buffer dataOffset i remaining = Some samples ->
  length samples = remaining /\
  Forall normalised samples /\
  (remaining <> 0%nat ->
     0 <= dataOffset + i * 2 /\
     dataOffset + (i + Z.of_nat remaining) * 2 <= Z.of_nat (length buffer)).
Proof.
  induction remaining as [|n IH]; intros i samples Hi; simpl.
  - intros [= <-]. split; [reflexivity|]. split; [constructor|]. intros []. reflexivity.
  - destruct (readInt16LE buffer (dataOffset + i * 2)) as [v|] eqn:Hv; [|discriminate].
    destruct (fill_samples buffer dataOffset (i + 1) n) as [rest|] eqn:Hrest;
      [|discriminate].
    simpl. intros [= <-]. apply readInt16LE_range in Hv.
    destruct (IH (i + 1) rest) as (Hlen & Hall & Hin); [lia|exact Hrest|].
    split; [simpl; lia|]. split.
    + constructor; [apply sample_normalised; lia|exact Hall].
    + intros _. split; [lia|]. destruct n as [|n']; [lia|].
      destruct Hin as [_ Hin]; [discriminate|]. lia.
Qed.

Lemma scan_chunks_samples buffer :
  forall fuel dataOffset samples,
  0 <= dataOffset ->
  scan_chunks fuel buffer dataOffset = Some (WavSamples samples) ->
  Forall normalised samples /\
  Z.of_nat (length samples) * 2 + dataOffset + 8 <= Z.of_nat (length buffer).
Proof.
  induction fuel as [|fuel IH]; intros dataOffset samples H0; simpl.
  - destruct (_ <? _); discriminate.
  - destruct (dataOffset <? Z.of_nat (length buffer) - 8) eqn:Hc; [|discriminate].
    apply Z.ltb_lt in Hc.
    destruct (readUInt32LE buffer (dataOffset + 4)) as [n|] eqn:Hn; [|discriminate].
    destruct (readUInt32LE_Some buffer (dataOffset + 4)) as (n' & Hn' & Hr); [lia|lia|].
    rewrite Hn in Hn'. injection Hn' as <-.
    destruct (Js.eqb _ _).
    + destruct (fill_samples buffer (dataOffset + 8) 0 (Z.to_nat (n / 2))) as [l|] eqn:Hl;
        [|discriminate].
      intros [= <-].
      destruct (fill_samples_spec buffer (dataOffset + 8) (Z.to_nat (n / 2)) 0 l)
        as (Hlen & Hall & Hin);
        [lia|exact Hl|].
      split; [exact Hall|]. rewrite Hlen.
      destruct (Z.to_nat (n / 2)) as [|k] eqn:Hk; [simpl; lia|].
      destruct Hin as [_ Hin]; [discriminate|]. lia.
    + intros Hrec. destruct (IH (dataOffset + 8 + n) samples) as [Hall Hlen];
        [lia|exact Hrec|]. split; [exact Hall|lia].
Qed.

(** X6.  When [readWavAsFloat32] returns samples, every sample lies in
    [-1, 1) -- a signed 16-bit value divided by 32768 -- and all of them
    were read from inside the buffer, behind the 12 bytes of the RIFF header
    and the 8 bytes of the chunk header. *)
Theorem readWavAsFloat32_normalised (buffer : list byte) (samples : list Q) :
  readWavAsFloat32 buffer = Some (WavSamples samples) ->
  Forall normalised samples /\
  20 + 2 * Z.of_nat (length samples) <= Z.of_nat (length buffer).
Proof.
  intros H. apply scan_chunks_samples in H; [|lia]. split; [apply H|lia].
Qed.

Lemma readWavAsFloat32_normalised_witness :
  let buffer := repeat x00 12 ++ riff_chunk data_id (pcm16 [0; -32768; 32767]) in
  readWavAsFloat32 buffer
    = Some (WavSamples [sample 0; sample (-32768); sample 32767]) /\
  Forall normalised [sample 0; sample (-32768); sample 32767] /\
  20 + 2 * 3 <= Z.of_nat (length buffer).
Proof.
  cbv zeta.
  assert (H : readWavAsFloat32
                (repeat x00 12 ++ riff_chunk data_id (pcm16 [0; -32768; 32767]))
              = Some (WavSamples [sample 0; sample (-32768); sample 32767]))
    by (vm_compute; reflexivity).
  split; [exact H|]. exact (readWavAsFloat32_normalised _ _ H).
Defined.

Lemma byte_of_val z : Z.of_N (Byte.to_N (byte_of z)) = z mod 256.
Proof.
  unfold byte_of. pose proof (Z.mod_pos_bound z 256 eq_refl) as Hb.
  destruct (Byte.of_N (Z.to_N (z mod 256))) as [b|] eqn:E.
  - apply Byte.to_of_N in E. rewrite E. lia.
  - apply Byte.of_N_None_iff in E. lia.
Qed.

Lemma byte_at_app pre l i :
  0 <= i -> byte_at (pre ++ l) (Z.of_nat (length pre) + i) = byte_at l i.
Proof.
  intros Hi. unfold byte_at.
  destruct (Z.of_nat (length pre) + i <? 0) eqn:E; [apply Z.ltb_lt in E; lia|].
  destruct (i <? 0) eqn:E'; [apply Z.ltb_lt in E'; lia|].
  replace (Z.to_nat (Z.of_nat (length pre) + i))
    with (length pre + Z.to_nat i)%nat by lia.
  rewrite lookup_app_r by lia. f_equal. f_equal. lia.
Qed.

Lemma byte_at_cons b l i :
  0 <= i -> byte_at (b :: l) (1 + i) = byte_at l i.
Proof. intros Hi. apply (byte_at_app [b] l i Hi). Qed.

Lemma byte_at_0 b l : byte_at (b :: l) 0 = Some (Z.of_N (Byte.to_N b)).
Proof. reflexivity. Qed.

Lemma readUInt32LE_app pre l offset :
  0 <= offset ->
  readUInt32LE (pre ++ l) (Z.of_nat (length pre) + offset) = readUInt32LE l offset.
Proof.
  intros H. unfold readUInt32LE.
  rewrite <- !Z.add_assoc, !byte_at_app by lia. reflexivity.
Qed.

Lemma readInt16LE_app pre l offset :
  0 <= offset ->
  readInt16LE (pre ++ l) (Z.of_nat (length pre) + offset) = readInt16LE l offset.
Proof.
  intros H. unfold readInt16LE.
  rewrite <- !Z.add_assoc, !byte_at_app by lia. reflexivity.
Qed.

Lemma readUInt32LE_le32 n rest :
  0 <= n < 2 ^ 32 -> readUInt32LE (le32 n ++ rest) 0 = Some n.
Proof.
  intros Hn. unfold readUInt32LE, le32. simpl app.
  rewrite byte_at_0.
  change (0 + 1) with (1 + 0). rewrite byte_at_cons, byte_at_0 by lia.
  change (0 + 2) with (1 + (1 + 0)). rewrite !byte_at_cons, byte_at_0 by lia.
  change (0 + 3) with (1 + (1 + (1 + 0))). rewrite !byte_at_cons, byte_at_0 by lia.
  rewrite !byte_of_val. f_equal.
  change (2 ^ 8) with 256. change (2 ^ 16) with (256 * 256).
  change (2 ^ 24) with (256 * 256 * 256).
  rewrite <- !Z.div_div by lia.
  pose proof (Z.div_mod n 256 ltac:(lia)).
  pose proof (Z.div_mod (n / 256) 256 ltac:(lia)).
  pose proof (Z.div_mod (n / 256 / 256) 256 ltac:(lia)).
  pose proof (Z.div_mod (n / 256 / 256 / 256) 256 ltac:(lia)).
  assert (n / 256 / 256 / 256 / 256 = 0).
  { rewrite !Z.div_div by lia. apply Z.div_small. lia. }
  lia.
Qed.

Lemma readInt16LE_le16 v rest :
  -32768 <= v < 32768 -> readInt16LE (le16 v ++ rest) 0 = Some v.
Proof.
  intros Hv. unfold readInt16LE, le16. simpl app.
  rewrite byte_at_0.
  change (0 + 1) with (1 + 0). rewrite byte_at_cons, byte_at_0 by lia.
  rewrite !byte_of_val. f_equal. change (2 ^ 8) with 256.
  pose proof (Z.div_mod v 256 ltac:(lia)).
  pose proof (Z.div_mod (v / 256) 256 ltac:(lia)).
  pose proof (Z.mod_pos_bound v 256 eq_refl).
  pose proof (Z.mod_pos_bound (v / 256) 256 eq_refl).
  assert (Hq : v / 256 / 256 = -1 \/ v / 256 / 256 = 0).
  { rewrite Z.div_div by lia.
    destruct (Z_lt_le_dec v 0).
    - left. symmetry. apply (Z.div_unique v (256 * 256) (-1) (v + 65536)); lia.
    - right. apply Z.div_small. lia. }
  destruct (_ <? 32768) eqn:E; [apply Z.ltb_lt in E|apply Z.ltb_ge in E]; lia.
Qed.

Lemma fill_samples_pcm16 vs :
  forall pre rest dataOffset i,
  Forall (fun v => -32768 <= v < 32768) vs ->
  0 <= i -> dataOffset + i * 2 = Z.of_nat (length pre) ->
  fill_samples (pre ++ pcm16 vs ++ rest) dataOffset i (length vs)
    = Some (List.map sample vs).
Proof.
  induction vs as [|v vs IH]; intros pre rest dataOffset i Hvs Hi Hoff;
    [reflexivity|].
  inversion Hvs as [|? ? Hv Hvs']; subst.
  change (pcm16 (v :: vs) ++ rest) with (le16 v ++ pcm16 vs ++ rest).
  cbn [fill_samples length].
  rewrite Hoff. rewrite <- (Z.add_0_r (Z.of_nat (length pre))).
  rewrite readInt16LE_app by lia.
  rewrite readInt16LE_le16 by exact Hv.
  rewrite (app_assoc pre (le16 v)).
  rewrite (IH (pre ++ le16 v) rest dataOffset (i + 1)); [reflexivity|exact Hvs'|lia|].
  rewrite length_app. simpl. lia.
Qed.

Lemma toString_ascii_app pre l n :
  toString_ascii (pre ++ l) (Z.of_nat (length pre)) (Z.of_nat (length pre) + n)
    = toString_ascii l 0 n.
Proof.
  unfold toString_ascii. rewrite Nat2Z.id.
  rewrite drop_app_length. simpl. rewrite drop_0.
  do 3 f_equal. lia.
Qed.

Lemma toString_ascii_id id rest :
  length id = 4%nat -> toString_ascii (id ++ rest) 0 4 = toString_ascii id 0 4.
Proof.
  intros Hid. unfold toString_ascii. simpl. rewrite !drop_0.
  rewrite take_app_le by lia. reflexivity.
Qed.

Lemma scan_chunks_header fuel pre id payload rest :
  length id = 4%nat -> Z.of_nat (length payload) < 2 ^ 32 ->
  (payload <> [] \/ rest <> []) ->
  scan_chunks (S fuel) (pre ++ riff_chunk id payload ++ rest)
    (Z.of_nat (length pre)) =
  if Js.eqb (toString_ascii id 0 4) (Js.lit "data") then
    match fill_samples (pre ++ riff_chunk id payload ++ rest)
            (Z.of_nat (length pre) + 8) 0
            (Z.to_nat (Z.of_nat (length payload) / 2)) with
    | Some samples => Some (WavSamples samples)
    | None => Some (WavThrow RangeError)
    end
  else scan_chunks fuel (pre ++ riff_chunk id payload ++ rest)
         (Z.of_nat (length pre) + 8 + Z.of_nat (length payload)).
Proof.
  intros Hid Hsize Hmore. simpl scan_chunks.
  assert (Hc : (Z.of_nat (length pre) <?
                Z.of_nat (length (pre ++ riff_chunk id payload ++ rest)) - 8) = true).
  { apply Z.ltb_lt. unfold riff_chunk. rewrite ?length_app. simpl.
    destruct Hmore as [Hp|Hr].
    - destruct payload; [congruence|]. simpl. lia.
    - destruct rest; [congruence|]. simpl. lia. }
  rewrite Hc. rewrite toString_ascii_app.
  unfold riff_chunk at 1 2. rewrite <- !app_assoc.
  rewrite toString_ascii_id by exact Hid.
  rewrite readUInt32LE_app by lia.
  assert (H4 : forall l, readUInt32LE (id ++ l) 4 = readUInt32LE l 0).
  { intros l. rewrite <- (readUInt32LE_app id l 0) by lia. f_equal. lia. }
  rewrite H4, readUInt32LE_le32 by lia. reflexivity.
Qed.

Lemma scan_chunks_skip cs :
  forall fuel pre tail,
  Forall skipped cs -> tail <> [] ->
  (length (pre ++ chunks cs ++ tail) <= fuel + length pre)%nat ->
  scan_chunks fuel (pre ++ chunks cs ++ tail) (Z.of_nat (length pre)) =
  scan_chunks (length (pre ++ chunks cs ++ tail))
    (pre ++ chunks cs ++ tail) (Z.of_nat (length (pre ++ chunks cs))).
Proof.
  induction cs as [|[id payload] cs IH]; intros fuel pre tail Hcs Htail Hfuel.
  - simpl chunks. simpl app. rewrite app_nil_r.
    apply scan_chunks_fuel; rewrite ?length_app in *; lia.
  - inversion Hcs as [|? ? (Hid & Hne & Hsize) Hcs']; subst. simpl in Hid, Hne, Hsize.
    change (chunks ((id, payload) :: cs)) with (riff_chunk id payload ++ chunks cs)
      in *.
    rewrite <- (app_assoc (riff_chunk id payload)).
    destruct fuel as [|fuel].
    { exfalso. rewrite ?length_app in Hfuel. unfold riff_chunk in Hfuel.
      rewrite ?length_app in Hfuel. simpl in Hfuel. lia. }
    rewrite scan_chunks_header; try assumption.
    2:{ right. destruct cs; [simpl; exact Htail|].
        intros Hnil. apply app_eq_nil in Hnil. destruct Hnil as [Hnil _].
        destruct p as [id' p']. unfold chunks in Hnil. simpl in Hnil.
        apply app_eq_nil in Hnil. destruct Hnil as [Hnil _].
        unfold riff_chunk in Hnil. apply (f_equal length) in Hnil.
        rewrite ?length_app in Hnil. simpl in Hnil. lia. }
    destruct (Js.eqb _ _) eqn:E.
    { apply bool_decide_eq_true_1 in E. contradiction. }
    rewrite (app_assoc pre (riff_chunk id payload)).
    replace (Z.of_nat (length pre) + 8 + Z.of_nat (length payload))
      with (Z.of_nat (length (pre ++ riff_chunk id payload))).
    2:{ unfold riff_chunk. rewrite ?length_app. simpl. lia. }
    rewrite IH; [|exact Hcs'|exact Htail|].
    + rewrite <- !app_assoc. reflexivity.
    + rewrite ?length_app in *. unfold riff_chunk in *.
      rewrite ?length_app in *. simpl in *. lia.
Qed.

(** X7.  On a file laid out as a 12-byte header, any number of chunks
    whose identifier is not "data", then a "data" chunk holding 16-bit
    little-endian samples, then anything, [readWavAsFloat32] steps over the
    other chunks and returns exactly the samples of the data chunk, each
    divided by 32768.  (The data chunk must not be empty and last at
    once: the loop would not look at it.) *)
Theorem readWavAsFloat32_layout (header : list byte)
    (others : list (list byte * list byte)) (vs : list Z) (rest : list byte) :
  length header = 12%nat ->
  Forall skipped others ->
  Forall (fun v => -32768 <= v < 32768) vs ->
  2 * Z.of_nat (length vs) < 2 ^ 32 ->
  (vs <> [] \/ rest <> []) ->
  readWavAsFloat32
    (header ++ chunks others ++ riff_chunk data_id (pcm16 vs) ++ rest)
  = Some (WavSamples (List.map sample vs)).
Proof.
  intros Hh Hothers Hvs Hsize Hmore. unfold readWavAsFloat32.
  assert (Hlen : length (pcm16 vs) = (2 * length vs)%nat).
  { clear. induction vs as [|v vs IH]; [reflexivity|]. simpl. lia. }
  replace 12 with (Z.of_nat (length header)) by lia.
  rewrite scan_chunks_skip; [|exact Hothers| |lia].
  2:{ unfold riff_chunk, data_id. simpl. discriminate. }
  rewrite (app_assoc header (chunks others)).
  set (pre := header ++ chunks others).
  destruct (length (pre ++ riff_chunk data_id (pcm16 vs) ++ rest)) as [|fuel] eqn:Hf.
  { exfalso. rewrite ?length_app in Hf. unfold riff_chunk in Hf.
    rewrite ?length_app in Hf. simpl in Hf. lia. }
  rewrite scan_chunks_header; [|reflexivity|lia|].
  2:{ destruct Hmore as [Hne|Hne]; [left|right; exact Hne].
      destruct vs; [congruence|]. simpl. discriminate. }
  change (Js.eqb (toString_ascii data_id 0 4) (Js.lit "data")) with true.
  cbv iota. rewrite Hlen.
  replace (Z.to_nat (Z.of_nat (2 * length vs) / 2)) with (length vs).
  2:{ rewrite Nat2Z.inj_mul. change (Z.of_nat 2) with 2.
      rewrite Z.mul_comm, Z.div_mul by lia. lia. }
  unfold riff_chunk. rewrite <- !app_assoc.
  rewrite (app_assoc pre data_id), (app_assoc (pre ++ data_id)).
  rewrite fill_samples_pcm16; [reflexivity|exact Hvs|lia|].
  rewrite ?length_app. simpl. lia.
Qed.

Lemma readWavAsFloat32_layout_witness :
  let header := repeat x00 12 in
  let fmt := ([x66; x6d; x74; x20], [x01; x00]) in
  length header = 12%nat /\ Forall skipped [fmt] /\
  Forall (fun v => -32768 <= v < 32768) [1; -2] /\
  readWavAsFloat32
    (header ++ chunks [fmt] ++ riff_chunk data_id (pcm16 [1; -2]) ++ [])
  = Some (WavSamples [sample 1; sample (-2)]).
Proof.
  cbv zeta.
  assert (Hfmt : Forall skipped [([x66; x6d; x74; x20], [x01; x00])]).
  { constructor; [|constructor]. split; [reflexivity|]. split.
    - vm_compute. discriminate.
    - vm_compute. reflexivity. }
  assert (Hvs : Forall (fun v => -32768 <= v < 32768) [1; -2])
    by (repeat constructor; lia).
  split; [reflexivity|]. split; [exact Hfmt|]. split; [exact Hvs|].
  apply (readWavAsFloat32_layout (repeat x00 12)
           [([x66; x6d; x74; x20], [x01; x00])] [1; -2] []);
    [reflexivity|exact Hfmt|exact Hvs|vm_compute; reflexivity|left; discriminate].
Defined.

(** X8.  [readWavAsFloat32] throws "Could not find data chunk in WAV
    file" on every buffer of at most 20 bytes, and also when the data chunk
    is empty and ends the file: the loop looks at a chunk header only if at
    least one byte follows it. *)
Theorem readWavAsFloat32_no_data (header : list byte)
    (others : list (list byte * list byte)) :
  length header = 12%nat ->
  Forall skipped others ->
  (forall buffer, (length buffer <= 20)%nat ->
     readWavAsFloat32 buffer
       = Some (WavThrow no_data_chunk)) /\
  readWavAsFloat32 (header ++ chunks others ++ riff_chunk data_id [])
    = Some (WavThrow no_data_chunk).
Proof.
  intros Hh Hothers. split.
  - intros buffer Hb. unfold readWavAsFloat32.
    assert (Hc : (12 <? Z.of_nat (length buffer) - 8) = false)
      by (apply Z.ltb_ge; lia).
    assert (Hall : forall fuel,
      scan_chunks fuel buffer 12
        = Some (WavThrow no_data_chunk)).
    { intros [|fuel]; simpl; rewrite Hc; reflexivity. }
    apply Hall.
  - unfold readWavAsFloat32.
    replace 12 with (Z.of_nat (length header)) by lia.
    rewrite scan_chunks_skip; [|exact Hothers|discriminate|lia].
    set (buffer := header ++ chunks others ++ riff_chunk data_id []).
    assert (Hc : (Z.of_nat (length (header ++ chunks others))
                  <? Z.of_nat (length buffer) - 8) = false).
    { apply Z.ltb_ge. subst buffer. rewrite ?length_app. simpl. lia. }
    assert (Hall : forall fuel,
      scan_chunks fuel buffer (Z.of_nat (length (header ++ chunks others)))
        = Some (WavThrow no_data_chunk)).
    { intros [|fuel]; simpl; rewrite Hc; reflexivity. }
    apply Hall.
Qed.

Lemma readWavAsFloat32_no_data_witness :
  let header := repeat x00 12 in
  let fmt := ([x66; x6d; x74; x20], [x01; x00]) in
  length header = 12%nat /\ Forall skipped [fmt] /\
  readWavAsFloat32 (header ++ chunks [fmt] ++ riff_chunk data_id [])
    = Some (WavThrow no_data_chunk).
Proof.
  cbv zeta.
  assert (Hfmt : Forall skipped [([x66; x6d; x74; x20], [x01; x00])]).
  { constructor; [|constructor]. split; [reflexivity|]. split.
    - vm_compute. discriminate.
    - vm_compute. reflexivity. }
  split; [reflexivity|]. split; [exact Hfmt|].
  exact (proj2 (readWavAsFloat32_no_data (repeat x00 12)
                  [([x66; x6d; x74; x20], [x01; x00])] eq_refl Hfmt)).
Defined.

Lemma truncateText_nonempty text maxLen :
  Js.truthy text = true -> 0 < Js.len (truncateText text maxLen).
Proof.
  intros Ht. unfold truncateText. destruct (_ <=? _).
  - destruct text; [discriminate|]. unfold Js.len. simpl. lia.
  - rewrite len_app. unfold Js.len. change (length (Js.lit "...")) with 3%nat. lia.
Qed.

(** X9.  The snippets [generateThreadName] gathers, for a budget that is
    still positive: every snippet is non-empty; every snippet but the last
    has at most 400 code units, and together they stay below the budget;
    the last one fits into what is left of the budget (and into 400) as
    long as at least 3 code units are left.  (With 1 or 2 left the last
    snippet can be longer than the text it was cut from.) *)
Theorem gather_snippets_budget (entries : list SessionEntry) :
  forall (charBudget : Z) (init : list jsstring) (lastSnippet : jsstring),
  0 < charBudget ->
  List.map snd (gather_snippets entries charBudget) = init ++ [lastSnippet] ->
  Forall (fun b => 0 < Js.len b <= 400) init /\
  total_len init < charBudget /\
  0 < Js.len lastSnippet /\
  (3 <= charBudget - total_len init ->
     Js.len lastSnippet <= Z.min 400 (charBudget - total_len init)).
Proof.
  induction entries as [|entry rest IH]; intros charBudget init lastSnippet Hb.
  - simpl. intros H. destruct init; discriminate H.
  - simpl. destruct (negb (Js.eqb (entry_type entry) (Js.lit "message")));
      [apply IH; exact Hb|].
    destruct (_ && _); [apply IH; exact Hb|].
    destruct (negb (Js.truthy (text_of_content (content (entry_message entry)))))
      eqn:Ht; [apply IH; exact Hb|].
    apply negb_false_iff in Ht.
    set (text := text_of_content (content (entry_message entry))) in *.
    set (snippet := truncateText text (Z.min 400 charBudget)).
    pose proof (truncateText_nonempty text (Z.min 400 charBudget) Ht) as Hpos.
    fold snippet in Hpos.
    assert (Hbig : 3 <= charBudget -> Js.len snippet <= Z.min 400 charBudget).
    { intros H3. apply truncateText_len. lia. }
    destruct (charBudget - Js.len snippet <=? 0) eqn:Hleft.
    + simpl. intros Heq. destruct init as [|b init].
      * injection Heq as <-. simpl. split; [constructor|].
        split; [exact Hb|]. split; [exact Hpos|]. intros H3. rewrite Z.sub_0_r in *. apply Hbig. exact H3.
      * injection Heq as _ Heq. destruct init; discriminate Heq.
    + apply Z.leb_gt in Hleft. simpl. intros Heq.
      assert (Hsmall : Js.len snippet <= 400).
      { destruct (Z_lt_le_dec charBudget 3); [lia|]. specialize (Hbig ltac:(lia)). lia. }
      destruct init as [|b init].
      * simpl in Heq. injection Heq as <- Hnil. simpl.
        split; [constructor|]. split; [exact Hb|]. split; [exact Hpos|].
        intros H3. rewrite Z.sub_0_r in *. apply Hbig. exact H3.
      * simpl in Heq. injection Heq as <- Heq.
        destruct (IH (charBudget - Js.len snippet) init lastSnippet ltac:(lia) Heq)
          as (Hall & Htot & Hlast & Hfit).
        simpl. split; [constructor; [lia|exact Hall]|].
        split; [lia|]. split; [exact Hlast|]. intros H3.
        replace (charBudget - (Js.len snippet + total_len init))
          with (charBudget - Js.len snippet - total_len init) by lia.
        apply Hfit. lia.
Qed.

Lemma gather_snippets_budget_witness :
  let entries :=
    [ {| entry_type := Js.lit "message";
         entry_message := {| role := Js.lit "user";
                             content := CString (Js.lit "fix the login page") |} |};
      {| entry_type := Js.lit "compaction";
         entry_message := {| role := []; content := COther |} |};
      {| entry_type := Js.lit "message";
         entry_message := {| role := Js.lit "assistant";
                             content := CString (Js.lit "done") |} |} ] in
  0 < 20 /\
  List.map snd (gather_snippets entries 20)
    = [Js.lit "fix the login page"] ++ [Js.lit "don..."] /\
  total_len [Js.lit "fix the login page"] < 20 /\
  0 < Js.len (Js.lit "don...").
Proof.
  cbv zeta. assert (H : 0 < 20) by lia. split; [exact H|].
  split; [vm_compute; reflexivity|].
  match goal with
  | |- total_len ?init < _ /\ 0 < Js.len ?l =>
      destruct (gather_snippets_budget
                  [ {| entry_type := Js.lit "message";
                       entry_message :=
                         {| role := Js.lit "user";
                            content := CString (Js.lit "fix the login page") |} |};
                    {| entry_type := Js.lit "compaction";
                       entry_message := {| role := []; content := COther |} |};
                    {| entry_type := Js.lit "message";
                       entry_message :=
                         {| role := Js.lit "assistant";
                            content := CString (Js.lit "done") |} |} ]
                  20 init l H) as (_ & Htot & Hpos & _)
  end.
  - vm_compute. reflexivity.
  - split; [exact Htot|exact Hpos].
Defined.

(* ------------------------------------------------------------------ *)
(** ** The listeners, the loop and the commands on the concrete session *)

Lemma messageCreate_ignores_other_threads_witness :
  accepted state1 msg_elsewhere = false /\
  messageCreate msg_elsewhere state1 = Done tt state1 /\
  exec_step posix loop1 (Dispatch (EvMessageCreate msg_elsewhere)) = loop1.
Proof.
  split; [reflexivity|].
  destruct (messageCreate_ignores_other_threads posix msg_elsewhere state1 eq_refl)
    as [Hdrop Hloop].
  split; [exact Hdrop|]. apply Hloop. reflexivity.
Defined.

Lemma messageReactionAdd_ignores_the_rest_witness :
  known_emoji reaction_thumbs_up = false /\
  let r := run env_all_resolved
             (messageReactionAdd reaction_thumbs_up human) state1 in
  final r = Returned tt /\ last r = state1 /\
  requests r = [ReqReactionFetch (Js.lit "m-text")].
Proof.
  split; [reflexivity|].
  apply (messageReactionAdd_ignores_the_rest env_all_resolved state1
           reaction_thumbs_up human).
  right. right. right. reflexivity.
Defined.

Lemma files_follow_memory_witness :
  pool loop1 = [] /\ persisted (st loop1) /\
  persisted (st (exec posix schedule_delete loop1)).
Proof.
  assert (H : persisted (st loop1)) by (split; reflexivity).
  split; [reflexivity|]. split; [exact H|].
  exact (proj1 (files_follow_memory posix schedule_delete loop1 eq_refl H)).
Defined.

Lemma events_never_unmute_witness :
  pool loop1 = [] /\
  never_undone (st loop1) (st (exec posix schedule_there_and_back loop1)) /\
  currentSessionFile (st (exec posix schedule_there_and_back loop1)) = Some S1.
Proof.
  split; [reflexivity|].
  exact (events_never_unmute posix schedule_there_and_back loop1 eq_refl).
Defined.

(** In between, the current session is [S2]. *)
Example session_switch_sets_the_current_session :
  currentSessionFile
    (st (exec posix (take 3 schedule_there_and_back) loop1)) = Some S2.
Proof. vm_compute. reflexivity. Qed.

Lemma busy_flag_follows_turn_events_witness :
  pool loop1 = [] /\
  isAgentBusy (st (exec posix schedule_plain loop1))
    = busy_after schedule_plain (isAgentBusy (st loop1)).
Proof.
  split; [reflexivity|].
  exact (proj1 (busy_flag_follows_turn_events posix schedule_plain loop1 eq_refl)).
Defined.

Lemma thread_name_is_generated_once_between_sessions_witness :
  pool (at_rest state1_unnamed) = [] /\
  session_events schedule_two_ends = 0%nat /\
  (generations posix schedule_two_ends (at_rest state1_unnamed) <= 1)%nat.
Proof.
  split; [reflexivity|]. split; [reflexivity|].
  destruct (thread_name_is_generated_once_between_sessions posix
              schedule_two_ends (at_rest state1_unnamed) eq_refl)
    as (_ & _ & Hstay).
  exact (proj1 (Hstay eq_refl)).
Defined.

(** The first of the two turns asks the model, the second does not. *)
Example two_ends_one_generation :
  generations posix schedule_two_ends (at_rest state1_unnamed) = 1%nat /\
  generations posix schedule_two_ends (at_rest state1) = 0%nat.
Proof. split; vm_compute; reflexivity. Qed.

(** A session that is left and come back to is asked about again: the
    bound is reached. *)
Example there_and_back_two_generations :
  session_events schedule_there_and_back = 2%nat /\
  generations posix schedule_there_and_back (at_rest state1_unnamed) = 2%nat.
Proof. split; vm_compute; reflexivity. Qed.

Lemma stopBot_disconnects_witness :
  is_Some (client state1) /\
  let r := run env_all_rejected session_shutdown state1 in
  final r = Returned tt /\ client (last r) = None /\
  requests r = [ReqDestroy] /\
  last r = set_botUserId None (set_client None state1).
Proof.
  assert (Hc : is_Some (client state1)) by (eexists; reflexivity).
  split; [exact Hc|].
  destruct (stopBot_disconnects env_all_rejected state1)
    as (Hfinal & Hclient & _ & Hconn).
  cbv zeta. split; [exact Hfinal|]. split; [exact Hclient|]. exact (Hconn Hc).
Defined.

Lemma startBot_rebuilds_the_index_witness :
  bot_token state1_offline = Some (Js.lit "token") /\
  client state1_offline = None /\
  config state1_offline = Some config1 /\
  let r := run env_T1_deleted startBot state1_offline in
  final r = Returned {| ok := true; error := None |} /\
  client (last r) = Some GatewayClient /\
  isForum (last r) = true /\
  exists sk, watchedThreads (last r) !! T1 = Some sk /\
             threads state1_offline !! sk = Some T1.
Proof.
  split; [reflexivity|]. split; [reflexivity|]. split; [reflexivity|].
  destruct (startBot_rebuilds_the_index env_T1_deleted state1_offline
              (Js.lit "token") config1 (Some (Js.lit "42")) (Some forum1))
    as (Hfinal & Hclient & _ & Hforum & _ & Hindex & _);
    try reflexivity.
  cbv zeta. split; [exact Hfinal|]. split; [exact Hclient|].
  split; [exact Hforum|]. apply (Hindex S1 T1). reflexivity.
Defined.

Lemma unmute_resumes_notifications_witness :
  binding_of state1_muted (currentSessionFile state1_muted) = Some T1 /\
  T1 ∈ mutedThreads state1_muted /\
  let r := run env_T1_alive discord_unmute state1_muted in
  final r = Returned tt /\
  mutedThreads (last r) = mutedThreads state1 /\
  file_muted (last r) = mutedThreads state1.
Proof.
  assert (Hb : binding_of state1_muted (currentSessionFile state1_muted) = Some T1)
    by reflexivity.
  assert (Hm : T1 ∈ mutedThreads state1_muted)
    by (apply (bool_decide_unpack _); vm_compute; exact I).
  split; [exact Hb|]. split; [exact Hm|].
  destruct (unmute_resumes_notifications posix env_T1_alive state1_muted T1 Hb Hm)
    as (Hfinal & _ & _ & Hundo & _).
  cbv zeta. split; [exact Hfinal|].
  apply (Hundo state1); [|apply not_elem_of_empty].
  vm_compute. reflexivity.
Defined.

Lemma mute_delete_starts_over_witness :
  Js.truthy S1 = true /\ currentSessionFile state1 = Some S1 /\
  let s' := muted_unbound_state T1 S1 state1 in
  T1 ∈ mutedThreads s' /\
  discord_unmute s' = Done tt s' /\
  messageCreate msg_text s' = Done tt s' /\
  exists k,
    getOrCreateThread posix ctx1 None s'
      = Susp (ReqFetchChannel (Js.lit "C1")) s' k.
Proof.
  split; [reflexivity|]. split; [reflexivity|].
  destruct (mute_delete_starts_over posix state1 T1 S1 eq_refl eq_refl)
    as (Hmuted & Hunmute & Hdrop & Hnext).
  cbv zeta. split; [exact Hmuted|]. split; [exact Hunmute|]. split.
  - apply Hdrop. reflexivity.
  - apply (Hnext ctx1 None GatewayClient config1); reflexivity.
Defined.


Lemma failed_unarchive_evicts_witness :
  (T1 ∉ mutedThreads state1) /\
  ch_archived thread1_archived = true /\
  let r := run env_unarchive_refused (getOrCreateThread posix ctx1 None) state1 in
  exists rest,
    trace r = (ReqFetchChannel T1, state1)
              :: (ReqSetArchived T1 false, state1)
              :: (ReqFetchChannel (Js.lit "C1"),
                  set_file_threads (delete S1 (threads state1))
                    (set_watchedThreads (delete T1 (watchedThreads state1))
                       (set_threads (delete S1 (threads state1)) state1)))
              :: rest /\
    Forall (fun p => threads (snd p) !! S1 = None
                     /\ file_threads (snd p) = threads (snd p)) rest.
Proof.
  assert (Hm : T1 ∉ mutedThreads state1) by apply not_elem_of_empty.
  split; [exact Hm|]. split; [reflexivity|].
  apply (failed_unarchive_evicts posix ctx1 None env_unarchive_refused state1
           GatewayClient config1 S1 T1 thread1_archived
           (Js.lit "Missing Permissions"));
    try reflexivity; try exact Hm; intros n; reflexivity.
Defined.

Lemma disabled_bot_stays_silent_witness :
  config_enabled state1_offline
    && bool_decide (is_Some (client state1_offline)) = false /\
  agent_end posix messages_done ctx1 state1_offline
    = Done tt (set_isAgentBusy false state1_offline) /\
  tool_result posix read_shot ctx1 state1_offline = Done tt state1_offline.
Proof.
  assert (H : config_enabled state1_offline
              && bool_decide (is_Some (client state1_offline)) = false)
    by (vm_compute; reflexivity).
  split; [exact H|].
  destruct (disabled_bot_stays_silent posix state1_offline H) as [Hend Htool].
  split; [apply Hend|apply Htool].
Defined.

Lemma notify_posts_once_witness :
  final (run env_T1_deleted (notify posix hello ctx1) state0) = Returned true /\
  posted_once hello (requests (run env_T1_deleted (notify posix hello ctx1) state0)).
Proof.
  assert (H : final (run env_T1_deleted (notify posix hello ctx1) state0)
              = Returned true) by (vm_compute; reflexivity).
  split; [exact H|].
  exact (notify_posts_once posix env_T1_deleted hello ctx1 state0 H).
Defined.

Lemma session_switch_isolates_witness :
  watchedThreads state1 !! ch_id (msg_channel msg_text) = Some S1 /\
  getSessionFile ctx2 <> Some S1 /\
  exists s',
    session_switch ctx2 state1 = Done tt s' /\
    currentSessionFile s' = Some S2 /\
    messageCreate msg_text s' = Done tt s'.
Proof.
  assert (Hw : watchedThreads state1 !! ch_id (msg_channel msg_text) = Some S1)
    by reflexivity.
  assert (Hne : getSessionFile ctx2 <> Some S1) by (vm_compute; discriminate).
  split; [exact Hw|]. split; [exact Hne|].
  destruct (session_switch_isolates ctx2 state1)
    as (s' & Hrun & Hcur & _ & _ & _ & _ & _ & Hdrop & _).
  exists s'. split; [exact Hrun|]. split; [exact Hcur|].
  exact (Hdrop msg_text S1 Hw Hne).
Defined.

Lemma session_start_adopts_the_session_witness :
  let r := run env_login_refused (session_start ctx2) state1_offline in
  final r = Returned tt /\
  currentSessionFile (last r) = Some S2 /\
  threadAutoNamed (last r) = false.
Proof.
  destruct (session_start_adopts_the_session posix env_login_refused ctx2
              state1_offline) as (Hfinal & Hcur & Hflag & _).
  cbv zeta. split; [exact Hfinal|]. split; [exact Hcur|exact Hflag].
Defined.

Lemma short_turn_gets_the_answer_only_witness :
  config state1_quick = Some config1 /\ enabled config1 = true /\
  is_Some (client state1_quick) /\
  measured posix env_T1_alive at_20s ctx1 state1_quick < minDurationMs config1 /\
  final (renaming posix env_T1_alive at_20s ctx1 state1_quick) = Returned tt /\
  final (resolution posix env_T1_alive at_20s ctx1 state1_quick)
    = Returned (Some thread1) /\
  let r := run_clocked env_T1_alive at_20s (agent_end posix messages_done ctx1)
             state1_quick in
  final r = Returned tt /\
  Forall no_embed_post (requests r) /\
  exists before,
    requests r = before ++ [ReqSend T1 (PContent (truncateText (Js.lit "done") 1900))].
Proof.
  assert (Hcl : is_Some (client state1_quick)) by (eexists; reflexivity).
  assert (Hren : final (renaming posix env_T1_alive at_20s ctx1 state1_quick)
                 = Returned tt) by (vm_compute; reflexivity).
  assert (Hres : final (resolution posix env_T1_alive at_20s ctx1 state1_quick)
                 = Returned (Some thread1)) by (vm_compute; reflexivity).
  assert (Hdur : measured posix env_T1_alive at_20s ctx1 state1_quick
                 < minDurationMs config1) by (vm_compute; reflexivity).
  split; [reflexivity|]. split; [reflexivity|]. split; [exact Hcl|].
  split; [exact Hdur|]. split; [exact Hren|]. split; [exact Hres|].
  destruct (short_turn_gets_the_answer_only posix env_T1_alive at_20s
              messages_done ctx1 state1_quick config1 eq_refl eq_refl Hcl Hdur)
    as (Hquiet & Hanswer).
  destruct (Hanswer thread1 Hren Hres) as [Hfinal Hlast].
  cbv zeta. split; [exact Hfinal|]. split; [exact Hquiet|].
  apply (Hlast (Js.lit "done")); reflexivity.
Defined.

Lemma discord_rename_marks_success_witness :
  Js.truthy (trim (Js.lit " login page ")) = true /\
  threadAutoNamed state1_unnamed = false /\
  let r := run env_T1_alive
             (discord_rename posix (Js.lit " login page ") ctx1) state1_unnamed in
  threadAutoNamed (last r) = true /\
  Forall no_generation (requests r) /\
  Exists (fun q => is_rename q = true) (requests r).
Proof.
  assert (Hname : Js.truthy (trim (Js.lit " login page ")) = true)
    by (vm_compute; reflexivity).
  assert (Hflag : threadAutoNamed
                    (last (run env_T1_alive
                             (discord_rename posix (Js.lit " login page ") ctx1)
                             state1_unnamed)) = true)
    by (vm_compute; reflexivity).
  split; [exact Hname|]. split; [reflexivity|].
  destruct (discord_rename_marks_success posix env_T1_alive
              (Js.lit " login page ") ctx1 state1_unnamed)
    as (_ & _ & Hgen & Hset).
  cbv zeta. split; [exact Hflag|]. split; [exact (Hgen Hname)|].
  exact (Hset eq_refl Hflag).
Defined.

(** What the rename command asks of the platform. *)
Example discord_rename_requests :
  requests (run env_T1_alive
              (discord_rename posix (Js.lit " login page ") ctx1) state1_unnamed) =
    [ ReqFetchChannel T1;
      ReqSetName T1 (Js.lit "proj " ++ Js.emdash ++ Js.lit " login page") ].
Proof. vm_compute. reflexivity. Qed.

Lemma sessionless_threads_are_not_recorded_witness :
  getSessionFile ctx_ephemeral = None /\
  creation_succeeds env_T1_deleted config1 (Some hello) thread2 /\
  let r := run env_T1_deleted
             (getOrCreateThread posix ctx_ephemeral (Some hello)) state1 in
  final r = Returned (Some thread2) /\ last r = state1 /\
  Exists (fun q => is_creation q = true) (requests r).
Proof.
  assert (Hcreate : creation_succeeds env_T1_deleted config1 (Some hello) thread2).
  { exists forum1. split; [intros n; reflexivity|]. intros n name message.
    reflexivity. }
  split; [reflexivity|]. split; [exact Hcreate|].
  exact (proj2 (sessionless_threads_are_not_recorded posix ctx_ephemeral
                  (Some hello) env_T1_deleted state1 GatewayClient config1 thread2
                  eq_refl eq_refl eq_refl Hcreate)).
Defined.

(** The agent reads the screenshot in a session without a thread, the
    configured channel being a forum: the thread is created with the text
    that opens it, then the image is uploaded. *)
Example tool_result_in_a_new_forum_thread :
  requests (run env_forum (tool_result posix read_shot ctx1) state1_unbound) =
    [ ReqFetchChannel (Js.lit "C1");
      ReqCreateForumThread (Js.lit "C1")
        (Js.lit "proj " ++ Js.emdash ++ Js.lit " new session")
        (PContent (Js.robot ++ Js.lit " pi session started " ++ Js.emdash
                     ++ Js.lit " proj " ++ Js.emdash ++ Js.lit " new session"));
      ReqSend T2
        (PFiles (Js.open_book ++ Js.lit " Reading `shot.png`")
           (Js.lit "shot.png") (Js.lit "PNG")) ].
Proof. vm_compute. reflexivity. Qed.
